(** * ShapeDrawer: the scene parser and the shape model of [drawer.py]

    A shallow embedding of [src/drawer.py] and the properties of its
    colour resolver, its scene parser and its shapes.

    Python objects live in a store: [json.load] returns dictionaries and
    lists that the parser keeps references to and updates in place, so a
    dictionary is a location in a heap and [figure_dict.pop('type')]
    changes the object the input list still points to.

    Not modelled: JSON numbers with a fraction or an exponent (Python
    floats), so that the numbers of a document are [int] and [bool] and
    what is proved of the arithmetic of the [draw] methods is stated for
    these and for the values it is not defined on; and code points above
    255 in strings (a string is a [String.string]; the parser only ever
    inspects the characters [#], [(] and [0]..[9]). [int] refuses a
    numeral of more than 4300 digits, the default of CPython 3.11. *)

From Stdlib Require Import ZArith List String Ascii Bool Lia.
From stdpp Require Import base list strings pretty.
Import ListNotations.

Local Open Scope string_scope.
Local Open Scope list_scope.

(** ** Values, exceptions *)

Abbreviation loc := nat.

(** A Python value as the program meets them. [VRgb r g b] is the tuple
    [int(r), int(g), int(b)] built by [_parse_color]; [VRef l] is a
    reference to a [dict] or a [list] of the heap. *)
Inductive val : Type :=
| VNone
| VBool (b : bool)
| VInt (n : Z)
| VStr (s : string)
| VRgb (r g b : Z)
| VRef (l : loc).

#[global] Instance val_eq_dec : EqDecision val.
Proof. solve_decision. Defined.

(** The exception classes the program can raise by itself. *)
Inductive exn : Type :=
| AttributeError
| KeyError (key : val)
| TypeError
| ValueError.

Inductive result (A : Type) : Type :=
| Ok (a : A)
| Raise (e : exn).
Arguments Ok {A} a.
Arguments Raise {A} e.

Definition rbind {A B} (c : result A) (k : A -> result B) : result B :=
  match c with
  | Ok a => k a
  | Raise e => Raise e
  end.

Declare Scope py_scope.
Delimit Scope py_scope with py.
Notation "x <~ c ;; k" := (rbind c (fun x => k))
  (at level 100, c at next level, right associativity) : py_scope.
Local Open Scope py_scope.

(** ** Strings: [str.startswith], [re.findall('[0-9]+', _)], [int] *)

(** [v.startswith(prefix)]: only [str] has the method. *)
Definition startswith (v : val) (p : string) : result bool :=
  match v with
  | VStr s => Ok (String.prefix p s)
  | _ => Raise AttributeError
  end.

Definition is_digit (c : ascii) : bool :=
  (48 <=? nat_of_ascii c)%nat && (nat_of_ascii c <=? 57)%nat.

(** [findall('[0-9]+', s)]: the leftmost, greedy, non-overlapping matches.
    [run] is the match in progress. *)
Fixpoint findall_from (run s : string) : list string :=
  match s with
  | EmptyString =>
      match run with
      | EmptyString => []
      | _ => [run]
      end
  | String c s' =>
      if is_digit c then findall_from (run +:+ String c EmptyString) s'
      else
        match run with
        | EmptyString => findall_from EmptyString s'
        | _ => run :: findall_from EmptyString s'
        end
  end.

Definition findall_digits (s : string) : list string :=
  findall_from EmptyString s.

Definition digit_value (c : ascii) : Z := Z.of_nat (nat_of_ascii c) - 48.

Fixpoint int_from (acc : Z) (s : string) : Z :=
  match s with
  | EmptyString => acc
  | String c s' => int_from (10 * acc + digit_value c) s'
  end.

(** The number a string of decimal digits writes. *)
Definition decimal (s : string) : Z := int_from 0 s.

(** [sys.int_info.default_max_str_digits]: CPython converts no numeral
    of more digits, leading zeros counted, and raises [ValueError] for
    one. *)
Definition int_max_str_digits : nat := 4300.

(** [int(s)] for a string of decimal digits. *)
Definition int (s : string) : result Z :=
  if (String.length s <=? int_max_str_digits)%nat then Ok (decimal s)
  else Raise ValueError.

(** ** The heap: dictionaries and lists *)

(** A [dict] with [str] keys keeps its insertion order. *)
Abbreviation dict := (list (string * val)).

Inductive obj : Type :=
| ODict (d : dict)
| OList (vs : list val).

Abbreviation heap := (list obj).

Fixpoint dget {A} (k : string) (d : list (string * A)) : option A :=
  match d with
  | [] => None
  | (k', v) :: d' => if decide (k = k') then Some v else dget k d'
  end.

(** [d[k] = v]: an existing key keeps its place, a new one goes last. *)
Fixpoint dset (k : string) (v : val) (d : dict) : dict :=
  match d with
  | [] => [(k, v)]
  | (k', v') :: d' =>
      if decide (k = k') then (k, v) :: d' else (k', v') :: dset k v d'
  end.

Fixpoint ddel (k : string) (d : dict) : dict :=
  match d with
  | [] => []
  | (k', v') :: d' => if decide (k = k') then d' else (k', v') :: ddel k d'
  end.

Definition keys (d : dict) : list string := map fst d.

(** State and exceptions: a computation reads and updates the heap, and
    returns a value or raises. *)
Definition M (A : Type) : Type := heap -> result (A * heap).

Definition ret {A} (a : A) : M A := fun h => Ok (a, h).

Definition raise {A} (e : exn) : M A := fun _ => Raise e.

Definition bind {A B} (c : M A) (k : A -> M B) : M B :=
  fun h =>
    match c h with
    | Ok (a, h') => k a h'
    | Raise e => Raise e
    end.

Definition lift {A} (r : result A) : M A :=
  fun h =>
    match r with
    | Ok a => Ok (a, h)
    | Raise e => Raise e
    end.

Notation "x <- c ;; k" := (bind c (fun x => k))
  (at level 100, c at next level, right associativity) : py_scope.
Notation "c ;;; k" := (bind c (fun _ => k))
  (at level 100, right associativity) : py_scope.

Fixpoint mapM {A B} (f : A -> M B) (xs : list A) : M (list B) :=
  match xs with
  | [] => ret []
  | x :: xs' => y <- f x ;; ys <- mapM f xs' ;; ret (y :: ys)
  end.

Fixpoint forM_ {A} (xs : list A) (f : A -> M unit) : M unit :=
  match xs with
  | [] => ret tt
  | x :: xs' => f x ;;; forM_ xs' f
  end.

Definition alloc (o : obj) : M val :=
  fun h => Ok (VRef (List.length h), h ++ [o]).

(** What a value is, as far as method and item look-up care. *)
Definition deref (v : val) (h : heap) : option obj :=
  match v with
  | VRef l => h !! l
  | _ => None
  end.

(** A key must be hashable; of the values here only [dict] and [list]
    are not. A hashable key that is not a [str] is in no [dict] of the
    program. *)
Definition hashed (key : val) : result (option string) :=
  match key with
  | VRef _ => Raise TypeError
  | VStr k => Ok (Some k)
  | _ => Ok None
  end.

(** [o.get]: the bound method, to be called once its arguments are
    evaluated. Only [dict] has it. *)
Definition getattr_get (o : val) : M (val -> val -> M val) :=
  fun h =>
    match o, deref o h with
    | VRef l, Some (ODict _) =>
        Ok (fun key default h' =>
              match hashed key, h' !! l with
              | Raise e, _ => Raise e
              | Ok (Some k), Some (ODict d) =>
                  Ok (match dget k d with Some v => v | None => default end, h')
              | Ok _, _ => Ok (default, h')
              end, h)
    | _, _ => Raise AttributeError
    end.

(** [o[key]] for a [str] key. *)
Definition getitem (o : val) (key : string) : M val :=
  fun h =>
    match deref o h with
    | Some (ODict d) =>
        match dget key d with
        | Some v => Ok (v, h)
        | None => Raise (KeyError (VStr key))
        end
    | _ => Raise TypeError
    end.

(** [o[key] = v] for a [str] key. *)
Definition setitem (o : val) (key : string) (v : val) : M unit :=
  fun h =>
    match o, deref o h with
    | VRef l, Some (ODict d) => Ok (tt, <[l := ODict (dset key v d)]> h)
    | _, _ => Raise TypeError
    end.

(** [o.items()], as the sequence a [for] loop over it goes through when
    the loop only assigns to existing keys. *)
Definition items (o : val) : M (list (string * val)) :=
  fun h =>
    match deref o h with
    | Some (ODict d) => Ok (d, h)
    | _ => Raise AttributeError
    end.

(** [o.pop(key)] for a [str] key: [dict.pop] removes and returns,
    [list.pop] wants an index, nothing else has the method. *)
Definition pop (o : val) (key : string) : M val :=
  fun h =>
    match o, deref o h with
    | VRef l, Some (ODict d) =>
        match dget key d with
        | Some v => Ok (v, <[l := ODict (ddel key d)]> h)
        | None => Raise (KeyError (VStr key))
        end
    | VRef l, Some (OList _) => Raise TypeError
    | _, _ => Raise AttributeError
    end.

Fixpoint chars (s : string) : list val :=
  match s with
  | EmptyString => []
  | String c s' => VStr (String c EmptyString) :: chars s'
  end.

(** The elements a [for] loop (or [*o], or [chain]) takes from [o]. *)
Definition iter (o : val) : M (list val) :=
  fun h =>
    match o with
    | VStr s => Ok (chars s, h)
    | VRgb r g b => Ok ([VInt r; VInt g; VInt b], h)
    | VRef l =>
        match h !! l with
        | Some (OList vs) => Ok (vs, h)
        | Some (ODict d) => Ok (map VStr (keys d), h)
        | None => Raise TypeError
        end
    | _ => Raise TypeError
    end.

(** ** [json.load] *)

#[warnings="-register-all"]
Inductive json : Type :=
| JNull
| JBool (b : bool)
| JInt (n : Z)
| JStr (s : string)
| JArr (js : list json)
| JObj (kvs : list (string * json)).

Section Load.

Variable load : json -> M val.

Fixpoint load_all (js : list json) : M (list val) :=
  match js with
  | [] => ret []
  | j :: js' => v <- load j ;; vs <- load_all js' ;; ret (v :: vs)
  end.

Fixpoint load_pairs (kvs : list (string * json)) (d : dict) : M dict :=
  match kvs with
  | [] => ret d
  | (k, j) :: kvs' => v <- load j ;; load_pairs kvs' (dset k v d)
  end.

End Load.

(** Every array and object of the document becomes a fresh object of the
    heap; a repeated key keeps its first place and its last value. *)
Fixpoint json_load (j : json) : M val :=
  match j with
  | JNull => ret VNone
  | JBool b => ret (VBool b)
  | JInt n => ret (VInt n)
  | JStr s => ret (VStr s)
  | JArr js => vs <- load_all json_load js ;; alloc (OList vs)
  | JObj kvs => d <- load_pairs json_load kvs [] ;; alloc (ODict d)
  end.

(** ** Arithmetic of the [draw] methods *)

(** [int] and [bool] are the numbers of a document. *)
Definition as_number (v : val) : option Z :=
  match v with
  | VInt n => Some n
  | VBool b => Some (if b then 1 else 0)%Z
  | _ => None
  end.

(** [a - b]: no value of the model other than a number supports it. *)
Definition py_sub (a b : val) : result val :=
  match as_number a, as_number b with
  | Some x, Some y => Ok (VInt (x - y))
  | _, _ => Raise TypeError
  end.

(** [a // 2]: floor division, [Z.div] for the positive divisor. *)
Definition py_floordiv2 (a : val) : result val :=
  match as_number a with
  | Some x => Ok (VInt (x / 2))
  | None => Raise TypeError
  end.

(** [a + b] on numbers. Python also concatenates two strings, lists or
    tuples; the [draw] methods reach [+] only with operands that [-] or
    [// 2] has accepted before, which are numbers. *)
Definition py_add (a b : val) : result val :=
  match as_number a, as_number b with
  | Some x, Some y => Ok (VInt (x + y))
  | _, _ => Raise TypeError
  end.

(** ** The shape model *)

(** A call on the drawing surface ([ImageDraw.Draw]), with its [fill]. *)
Inductive draw_call : Type :=
| point (xy : val * val) (fill : val)
| ellipse (xy : val * val * val * val) (fill : val)
| rectangle (xy : val * val * val * val) (fill : val)
| polygon (xy : list val) (fill : val).

(** The class of an object with the attributes of a [Rectangle]:
    [Square] inherits everything but [__init__]. *)
Inductive rectangle_class : Type := IsRectangle | IsSquare.

(** An instance of a shape class, with its attributes. *)
Inductive shape : Type :=
| PointObj (color x_coord y_coord : val)
| CircleObj (color x_coord y_coord radius : val)
| RectangleObj (cls : rectangle_class) (color x_coord y_coord height width : val)
| PolygonObj (color points : val).

Definition shape_color (s : shape) : val :=
  match s with
  | PointObj color _ _ => color
  | CircleObj color _ _ _ => color
  | RectangleObj _ color _ _ _ _ => color
  | PolygonObj color _ => color
  end.

Module Point.
Definition __init__ (x y color : val) : shape := PointObj color x y.

Definition draw (color x_coord y_coord : val) : M draw_call :=
  ret (point (x_coord, y_coord) color).
End Point.

Module Circle.
Definition __init__ (x y radius color : val) : shape :=
  CircleObj color x y radius.

Definition draw (color x_coord y_coord radius : val) : M draw_call :=
  lift (x0 <~ py_sub x_coord radius ;;
        y0 <~ py_sub y_coord radius ;;
        x1 <~ py_add x_coord radius ;;
        y1 <~ py_add y_coord radius ;;
        Ok (ellipse (x0, y0, x1, y1) color)).
End Circle.

Module Rectangle.
(** [cls] is the class of [self]: [Rectangle], or [Square] when the
    call comes from [Square.__init__]. *)
Definition __init__ (cls : rectangle_class) (x y height width color : val)
  : shape :=
  RectangleObj cls color x y height width.

Definition draw (color x_coord y_coord height width : val) : M draw_call :=
  lift (w0 <~ py_floordiv2 width ;;
        x0 <~ py_sub x_coord w0 ;;
        h0 <~ py_floordiv2 height ;;
        y0 <~ py_sub y_coord h0 ;;
        w1 <~ py_floordiv2 width ;;
        x1 <~ py_add x_coord w1 ;;
        h1 <~ py_floordiv2 height ;;
        y1 <~ py_add y_coord h1 ;;
        Ok (rectangle (x0, y0, x1, y1) color)).
End Rectangle.

Module Square.
Definition __init__ (x y size color : val) : shape :=
  Rectangle.__init__ IsSquare x y size size color.
End Square.

Module Polygon.
Definition __init__ (points color : val) : shape := PolygonObj color points.

(** [list(chain( *self.points))] *)
Definition draw (color points : val) : M draw_call :=
  pts <- iter points ;;
  xys <- mapM iter pts ;;
  ret (polygon (concat xys) color).
End Polygon.

(** [shape.draw(surface)]: the method of the object's class. *)
Definition draw (s : shape) : M draw_call :=
match s with
| PointObj color x y => Point.draw color x y
| CircleObj color x y radius => Circle.draw color x y radius
| RectangleObj _ color x y height width => Rectangle.draw color x y height width
| PolygonObj color points => Polygon.draw color points
end.

(** ** Calls with keyword arguments *)

(** [f( **kwargs)] for a function whose parameters (after [self]) are
  [params], each with its default if it has one: a keyword that is no
  parameter, or a parameter left without a value, is a [TypeError]. *)
Fixpoint bind_params (params : list (string * option val)) (kwargs : dict)
: result (list val) :=
match params with
| [] => Ok []
| (p, default) :: params' =>
    match dget p kwargs, default with
    | Some v, _ | None, Some v =>
        vs <~ bind_params params' kwargs ;; Ok (v :: vs)
    | None, None => Raise TypeError
    end
end.

Definition bind_kwargs (params : list (string * option val)) (kwargs : dict)
: result (list val) :=
if forallb (fun k => bool_decide (k ∈ map fst params)) (keys kwargs)
then bind_params params kwargs
else Raise TypeError.

Definition required (names : list string) : list (string * option val) :=
map (fun p => (p, None)) names.

(** The classes of [FileParser._FIGURE_CONSTRUCTORS]. *)
Inductive constructor : Type :=
| CPoint | CCircle | CSquare | CRectangle | CPolygon.

Definition parameters (c : constructor) : list string :=
match c with
| CPoint => ["x"; "y"; "color"]
| CCircle => ["x"; "y"; "radius"; "color"]
| CSquare => ["x"; "y"; "size"; "color"]
| CRectangle => ["x"; "y"; "height"; "width"; "color"]
| CPolygon => ["points"; "color"]
end.

(** [constructor( **kwargs)] *)
Definition construct (c : constructor) (kwargs : dict) : result shape :=
args <~ bind_kwargs (required (parameters c)) kwargs ;;
match c, args with
| CPoint, [x; y; color] => Ok (Point.__init__ x y color)
| CCircle, [x; y; radius; color] => Ok (Circle.__init__ x y radius color)
| CSquare, [x; y; size; color] => Ok (Square.__init__ x y size color)
| CRectangle, [x; y; height; width; color] =>
    Ok (Rectangle.__init__ IsRectangle x y height width color)
| CPolygon, [points; color] => Ok (Polygon.__init__ points color)
| _, _ => Raise TypeError
end.

(** ** The scene parser *)

Module FileParser.

Record self : Type := {
  color_palette : val;
  screen_parameters : val;
  figures : list shape
}.

Definition _FIGURE_CONSTRUCTORS : list (string * constructor) :=
  [("point", CPoint);
   ("circle", CCircle);
   ("square", CSquare);
   ("rectangle", CRectangle);
   ("polygon", CPolygon)].

(** [FileParser._FIGURE_CONSTRUCTORS[figure_type]] *)
Definition figure_constructor (figure_type : val) : result constructor :=
  key <~ hashed figure_type ;;
  match key with
  | Some k =>
      match dget k _FIGURE_CONSTRUCTORS with
      | Some c => Ok c
      | None => Raise (KeyError figure_type)
      end
  | None => Raise (KeyError figure_type)
  end.

Definition _parse_color (string_color : val) : result val :=
  hash <~ startswith string_color "#" ;;
  if hash : bool then Ok string_color
  else
    paren <~ startswith string_color "(" ;;
    if paren : bool then
      match string_color with
      | VStr s =>
          match findall_digits s with
          | [r; g; b] =>
              r <~ int r ;; g <~ int g ;; b <~ int b ;; Ok (VRgb r g b)
          | _ => Raise ValueError
          end
      | _ => Raise AttributeError
      end
    else Ok VNone.

(** [color_palette.get(token, FileParser._parse_color(token))]: the
    bound method first, then both arguments, then the call. *)
Definition resolve (color_palette token : val) : M val :=
  get <- getattr_get color_palette ;;
  default <- lift (_parse_color token) ;;
  get token default.

(** [**figure_dict] *)
Definition kwargs_of (o : val) : M dict :=
  fun h =>
    match deref o h with
    | Some (ODict d) => Ok (d, h)
    | _ => Raise TypeError
    end.

Definition _parse_figure (color_palette screen_parameters figure_dict : val)
  : M shape :=
  figure_type <- pop figure_dict "type" ;;
  get <- getattr_get figure_dict ;;
  fg_color <- getitem screen_parameters "fg_color" ;;
  raw_color <- get (VStr "color") fg_color ;;
  color <- resolve color_palette raw_color ;;
  setitem figure_dict "color" color ;;;
  constructor <- lift (figure_constructor figure_type) ;;
  kwargs <- kwargs_of figure_dict ;;
  lift (construct constructor kwargs).

(** The body of [__init__] once [json.load] has returned [raw_dict]. *)
Definition __init__ (raw_dict : val) : M self :=
  get <- getattr_get raw_dict ;;
  empty <- alloc (ODict []) ;;
  color_palette <- get (VStr "Palette") empty ;;
  palette_items <- items color_palette ;;
  forM_ palette_items (fun '(name, value) =>
    color <- lift (_parse_color value) ;;
    setitem color_palette name color) ;;;
  screen_parameters <- getitem raw_dict "Screen" ;;
  bg_color <- getitem screen_parameters "bg_color" ;;
  bg <- resolve color_palette bg_color ;;
  setitem screen_parameters "bg_color" bg ;;;
  fg_color <- getitem screen_parameters "fg_color" ;;
  fg <- resolve color_palette fg_color ;;
  setitem screen_parameters "fg_color" fg ;;;
  raw_figures <- getitem raw_dict "Figures" ;;
  figure_dicts <- iter raw_figures ;;
  figures <- mapM (_parse_figure color_palette screen_parameters) figure_dicts ;;
  ret {| color_palette := color_palette;
         screen_parameters := screen_parameters;
         figures := figures |}.

(** [FileParser(json_file)] for a file that holds the document [doc]. *)
Definition new (doc : json) : M self :=
  raw_dict <- json_load doc ;;
  __init__ raw_dict.

End FileParser.

(** ** The canvas and the driver *)

(** What the program asks of the imaging library, in the order it asks. *)
Inductive event : Type :=
| Image_new (size : val * val) (color : val)
| ImageDraw_Draw
| Surface (c : draw_call)
| Image_show
| Image_save (file_name : string).

Module ImageManager.

Record self : Type := {
  width : val;
  height : val;
  bg_color : val;
  fg_color : val
}.

Definition parameters : list (string * option val) :=
  [("width", None); ("height", None); ("bg_color", None);
   ("fg_color", Some VNone)].

End ImageManager.

Section Driver.

(** The imaging library is not part of the program: [raises ev] is the
    exception it answers the request [ev] with, if any. *)
Variable raises : event -> option exn.

(** A run: the requests made of the library, then how the run ends. *)
Definition run : Type := list event * result unit.

Definition request (ev : event) (rest : run) : run :=
  match raises ev with
  | Some e => ([ev], Raise e)
  | None => (ev :: fst rest, snd rest)
  end.

(** [ImageManager( **kwargs)], then [rest] with the new instance. *)
Definition ImageManager_new (kwargs : dict) (rest : ImageManager.self -> run)
  : run :=
  match bind_kwargs ImageManager.parameters kwargs with
  | Ok [width; height; bg_color; fg_color] =>
      request (Image_new (width, height) bg_color)
        (request ImageDraw_Draw
           (rest {| ImageManager.width := width;
                    ImageManager.height := height;
                    ImageManager.bg_color := bg_color;
                    ImageManager.fg_color := fg_color |}))
  | Ok _ => ([], Raise TypeError)
  | Raise e => ([], Raise e)
  end.

(** [for figure in fp.figures: im.draw(figure)], then [rest]. *)
Fixpoint draw_figures (figures : list shape) (h : heap) (rest : run) : run :=
  match figures with
  | [] => rest
  | figure :: figures' =>
      match draw figure h with
      | Ok (call, _) => request (Surface call) (draw_figures figures' h rest)
      | Raise e => ([], Raise e)
      end
  end.

(** [if args.output: im.save(args.output)]; an empty string is false. *)
Definition save (output : option string) : run :=
  match output with
  | None | Some EmptyString => ([], Ok tt)
  | Some file_name => request (Image_save file_name) ([], Ok tt)
  end.

(** [main()] on an input file that holds [doc], with the value of the
    [--output] option. *)
Definition main (doc : json) (output : option string) : run :=
  match FileParser.new doc [] with
  | Raise e => ([], Raise e)
  | Ok (fp, h) =>
      match FileParser.kwargs_of (FileParser.screen_parameters fp) h with
      | Raise e => ([], Raise e)
      | Ok (kwargs, _) =>
          ImageManager_new kwargs (fun im =>
            draw_figures (FileParser.figures fp) h
              (request Image_show (save output)))
      end
  end.

End Driver.

(** * Vocabulary of the properties *)

(** ** Digit runs *)

Fixpoint string_forall (P : ascii -> bool) (s : string) : bool :=
  match s with
  | EmptyString => true
  | String c s' => P c && string_forall P s'
  end.

Definition all_digits (s : string) : bool := string_forall is_digit s.

Definition no_digit (s : string) : bool :=
  string_forall (fun c => negb (is_digit c)) s.

(** A string cut into its maximal digit runs: each run comes with the
    digit-free text up to the next run, empty after the last run only. *)
Fixpoint join (runs : list (string * string)) : string :=
  match runs with
  | [] => EmptyString
  | (r, sep) :: rest => r +:+ sep +:+ join rest
  end.

Fixpoint well_split (runs : list (string * string)) : Prop :=
  match runs with
  | [] => True
  | (r, sep) :: rest =>
      r <> EmptyString /\ all_digits r = true /\ no_digit sep = true /\
      (rest = [] \/ sep <> EmptyString) /\ well_split rest
  end.

(** ** Shapes and their fields *)

(** The geometry parameters of a shape class: all but [color]. *)
Definition geometry (c : constructor) : list string :=
  filter (fun p => p <> "color") (parameters c).

(** ** Heaps without sharing *)

Definition ref_of (v : val) : option loc :=
  match v with
  | VRef l => Some l
  | _ => None
  end.

Definition refs (vs : list val) : list loc := omap ref_of vs.

Definition obj_refs (o : obj) : list loc :=
  match o with
  | ODict d => refs (map snd d)
  | OList vs => refs vs
  end.

Definition all_refs (h : heap) : list loc := concat (map obj_refs h).

(** What [json.load] returns: [root] and the objects below it, each
    object referenced from one place only and [root] from none, and no
    reference out of the heap. *)
Definition tree (h : heap) (root : val) : Prop :=
  NoDup (refs [root] ++ all_refs h) /\
  Forall (fun l => (l < List.length h)%nat) (refs [root] ++ all_refs h).

(** A loader is fresh when it only appends objects, and what it returns
    and what the new objects hold refer to the new objects only, each
    once. [F] stands for the references made so far. *)
Definition fresh_load {A} (res : A -> list loc) (c : M A) : Prop :=
  forall (h : heap) (F : list loc),
    NoDup F -> Forall (fun l => (l < List.length h)%nat) F ->
    exists a ext,
      c h = Ok (a, h ++ ext) /\
      NoDup (res a ++ F ++ all_refs ext) /\
      Forall (fun l => (l < List.length (h ++ ext))%nat)
        (res a ++ F ++ all_refs ext).

Definition well_keyed (h : heap) : Prop :=
  forall l d, h !! l = Some (ODict d) -> NoDup (keys d).

(** Induction on a document, with the hypothesis for every element of an
    array and every value of an object. *)
Fixpoint json_ind_nested (P : json -> Prop)
    (Hnull : P JNull) (Hbool : forall b, P (JBool b))
    (Hint : forall n, P (JInt n)) (Hstr : forall s, P (JStr s))
    (Harr : forall js, Forall P js -> P (JArr js))
    (Hobj : forall kvs, Forall (fun kv => P (snd kv)) kvs -> P (JObj kvs))
    (j : json) : P j :=
  match j with
  | JNull => Hnull
  | JBool b => Hbool b
  | JInt n => Hint n
  | JStr s => Hstr s
  | JArr js =>
      Harr js
        ((fix all (js : list json) : Forall P js :=
            match js with
            | [] => @List.Forall_nil _ P
            | j :: js' =>
                @List.Forall_cons _ P j js'
                  (json_ind_nested P Hnull Hbool Hint Hstr Harr Hobj j)
                  (all js')
            end) js)
  | JObj kvs =>
      Hobj kvs
        ((fix all (kvs : list (string * json))
            : Forall (fun kv => P (snd kv)) kvs :=
            match kvs with
            | [] => @List.Forall_nil _ _
            | kv :: kvs' =>
                @List.Forall_cons _ _ kv kvs'
                  (json_ind_nested P Hnull Hbool Hint Hstr Harr Hobj (snd kv))
                  (all kvs')
            end) kvs)
  end.

(** ** What a parse does to the heap *)

(** [only l h h']: going from [h] to [h'] no object but the one at [l]
    has changed. *)
Definition only (l : loc) (h h' : heap) : Prop :=
  List.length h' = List.length h /\
  forall l', l' <> l -> h' !! l' = h !! l'.

(** How a shape comes from an entry of the figure list: the entry is a
    dictionary of the heap [h], its ["type"] names the class, and the
    constructor gets the other fields with the resolved colour; in the
    heap [h'] the same dictionary holds just these. *)
Definition parsed_from (h h' : heap) (entry : val) (s : shape) : Prop :=
  exists l d t c,
    entry = VRef l /\ h !! l = Some (ODict d) /\
    dget "type" d = Some t /\ FileParser.figure_constructor t = Ok c /\
    construct c (dset "color" (shape_color s) (ddel "type" d)) = Ok s /\
    h' !! l = Some (ODict (dset "color" (shape_color s) (ddel "type" d))).

(** What a parse that returns has done, in terms of the heap [h] that
    [json.load] left and the heap [h'] the parser leaves. *)
Definition parsed (h : heap) (raw : val) (fp : FileParser.self) (h' : heap)
  : Prop :=
  exists r top lp ls sd bg_token fg_token bg fg raw_figures entries,
    raw = VRef r /\ h !! r = Some (ODict top) /\
    FileParser.color_palette fp = VRef lp /\
    VRef lp = default (VRef (List.length h)) (dget "Palette" top) /\
    dget "Screen" top = Some (VRef ls) /\
    FileParser.screen_parameters fp = VRef ls /\
    h !! ls = Some (ODict sd) /\
    dget "bg_color" sd = Some bg_token /\
    dget "fg_color" sd = Some fg_token /\
    FileParser.resolve (VRef lp) bg_token h' = Ok (bg, h') /\
    FileParser.resolve (VRef lp) fg_token h' = Ok (fg, h') /\
    h' !! ls = Some (ODict (dset "fg_color" fg (dset "bg_color" bg sd))) /\
    dget "Figures" top = Some raw_figures /\
    iter raw_figures h = Ok (entries, h) /\
    Forall2 (parsed_from h h') entries (FileParser.figures fp).

(** The dictionaries of the input before ([h]) and after ([h']) the
    parse: the ["Screen"] dictionary is the parser's own
    [screen_parameters] and holds the resolved colours, and the
    dictionary of every figure has lost its ["type"] and holds the
    shape's colour, which is what the resolver gives for the ["color"]
    the figure had, or for the resolved ["fg_color"] when it had none. *)
Definition rewritten (h : heap) (raw : val) (fp : FileParser.self) (h' : heap)
  : Prop :=
  exists ls sd bg_token fg_token bg fg raw_figures entries,
    getitem raw "Screen" h = Ok (VRef ls, h) /\
    FileParser.screen_parameters fp = VRef ls /\
    h !! ls = Some (ODict sd) /\
    dget "bg_color" sd = Some bg_token /\
    dget "fg_color" sd = Some fg_token /\
    FileParser.resolve (FileParser.color_palette fp) bg_token h' = Ok (bg, h') /\
    FileParser.resolve (FileParser.color_palette fp) fg_token h' = Ok (fg, h') /\
    h' !! ls = Some (ODict (dset "fg_color" fg (dset "bg_color" bg sd))) /\
    getitem raw "Figures" h = Ok (raw_figures, h) /\
    iter raw_figures h = Ok (entries, h) /\
    Forall2
      (fun entry shape =>
         exists l d d',
           entry = VRef l /\ h !! l = Some (ODict d) /\
           h' !! l = Some (ODict d') /\
           FileParser.resolve (FileParser.color_palette fp)
             (default fg (dget "color" d)) h'
           = Ok (shape_color shape, h') /\
           d' = dset "color" (shape_color shape) (ddel "type" d) /\
           is_Some (dget "type" d) /\ dget "type" d' = None /\
           dget "color" d' = Some (shape_color shape))
      entries (FileParser.figures fp).

(** ** The drawing surface *)

(** The calls on the drawing surface among the requests of a run. *)
Definition surface_calls (trace : list event) : list draw_call :=
  omap (fun ev => match ev with Surface call => Some call | _ => None end) trace.

Section Surface.

(** The drawing surface belongs to the imaging library. All that is
    asked of it here: a call gives a pixel a colour that depends on the
    call only, or leaves the pixel as it is. *)
Variable colour : Type.
Variable paint : draw_call -> Z * Z -> option colour.

Definition apply_call (image : Z * Z -> colour) (call : draw_call)
  : Z * Z -> colour :=
  fun p => default (image p) (paint call p).

Definition render (background : Z * Z -> colour) (calls : list draw_call)
  : Z * Z -> colour :=
  fold_left apply_call calls background.

End Surface.

(** A coarse surface: a call paints the box it is given. *)
Definition box_paint (call : draw_call) (p : Z * Z) : option val :=
  match call with
  | point (VInt x, VInt y) fill =>
      if ((fst p =? x) && (snd p =? y))%Z then Some fill else None
  | ellipse (VInt x0, VInt y0, VInt x1, VInt y1) fill
  | rectangle (VInt x0, VInt y0, VInt x1, VInt y1) fill =>
      if ((x0 <=? fst p) && (fst p <=? x1) &&
          (y0 <=? snd p) && (snd p <=? y1))%Z
      then Some fill else None
  | _ => None
  end.

(** ** Scenes *)

(** The scene of the specification's round-trip example. *)
Definition minimal_scene : json :=
  JObj [("Screen", JObj [("width", JInt 10); ("height", JInt 10);
                         ("bg_color", JStr "#000000");
                         ("fg_color", JStr "#FFFFFF")]);
        ("Figures", JArr [JObj [("type", JStr "point"); ("x", JInt 5);
                                ("y", JInt 5)]])].



(** A palette whose only name looks like a tuple with two numbers, used
    as the background, and as the colour of a figure. *)
Definition tuple_name_background : json :=
  JObj [("Palette", JObj [("(1,2)", JStr "#FF0000")]);
        ("Screen", JObj [("width", JInt 10); ("height", JInt 10);
                         ("bg_color", JStr "(1,2)");
                         ("fg_color", JStr "#FFFFFF")]);
        ("Figures", JArr [])].

Definition tuple_name_figure : json :=
  JObj [("Palette", JObj [("(1,2)", JStr "#FF0000")]);
        ("Screen", JObj [("width", JInt 10); ("height", JInt 10);
                         ("bg_color", JStr "#000000");
                         ("fg_color", JStr "#FFFFFF")]);
        ("Figures", JArr [JObj [("type", JStr "point"); ("x", JInt 5);
                                ("y", JInt 5); ("color", JStr "(1,2)")]])].

(** A foreground given as a tuple, and one given by a palette name whose
    colour is itself a name of the palette. *)
Definition tuple_foreground : json :=
  JObj [("Screen", JObj [("width", JInt 10); ("height", JInt 10);
                         ("bg_color", JStr "#000000");
                         ("fg_color", JStr "(255, 0, 12)")]);
        ("Figures", JArr [JObj [("type", JStr "point"); ("x", JInt 5);
                                ("y", JInt 5)]])].

Definition chained_foreground : json :=
  JObj [("Palette", JObj [("green", JStr "#00FF00");
                          ("#00FF00", JStr "#0000FF")]);
        ("Screen", JObj [("width", JInt 10); ("height", JInt 10);
                         ("bg_color", JStr "#000000");
                         ("fg_color", JStr "green")]);
        ("Figures", JArr [JObj [("type", JStr "point"); ("x", JInt 5);
                                ("y", JInt 5)]])].

(** A name of the palette as the background and as the colour of a
    figure, and a figure without a colour. *)
Definition named_colours : json :=
  JObj [("Palette", JObj [("sky", JStr "(0, 128, 255)")]);
        ("Screen", JObj [("width", JInt 10); ("height", JInt 10);
                         ("bg_color", JStr "sky");
                         ("fg_color", JStr "#FFFFFF")]);
        ("Figures", JArr [JObj [("type", JStr "point"); ("x", JInt 5);
                                ("y", JInt 5); ("color", JStr "sky")];
                          JObj [("type", JStr "point"); ("x", JInt 1);
                                ("y", JInt 2)]])].

(** Two circles that overlap, the red one first. *)
Definition two_circles : json :=
  JObj [("Screen", JObj [("width", JInt 10); ("height", JInt 10);
                         ("bg_color", JStr "#000000");
                         ("fg_color", JStr "#FFFFFF")]);
        ("Figures", JArr [JObj [("type", JStr "circle"); ("x", JInt 5);
                                ("y", JInt 5); ("radius", JInt 3);
                                ("color", JStr "#FF0000")];
                          JObj [("type", JStr "circle"); ("x", JInt 6);
                                ("y", JInt 6); ("radius", JInt 3);
                                ("color", JStr "#0000FF")]])].

(** ** Attributes and requests *)

(** The attributes a [draw] method computes with, in the order in which
    it first uses them: [x - radius] comes before [y - radius], and
    [width // 2], [x - _] before [height // 2], [y - _]. *)
Definition arithmetic_fields (s : shape) : list val :=
  match s with
  | PointObj _ _ _ => []
  | CircleObj _ x y radius => [x; radius; y]
  | RectangleObj _ _ x y height width => [width; x; height; y]
  | PolygonObj _ _ => []
  end.

(** A value that [-] and [//] are not defined on: [None], a string, a
    tuple, a list or a dictionary. *)
Definition no_number (v : val) : bool :=
  match v with
  | VNone | VStr _ | VRgb _ _ _ | VRef _ => true
  | VBool _ | VInt _ => false
  end.

(** The class of a shape, and its attributes by name. *)
Definition class_of (s : shape) : constructor :=
  match s with
  | PointObj _ _ _ => CPoint
  | CircleObj _ _ _ _ => CCircle
  | RectangleObj IsRectangle _ _ _ _ _ => CRectangle
  | RectangleObj IsSquare _ _ _ _ _ => CSquare
  | PolygonObj _ _ => CPolygon
  end.

Definition attributes (s : shape) : dict :=
  match s with
  | PointObj color x y => [("color", color); ("x_coord", x); ("y_coord", y)]
  | CircleObj color x y radius =>
      [("color", color); ("x_coord", x); ("y_coord", y); ("radius", radius)]
  | RectangleObj _ color x y height width =>
      [("color", color); ("x_coord", x); ("y_coord", y);
       ("height", height); ("width", width)]
  | PolygonObj color points => [("color", color); ("points", points)]
  end.

(** What the [__init__] of a class assigns: each attribute with the
    parameter whose value it gets. *)
Definition assignments (c : constructor) : list (string * string) :=
  match c with
  | CPoint => [("color", "color"); ("x_coord", "x"); ("y_coord", "y")]
  | CCircle =>
      [("color", "color"); ("x_coord", "x"); ("y_coord", "y");
       ("radius", "radius")]
  | CSquare =>
      [("color", "color"); ("x_coord", "x"); ("y_coord", "y");
       ("height", "size"); ("width", "size")]
  | CRectangle =>
      [("color", "color"); ("x_coord", "x"); ("y_coord", "y");
       ("height", "height"); ("width", "width")]
  | CPolygon => [("color", "color"); ("points", "points")]
  end.

(** The request [im.save] makes for the value of [--output]. *)
Definition save_requests (output : option string) : list event :=
  match output with
  | None | Some EmptyString => []
  | Some file_name => [Image_save file_name]
  end.

(** What the program asks of the imaging library when nothing fails. *)
Definition script (width height bg_color : val) (calls : list draw_call)
    (output : option string) : list event :=
  Image_new (width, height) bg_color :: ImageDraw_Draw ::
  map Surface calls ++ Image_show :: save_requests output.

(** A resolved colour: a string that starts with [#], a triple of
    numbers that are not negative, or [None]. *)
Definition is_colour (c : val) : bool :=
  match c with
  | VStr s => String.prefix "#" s
  | VRgb r g b => (0 <=? r)%Z && (0 <=? g)%Z && (0 <=? b)%Z
  | VNone => true
  | _ => false
  end.

(** ** More scenes *)

(** A circle whose radius is a text, after one that can be drawn. *)
Definition text_radius : json :=
  JObj [("Screen", JObj [("width", JInt 10); ("height", JInt 10);
                         ("bg_color", JStr "#000000");
                         ("fg_color", JStr "#FFFFFF")]);
        ("Figures", JArr [JObj [("type", JStr "circle"); ("x", JInt 5);
                                ("y", JInt 5); ("radius", JInt 3)];
                          JObj [("type", JStr "circle"); ("x", JInt 5);
                                ("y", JInt 5); ("radius", JStr "big")]])].

(** A screen with a title. *)
Definition titled_screen : json :=
  JObj [("Screen", JObj [("width", JInt 10); ("height", JInt 10);
                         ("title", JStr "scene");
                         ("bg_color", JStr "#000000");
                         ("fg_color", JStr "#FFFFFF")]);
        ("Figures", JArr [])].

(** ** The palette after the loop *)

(** The items of a palette with every value put through
    [_parse_color], in order, up to the first value it raises on. *)
Fixpoint parse_values (its : dict) : result dict :=
  match its with
  | [] => Ok []
  | (name, value) :: its' =>
      color <~ FileParser._parse_color value ;;
      cs <~ parse_values its' ;;
      Ok ((name, color) :: cs)
  end.

(** ** The parse after the palette *)

(** The body of [__init__] from [self.screen_parameters = ...] on. *)
Definition after_palette (raw_dict color_palette : val) : M FileParser.self :=
  screen_parameters <- getitem raw_dict "Screen" ;;
  bg_color <- getitem screen_parameters "bg_color" ;;
  bg <- FileParser.resolve color_palette bg_color ;;
  setitem screen_parameters "bg_color" bg ;;;
  fg_color <- getitem screen_parameters "fg_color" ;;
  fg <- FileParser.resolve color_palette fg_color ;;
  setitem screen_parameters "fg_color" fg ;;;
  raw_figures <- getitem raw_dict "Figures" ;;
  figure_dicts <- iter raw_figures ;;
  figures <- mapM (FileParser._parse_figure color_palette screen_parameters)
               figure_dicts ;;
  ret {| FileParser.color_palette := color_palette;
         FileParser.screen_parameters := screen_parameters;
         FileParser.figures := figures |}.

(** ** The parse before the figures *)

(** The body of [__init__] up to the list of figures: what it returns is
    the palette, the screen parameters and the entries of ["Figures"]
    the comprehension goes through. *)
Definition before_figures (raw_dict : val) : M (val * val * list val) :=
  get <- getattr_get raw_dict ;;
  empty <- alloc (ODict []) ;;
  color_palette <- get (VStr "Palette") empty ;;
  palette_items <- items color_palette ;;
  forM_ palette_items (fun '(name, value) =>
    color <- lift (FileParser._parse_color value) ;;
    setitem color_palette name color) ;;;
  screen_parameters <- getitem raw_dict "Screen" ;;
  bg_color <- getitem screen_parameters "bg_color" ;;
  bg <- FileParser.resolve color_palette bg_color ;;
  setitem screen_parameters "bg_color" bg ;;;
  fg_color <- getitem screen_parameters "fg_color" ;;
  fg <- FileParser.resolve color_palette fg_color ;;
  setitem screen_parameters "fg_color" fg ;;;
  raw_figures <- getitem raw_dict "Figures" ;;
  figure_dicts <- iter raw_figures ;;
  ret (color_palette, screen_parameters, figure_dicts).

(** A palette with a tuple of two numbers, and a scene without a screen. *)
Definition short_tuple_palette : json :=
  JObj [("Palette", JObj [("red", JStr "#FF0000"); ("blue", JStr "(0, 0)");
                          ("green", JInt 3)]);
        ("Screen", JObj [("width", JInt 10); ("height", JInt 10);
                         ("bg_color", JStr "#000000");
                         ("fg_color", JStr "#FFFFFF")]);
        ("Figures", JArr [])].

Definition no_screen : json :=
  JObj [("Palette", JObj [("red", JStr "#FF0000")]);
        ("Figures", JArr [])].

(** * Properties *)

(** ** Digit runs and the colour resolver *)

#[local] Arguments String.append !_ _ / : simpl nomatch.

Lemma append_nil_r (s : string) : s +:+ EmptyString = s.
Proof. induction s as [|c s IH]; simpl; [reflexivity | now rewrite IH]. Qed.

Lemma append_assoc (a b c : string) : (a +:+ b) +:+ c = a +:+ (b +:+ c).
Proof. induction a as [|x a IH]; simpl; [reflexivity | now rewrite IH]. Qed.

Lemma findall_from_digits (r run s : string) :
  all_digits r = true ->
  findall_from run (r +:+ s) = findall_from (run +:+ r) s.
Proof.
  revert run. induction r as [|c r IH]; intros run Hr; simpl.
  - now rewrite append_nil_r.
  - simpl in Hr. apply andb_prop in Hr as [Hc Hr]. rewrite Hc.
    rewrite IH by assumption. now rewrite append_assoc.
Qed.

Lemma findall_from_skip (sep s : string) :
  no_digit sep = true ->
  findall_from EmptyString (sep +:+ s) = findall_from EmptyString s.
Proof.
  induction sep as [|c sep IH]; intros Hs; simpl; [reflexivity |].
  simpl in Hs. apply andb_prop in Hs as [Hc Hs].
  apply negb_true_iff in Hc. rewrite Hc. now apply IH.
Qed.

Lemma findall_from_no_digit (sep : string) :
  no_digit sep = true -> findall_from EmptyString sep = [].
Proof.
  intros Hs. rewrite <- (append_nil_r sep).
  now rewrite findall_from_skip.
Qed.

Lemma findall_from_close (run sep s : string) :
  run <> EmptyString -> sep <> EmptyString -> no_digit sep = true ->
  findall_from run (sep +:+ s) = run :: findall_from EmptyString s.
Proof.
  intros Hrun Hsep Hs. destruct sep as [|c sep]; [congruence |].
  simpl in *. apply andb_prop in Hs as [Hc Hs].
  apply negb_true_iff in Hc. rewrite Hc.
  destruct run; [congruence |]. f_equal. now apply findall_from_skip.
Qed.

Lemma findall_join (runs : list (string * string)) :
  well_split runs -> findall_from EmptyString (join runs) = map fst runs.
Proof.
  induction runs as [|[r sep] rest IH]; simpl; [reflexivity |].
  intros (Hne & Hr & Hsep & Hlast & Hrest).
  rewrite findall_from_digits by assumption. simpl. f_equal.
  destruct Hlast as [-> | Hs].
  - simpl. rewrite append_nil_r. clear IH Hrest.
    destruct sep as [|c sep]; simpl.
    + now destruct r.
    + simpl in Hsep. apply andb_prop in Hsep as [Hc Hsep].
      apply negb_true_iff in Hc. rewrite Hc.
      destruct r; [congruence |].
      f_equal. now apply findall_from_no_digit.
  - rewrite findall_from_close by assumption. f_equal. now apply IH.
Qed.

Lemma findall_split (sep0 : string) (runs : list (string * string)) :
  no_digit sep0 = true -> well_split runs ->
  findall_digits (sep0 +:+ join runs) = map fst runs.
Proof.
  intros H0 Hruns. unfold findall_digits.
  rewrite findall_from_skip by assumption. now apply findall_join.
Qed.

Lemma all_digits_cons (c : ascii) (r : string) :
  all_digits (String c r) = is_digit c && all_digits r.
Proof. reflexivity. Qed.

Lemma no_digit_cons (c : ascii) (r : string) :
  no_digit (String c r) = negb (is_digit c) && no_digit r.
Proof. reflexivity. Qed.

(** Every string is cut that way. *)
Lemma split_exists (s : string) :
  exists sep0 runs,
    no_digit sep0 = true /\ well_split runs /\ s = sep0 +:+ join runs.
Proof.
  induction s as [|c s (sep0 & runs & H0 & Hruns & ->)].
  - exists EmptyString, []. repeat split.
  - destruct (is_digit c) eqn:Hc.
    + destruct sep0 as [|c0 sep0].
      * destruct runs as [|[r sep] rest].
        -- exists EmptyString, [(String c EmptyString, EmptyString)].
           cbn [well_split]. rewrite all_digits_cons, Hc.
           repeat split; auto; congruence.
        -- exists EmptyString, ((String c r, sep) :: rest).
           cbn [well_split] in *. rewrite all_digits_cons, Hc.
           destruct Hruns as (? & ? & ? & ? & ?).
           repeat split; auto; congruence.
      * exists EmptyString, ((String c EmptyString, String c0 sep0) :: runs).
        cbn [well_split]. rewrite all_digits_cons, Hc.
        repeat split; auto; congruence.
    + exists (String c sep0), runs. rewrite no_digit_cons, Hc.
      repeat split; auto.
Qed.

Lemma int_from_app (acc : Z) (a b : string) :
  int_from acc (a +:+ b) = int_from (int_from acc a) b.
Proof. revert acc. induction a as [|c a IH]; intros acc; simpl; auto. Qed.

(** A decimal numeral: one more digit on the right is ten times the
    value plus the digit. *)
Lemma int_snoc (s : string) (c : ascii) :
  decimal (s +:+ String c EmptyString) = (10 * decimal s + digit_value c)%Z.
Proof. unfold decimal. now rewrite int_from_app. Qed.

(** [int] returns the value of a numeral of at most
    [int_max_str_digits] digits and raises [ValueError] on a longer one. *)
Lemma int_Ok (s : string) :
  (String.length s <= int_max_str_digits)%nat -> int s = Ok (decimal s).
Proof.
  intros H. unfold int. apply Nat.leb_le in H. now rewrite H.
Qed.

Lemma int_Raise (s : string) :
  (int_max_str_digits < String.length s)%nat -> int s = Raise ValueError.
Proof.
  intros H. unfold int. apply Nat.leb_gt in H. now rewrite H.
Qed.

Lemma int_cases (s : string) :
  (String.length s <= int_max_str_digits)%nat /\ int s = Ok (decimal s) \/
  (int_max_str_digits < String.length s)%nat /\ int s = Raise ValueError.
Proof.
  destruct (le_lt_dec (String.length s) int_max_str_digits) as [H | H].
  - left. split; [exact H | now apply int_Ok].
  - right. split; [exact H | now apply int_Raise].
Qed.

Lemma paren_not_hash (s : string) :
  String.prefix "(" s = true -> String.prefix "#" s = false.
Proof.
  destruct s as [|c s]; [discriminate |].
  destruct c as [[] [] [] [] [] [] [] []]; intros H;
    solve [reflexivity | discriminate H].
Qed.

Lemma parse_color_paren (s : string) :
  String.prefix "(" s = true ->
  FileParser._parse_color (VStr s) =
    match findall_digits s with
    | [r; g; b] =>
        r <~ int r ;; g <~ int g ;; b <~ int b ;; Ok (VRgb r g b)
    | _ => Raise ValueError
    end.
Proof.
  intros Hp. unfold FileParser._parse_color. simpl.
  now rewrite (paren_not_hash s Hp), Hp.
Qed.

(** C2 as stated fails on a token with more than three digit runs: the
    unpacking wants exactly three and raises, it does not keep the first
    three. *)
Lemma parse_color_four_groups :
  findall_digits "(1,2,3,4)" = ["1"; "2"; "3"; "4"] /\
  String.prefix "(" "(1,2,3,4)" = true /\
  FileParser._parse_color (VStr "(1,2,3,4)") = Raise ValueError /\
  FileParser._parse_color (VStr "(1,2,3,4)") <> Ok (VRgb 1 2 3).
Proof. repeat split; try reflexivity. discriminate. Qed.

(** The three conversions of a triple of runs: all of them go through
    when no run is too long, and [ValueError] is raised otherwise. *)
Lemma int_triple (r g b : string) :
  Forall (fun run => (String.length run <= int_max_str_digits)%nat) [r; g; b] /\
  (r' <~ int r ;; g' <~ int g ;; b' <~ int b ;; Ok (VRgb r' g' b'))
  = Ok (VRgb (decimal r) (decimal g) (decimal b)) \/
  Exists (fun run => (int_max_str_digits < String.length run)%nat) [r; g; b] /\
  (r' <~ int r ;; g' <~ int g ;; b' <~ int b ;; Ok (VRgb r' g' b'))
  = Raise ValueError.
Proof.
  destruct (int_cases r) as [[Hr ->] | [Hr ->]]; cbn [rbind];
    [| right; split; [now apply Exists_cons_hd | reflexivity]].
  destruct (int_cases g) as [[Hg ->] | [Hg ->]]; cbn [rbind];
    [| right; split; [now apply Exists_cons_tl, Exists_cons_hd | reflexivity]].
  destruct (int_cases b) as [[Hb ->] | [Hb ->]]; cbn [rbind];
    [| right; split;
       [now apply Exists_cons_tl, Exists_cons_tl, Exists_cons_hd
       | reflexivity]].
  left. split; [| reflexivity].
  repeat (apply Forall_cons; split; [assumption |]). apply Forall_nil_2.
Qed.

Lemma short_not_long (rs : list string) :
  Forall (fun run => (String.length run <= int_max_str_digits)%nat) rs ->
  Exists (fun run => (int_max_str_digits < String.length run)%nat) rs ->
  False.
Proof.
  intros Hall Hex. apply Exists_exists in Hex as (run & Hin & Hlong).
  rewrite Forall_forall in Hall. apply Hall in Hin. lia.
Qed.

(** C2 (amended). For a token that starts with [(], the resolver takes the
    maximal runs of decimal digits of the token, in order; with exactly
    three runs, none of more than 4300 digits, it returns their values as
    the triple [(r, g, b)], and it raises [ValueError] exactly when the
    number of runs is not three (fewer or more: the unpacking error) or a
    run has more than 4300 digits (the limit of [int]). *)
Theorem parse_color_tuple (sep0 : string) (runs : list (string * string)) :
  no_digit sep0 = true ->
  well_split runs ->
  String.prefix "(" (sep0 +:+ join runs) = true ->
  findall_digits (sep0 +:+ join runs) = map fst runs /\
  (forall r g b, map fst runs = [r; g; b] ->
     Forall (fun run => (String.length run <= int_max_str_digits)%nat)
       [r; g; b] ->
     FileParser._parse_color (VStr (sep0 +:+ join runs))
     = Ok (VRgb (decimal r) (decimal g) (decimal b))) /\
  (List.length runs <> 3%nat \/
   Exists (fun run => (int_max_str_digits < String.length run)%nat)
     (map fst runs) <->
   FileParser._parse_color (VStr (sep0 +:+ join runs)) = Raise ValueError).
Proof.
  intros H0 Hruns Hp.
  pose proof (findall_split sep0 runs H0 Hruns) as Hf.
  rewrite (parse_color_paren _ Hp), Hf.
  split; [reflexivity |]. split.
  - intros r g b -> Hshort.
    destruct (int_triple r g b) as [[_ E] | [Hlong _]]; [exact E |].
    destruct (short_not_long _ Hshort Hlong).
  - destruct runs as [|[r1 ?] [|[r2 ?] [|[r3 ?] [|? ?]]]]; cbn [map fst];
      try (split; [reflexivity | intros _; left; simpl; lia]).
    destruct (int_triple r1 r2 r3) as [[Hshort ->] | [Hlong ->]].
    + split; [| discriminate].
      intros [Hn | Hlong]; [now destruct Hn |].
      destruct (short_not_long _ Hshort Hlong).
    + split; [reflexivity | intros _; now right].
Qed.

Lemma parse_color_tuple_witness :
  FileParser._parse_color (VStr "(255, 0, 12)") = Ok (VRgb 255 0 12).
Proof.
  refine (proj1 (proj2 (parse_color_tuple "("
            [("255", ", "); ("0", ", "); ("12", ")")] _ _ _))
            "255" "0" "12" _ _).
  - reflexivity.
  - simpl. repeat split; auto; congruence.
  - reflexivity.
  - reflexivity.
  - repeat (apply Forall_cons; split; [apply Nat.leb_le; reflexivity |]).
    apply Forall_nil_2.
Defined.

(** ** The [draw] methods *)

(** C7. [Square(x, y, size, color)] and [Rectangle(x, y, size, size,
    color)] make the same call on the drawing surface, whatever the
    arguments are, so the driver goes on identically after either. *)
Theorem square_draws_as_rectangle (x y size color : val) (h : heap) :
  draw (Square.__init__ x y size color) h
  = draw (Rectangle.__init__ IsRectangle x y size size color) h /\
  forall raises figures rest,
    draw_figures raises (Square.__init__ x y size color :: figures) h rest
    = draw_figures raises
        (Rectangle.__init__ IsRectangle x y size size color :: figures) h rest.
Proof. split; reflexivity. Qed.

Lemma square_draw_int (x y size : Z) (color : val) (h : heap) :
  draw (Square.__init__ (VInt x) (VInt y) (VInt size) color) h
  = Ok (rectangle (VInt (x - size / 2), VInt (y - size / 2),
                   VInt (x + size / 2), VInt (y + size / 2)) color, h).
Proof. reflexivity. Qed.

(** C8 as stated fails: for an odd width and height the two edges are at
    the same distance from the centre, and for a negative odd one the
    division is not the truncating one. *)
Lemma rectangle_draw_odd :
  draw (Rectangle.__init__ IsRectangle (VInt 10) (VInt 10) (VInt 3) (VInt 5)
          VNone) []
  = Ok (rectangle (VInt 8, VInt 9, VInt 12, VInt 11) VNone, []) /\
  (10 - 8 = 12 - 10)%Z /\ (10 - 9 = 11 - 10)%Z /\
  draw (Rectangle.__init__ IsRectangle (VInt 0) (VInt 0) (VInt (-3)) (VInt (-3))
          VNone) []
  = Ok (rectangle (VInt 2, VInt 2, VInt (-2), VInt (-2)) VNone, []) /\
  (0 - Z.quot (-3) 2 = 1)%Z.
Proof. repeat split. Qed.

Lemma floor_half_quot (n : Z) :
  (n / 2 = if (n <? 0) && Z.odd n then Z.quot n 2 - 1 else Z.quot n 2)%Z.
Proof.
  destruct (Z.ltb_spec n 0) as [Hn | Hn]; simpl.
  - destruct (Z.odd n) eqn:Ho.
    + apply Z.odd_spec in Ho as [m ->].
      Z.to_euclidean_division_equations; lia.
    + assert (He : Z.even n = true) by (rewrite <- Z.negb_odd, Ho; reflexivity).
      apply Z.even_spec in He as [m ->].
      Z.to_euclidean_division_equations; lia.
  - Z.to_euclidean_division_equations; lia.
Qed.

(** C8 (amended). [Rectangle(x, y, height, width, color).draw] asks for the
    filled rectangle with corners [(x - width//2, y - height//2)] and
    [(x + width//2, y + height//2)], where [//] is floor division (the
    truncating quotient, less one for a negative odd operand); the two
    edges are always at the same distance from the centre, and the
    extent between them is the width (height) less its remainder by 2. *)
Theorem rectangle_draw (x y height width : Z) (color : val) (h : heap) :
  draw (Rectangle.__init__ IsRectangle (VInt x) (VInt y) (VInt height)
          (VInt width) color) h
  = Ok (rectangle (VInt (x - width / 2), VInt (y - height / 2),
                   VInt (x + width / 2), VInt (y + height / 2)) color, h) /\
  (width / 2
   = if (width <? 0) && Z.odd width then Z.quot width 2 - 1
     else Z.quot width 2)%Z /\
  (height / 2
   = if (height <? 0) && Z.odd height then Z.quot height 2 - 1
     else Z.quot height 2)%Z /\
  (x - (x - width / 2) = (x + width / 2) - x)%Z /\
  (y - (y - height / 2) = (y + height / 2) - y)%Z /\
  ((x + width / 2) - (x - width / 2) = width - width mod 2)%Z /\
  ((y + height / 2) - (y - height / 2) = height - height mod 2)%Z.
Proof.
  split; [reflexivity |].
  split; [apply floor_half_quot |].
  split; [apply floor_half_quot |].
  repeat split; Z.to_euclidean_division_equations; lia.
Qed.

(** ** Resolution through the palette *)

Lemma parse_color_not_str (v : val) :
  (forall s, v <> VStr s) -> FileParser._parse_color v = Raise AttributeError.
Proof. intros Hv. destruct v; try reflexivity. now destruct (Hv s). Qed.

(** What [color_palette.get(token, _parse_color(token))] comes to: the
    literal parse is made first, and its exception wins. *)
Lemma resolve_str (lp : loc) (pd : dict) (s : string) (h : heap) :
  h !! lp = Some (ODict pd) ->
  FileParser.resolve (VRef lp) (VStr s) h =
    match FileParser._parse_color (VStr s) with
    | Ok literal => Ok (default literal (dget s pd), h)
    | Raise e => Raise e
    end.
Proof.
  intros Hp. unfold FileParser.resolve, bind, getattr_get, lift, deref.
  rewrite Hp. destruct (FileParser._parse_color (VStr s)); [| reflexivity].
  simpl. rewrite Hp. now destruct (dget s pd).
Qed.

Lemma resolve_not_str (palette v : val) (h : heap) :
  (forall s, v <> VStr s) ->
  FileParser.resolve palette v h = Raise AttributeError.
Proof.
  intros Hv. unfold FileParser.resolve, bind, getattr_get, lift.
  rewrite (parse_color_not_str v Hv).
  destruct palette; try reflexivity.
  destruct (deref (VRef l) h) as [[]|]; reflexivity.
Qed.

Lemma resolve_heap (palette token v : val) (h h' : heap) :
  FileParser.resolve palette token h = Ok (v, h') -> h' = h.
Proof.
  unfold FileParser.resolve, bind, getattr_get, lift. intros H.
  destruct palette; try discriminate.
  destruct (deref (VRef l) h) as [[]|]; try discriminate.
  destruct (FileParser._parse_color token); try discriminate.
  destruct (hashed token) as [[]|]; try discriminate;
    destruct (h !! l) as [[]|]; congruence.
Qed.

(** ** One figure *)

(** [_parse_figure] on a dictionary [d] that has a ["type"]: the steps
    in the order they are made, and the only object they change. *)
Lemma parse_figure_eq (palette screen : val) (l : loc) (d : dict) (t : val)
    (h : heap) :
  h !! l = Some (ODict d) ->
  dget "type" d = Some t ->
  let d1 := ddel "type" d in
  let h1 := <[l := ODict d1]> h in
  FileParser._parse_figure palette screen (VRef l) h =
    match getitem screen "fg_color" h1 with
    | Raise e => Raise e
    | Ok (fg_color, _) =>
        match FileParser.resolve palette (default fg_color (dget "color" d1)) h1
        with
        | Raise e => Raise e
        | Ok (color, _) =>
            match FileParser.figure_constructor t with
            | Raise e => Raise e
            | Ok c =>
                match construct c (dset "color" color d1) with
                | Raise e => Raise e
                | Ok s => Ok (s, <[l := ODict (dset "color" color d1)]> h)
                end
            end
        end
    end.
Proof.
  intros Hl Ht d1 h1.
  assert (Hlt : (l < List.length h)%nat) by (eapply lookup_lt_Some; eauto).
  assert (H1 : h1 !! l = Some (ODict d1))
    by (apply list_lookup_insert_eq; assumption).
  unfold FileParser._parse_figure, bind at 1, pop, deref.
  rewrite Hl, Ht. fold d1 h1.
  unfold bind at 1, getattr_get, deref. rewrite H1.
  unfold bind at 1.
  destruct (getitem screen "fg_color" h1) as [[fg h1'] | e] eqn:Hfg;
    [| reflexivity].
  assert (h1' = h1) as ->.
  { unfold getitem in Hfg. destruct (deref screen h1) as [[]|]; try discriminate.
    destruct (dget "fg_color" d0); congruence. }
  unfold bind at 1. simpl hashed. cbv iota. rewrite H1.
  replace (match dget "color" d1 with Some v => v | None => fg end)
    with (default fg (dget "color" d1)) by now destruct (dget "color" d1).
  unfold bind at 1.
  destruct (FileParser.resolve palette (default fg (dget "color" d1)) h1)
    as [[color h1'] | e] eqn:Hres; [| reflexivity].
  apply resolve_heap in Hres as ->.
  unfold bind at 1, setitem, deref. rewrite H1.
  unfold h1. rewrite list_insert_insert_eq.
  unfold bind at 1, lift.
  destruct (FileParser.figure_constructor t) as [c | e]; [| reflexivity].
  unfold bind, FileParser.kwargs_of, deref.
  rewrite list_lookup_insert_eq by assumption.
  destruct (construct c (dset "color" color d1)); reflexivity.
Qed.

(** ** Dictionaries *)

Lemma dget_None (k : string) (d : dict) : dget k d = None <-> k ∉ keys d.
Proof.
  induction d as [|[k' v] d IH]; simpl.
  - split; [intros _; apply not_elem_of_nil | reflexivity].
  - rewrite not_elem_of_cons. destruct (decide (k = k')); [| tauto].
    split; [discriminate | tauto].
Qed.

Lemma dget_dset_eq (k : string) (v : val) (d : dict) :
  dget k (dset k v d) = Some v.
Proof.
  induction d as [|[k' v'] d IH]; simpl.
  - now destruct (decide (k = k)).
  - destruct (decide (k = k')); simpl.
    + now destruct (decide (k = k)).
    + now destruct (decide (k = k')).
Qed.

Lemma dget_dset_ne (k k' : string) (v : val) (d : dict) :
  k <> k' -> dget k (dset k' v d) = dget k d.
Proof.
  intros Hne. induction d as [|[k0 v0] d IH]; simpl.
  - now destruct (decide (k = k')).
  - destruct (decide (k' = k0)) as [<- |]; simpl.
    + now destruct (decide (k = k')).
    + now rewrite IH.
Qed.

Lemma dget_ddel_ne (k k' : string) (d : dict) :
  k <> k' -> dget k (ddel k' d) = dget k d.
Proof.
  intros Hne. induction d as [|[k0 v0] d IH]; simpl; [reflexivity |].
  destruct (decide (k' = k0)) as [<- |]; simpl.
  - now destruct (decide (k = k')).
  - now rewrite IH.
Qed.

Lemma keys_dset (k k' : string) (v : val) (d : dict) :
  k ∈ keys (dset k' v d) <-> k = k' \/ k ∈ keys d.
Proof.
  induction d as [|[k0 v0] d IH]; simpl.
  - rewrite list_elem_of_singleton. split; [tauto | intros [? | H]; auto].
    now apply elem_of_nil in H.
  - destruct (decide (k' = k0)) as [<- |]; simpl;
      rewrite !elem_of_cons; [tauto |]. rewrite IH. tauto.
Qed.

Lemma keys_ddel_ne (k k' : string) (d : dict) :
  k <> k' -> k ∈ keys (ddel k' d) <-> k ∈ keys d.
Proof.
  intros Hne. induction d as [|[k0 v0] d IH]; simpl; [reflexivity |].
  destruct (decide (k' = k0)) as [<- |]; simpl; rewrite !elem_of_cons.
  - tauto.
  - rewrite IH. tauto.
Qed.

(** ** Construction from keyword arguments *)

Ltac elem_cases H :=
  repeat (apply elem_of_cons in H as [-> | H]);
  try (apply elem_of_nil in H as []).

Lemma bind_kwargs_unexpected (params : list (string * option val))
    (kwargs : dict) (k : string) :
  k ∈ keys kwargs -> k ∉ map fst params ->
  bind_kwargs params kwargs = Raise TypeError.
Proof.
  intros Hk Hno. unfold bind_kwargs.
  destruct (forallb _ (keys kwargs)) eqn:Hall; [| reflexivity].
  rewrite forallb_forall in Hall.
  apply list_elem_of_In, Hall, bool_decide_eq_true in Hk. contradiction.
Qed.

Lemma construct_unexpected (c : constructor) (kwargs : dict) (k : string) :
  k ∈ keys kwargs -> k ∉ parameters c ->
  construct c kwargs = Raise TypeError.
Proof.
  intros Hk Hno. unfold construct.
  rewrite (bind_kwargs_unexpected _ kwargs k); [reflexivity | assumption |].
  unfold required. rewrite map_map. simpl. now rewrite map_id.
Qed.

Lemma construct_missing (c : constructor) (kwargs : dict) (p : string) :
  p ∈ parameters c -> dget p kwargs = None ->
  construct c kwargs = Raise TypeError.
Proof.
  intros Hp Hno. unfold construct, bind_kwargs.
  destruct (forallb _ (keys kwargs)); [| reflexivity].
  destruct c; simpl in Hp; elem_cases Hp; simpl; rewrite ?Hno;
    repeat (match goal with
            | |- context [dget ?q kwargs] => destruct (dget q kwargs); simpl
            end); reflexivity.
Qed.

Lemma construct_color (c : constructor) (kwargs : dict) (s : shape) :
  construct c kwargs = Ok s -> dget "color" kwargs = Some (shape_color s).
Proof.
  unfold construct, bind_kwargs.
  destruct (forallb _ (keys kwargs)); [| discriminate].
  destruct c; simpl;
    repeat (match goal with
            | |- context [dget ?q kwargs] => destruct (dget q kwargs); simpl
            end); intros H; inversion H; reflexivity.
Qed.

(** The constructor call goes through exactly when the keywords are the
    parameters. *)
Lemma construct_ok (c : constructor) (kwargs : dict) :
  (forall k, k ∈ keys kwargs -> k ∈ parameters c) ->
  (forall p, p ∈ parameters c -> is_Some (dget p kwargs)) ->
  exists s, construct c kwargs = Ok s.
Proof.
  intros Hk Hp. unfold construct, bind_kwargs.
  assert (Hall : forallb
            (fun k => bool_decide (k ∈ map fst (required (parameters c))))
            (keys kwargs) = true).
  { apply forallb_forall. intros k Hin. apply bool_decide_eq_true.
    unfold required. rewrite map_map. simpl. rewrite map_id.
    now apply Hk, list_elem_of_In. }
  rewrite Hall.
  destruct c; simpl in *;
    repeat (match goal with
            | |- context [dget ?q kwargs] =>
                let H := fresh in
                destruct (Hp q) as [? H];
                [repeat constructor | rewrite H; simpl]
            end); eexists; reflexivity.
Qed.

Lemma geometry_parameters (c : constructor) (p : string) :
  p ∈ parameters c <-> p = "color" \/ p ∈ geometry c.
Proof.
  unfold geometry. rewrite list_elem_of_filter.
  destruct (decide (p = "color")) as [-> |]; [| tauto].
  split; [tauto | intros _]. destruct c; simpl; repeat constructor.
Qed.

Lemma geometry_no_color (c : constructor) : "color" ∉ geometry c.
Proof. unfold geometry. rewrite list_elem_of_filter. tauto. Qed.

Lemma geometry_no_type (c : constructor) : "type" ∉ parameters c.
Proof.
  destruct c; simpl;
    repeat (apply not_elem_of_cons; split; [discriminate |]);
    apply not_elem_of_nil.
Qed.

(** C6. A figure whose fields, once ["type"] is taken out and ["color"]
    is set, are not exactly the geometry parameters of its class (one is
    missing, or there is one too many) is not constructed: the call
    raises [TypeError], no field gets a default. *)
Theorem figure_fields_must_match (palette screen : val) (l : loc) (d : dict)
    (t fg_color color : val) (c : constructor) (h : heap) :
  let h1 := <[l := ODict (ddel "type" d)]> h in
  h !! l = Some (ODict d) ->
  dget "type" d = Some t ->
  FileParser.figure_constructor t = Ok c ->
  getitem screen "fg_color" h1 = Ok (fg_color, h1) ->
  FileParser.resolve palette (default fg_color (dget "color" (ddel "type" d))) h1
  = Ok (color, h1) ->
  (exists p, p ∈ geometry c /\ dget p d = None) \/
  (exists k, k ∈ keys d /\ k ∉ "type" :: "color" :: geometry c) ->
  FileParser._parse_figure palette screen (VRef l) h = Raise TypeError.
Proof.
  intros h1 Hl Ht Hc Hfg Hres Hbad.
  rewrite (parse_figure_eq palette screen l d t h Hl Ht). fold h1.
  rewrite Hfg, Hres, Hc.
  destruct Hbad as [(p & Hp & Hno) | (k & Hk & Hno)].
  - rewrite (construct_missing c _ p); [reflexivity | |].
    + apply geometry_parameters. now right.
    + assert (p <> "color") by (intros ->; now apply (geometry_no_color c)).
      assert (p <> "type").
      { intros ->. apply (geometry_no_type c), geometry_parameters. now right. }
      now rewrite dget_dset_ne, dget_ddel_ne.
  - apply not_elem_of_cons in Hno as [Hty Hno].
    apply not_elem_of_cons in Hno as [Hco Hno].
    rewrite (construct_unexpected c _ k); [reflexivity | |].
    + apply keys_dset. right. now apply keys_ddel_ne.
    + rewrite geometry_parameters. tauto.
Qed.

(** A circle without its radius. *)
Lemma figure_fields_must_match_witness :
  FileParser._parse_figure (VRef 0) (VRef 1) (VRef 2)
    [ODict [];
     ODict [("fg_color", VStr "#FFFFFF")];
     ODict [("type", VStr "circle"); ("x", VInt 5); ("y", VInt 5)]]
  = Raise TypeError.
Proof.
  apply (figure_fields_must_match (VRef 0) (VRef 1) 2
           [("type", VStr "circle"); ("x", VInt 5); ("y", VInt 5)]
           (VStr "circle") (VStr "#FFFFFF") (VStr "#FFFFFF") CCircle).
  - reflexivity.
  - reflexivity.
  - reflexivity.
  - reflexivity.
  - reflexivity.
  - left. exists "radius". split; [| reflexivity].
    unfold geometry. simpl. repeat constructor.
Defined.

(** C4. A token that starts with neither [#] nor [(] and is no key of
    the palette resolves to [None] without an exception, and a figure
    with that token as its colour is handed to its constructor with
    [color=None], which every shape built from it then holds. *)
Theorem unknown_token_is_none (lp : loc) (pd : dict) (s : string)
    (screen : val) (l : loc) (d : dict) (t fg_color : val) (c : constructor)
    (h : heap) :
  let d' := dset "color" VNone (ddel "type" d) in
  let h1 := <[l := ODict (ddel "type" d)]> h in
  String.prefix "#" s = false ->
  String.prefix "(" s = false ->
  h !! lp = Some (ODict pd) ->
  dget s pd = None ->
  lp <> l ->
  h !! l = Some (ODict d) ->
  dget "type" d = Some t ->
  dget "color" d = Some (VStr s) ->
  FileParser.figure_constructor t = Ok c ->
  getitem screen "fg_color" h1 = Ok (fg_color, h1) ->
  FileParser.resolve (VRef lp) (VStr s) h = Ok (VNone, h) /\
  FileParser._parse_figure (VRef lp) screen (VRef l) h =
    match construct c d' with
    | Ok shape => Ok (shape, <[l := ODict d']> h)
    | Raise e => Raise e
    end /\
  forall shape, construct c d' = Ok shape -> shape_color shape = VNone.
Proof.
  intros d' h1 Hhash Hparen Hp Hmiss Hne Hl Ht Hcol Hc Hfg.
  assert (Hlit : FileParser._parse_color (VStr s) = Ok VNone).
  { unfold FileParser._parse_color. simpl. now rewrite Hhash, Hparen. }
  split; [| split].
  - rewrite (resolve_str lp pd s h Hp), Hlit, Hmiss. reflexivity.
  - rewrite (parse_figure_eq (VRef lp) screen l d t h Hl Ht). fold h1.
    rewrite Hfg. rewrite dget_ddel_ne, Hcol by discriminate. simpl default.
    assert (Hp1 : h1 !! lp = Some (ODict pd)).
    { unfold h1. rewrite list_lookup_insert_ne by congruence. exact Hp. }
    rewrite (resolve_str lp pd s h1 Hp1), Hlit, Hmiss. simpl default.
    rewrite Hc. reflexivity.
  - intros shape Hs. apply construct_color in Hs.
    unfold d' in Hs. rewrite dget_dset_eq in Hs. congruence.
Qed.

(** The palette [{"red": "#FF0000"}] and a point of colour ["red2"]. *)
Lemma unknown_token_is_none_witness :
  FileParser._parse_figure (VRef 0) (VRef 1) (VRef 2)
    [ODict [("red", VStr "#FF0000")];
     ODict [("fg_color", VStr "#FFFFFF")];
     ODict [("type", VStr "point"); ("x", VInt 5); ("y", VInt 5);
            ("color", VStr "red2")]]
  = Ok (PointObj VNone (VInt 5) (VInt 5),
        [ODict [("red", VStr "#FF0000")];
         ODict [("fg_color", VStr "#FFFFFF")];
         ODict [("x", VInt 5); ("y", VInt 5); ("color", VNone)]]).
Proof.
  refine (proj1 (proj2 (unknown_token_is_none 0 [("red", VStr "#FF0000")]
            "red2" (VRef 1) 2
            [("type", VStr "point"); ("x", VInt 5); ("y", VInt 5);
             ("color", VStr "red2")]
            (VStr "point") (VStr "#FFFFFF") CPoint _
            _ _ _ _ _ _ _ _ _ _)));
    solve [reflexivity | discriminate].
Defined.

(** ** Heaps without sharing *)

Lemma elem_refs (l : loc) (vs : list val) : l ∈ refs vs <-> VRef l ∈ vs.
Proof.
  unfold refs. rewrite list_elem_of_omap. split.
  - intros (v & Hv & Hr). destruct v; simpl in Hr; congruence.
  - intros H. exists (VRef l). auto.
Qed.

Lemma refs_cons (v : val) (vs : list val) : refs (v :: vs) = refs [v] ++ refs vs.
Proof. unfold refs. simpl. now destruct (ref_of v). Qed.


Lemma all_refs_app (h1 h2 : heap) : all_refs (h1 ++ h2) = all_refs h1 ++ all_refs h2.
Proof. unfold all_refs. now rewrite map_app, concat_app. Qed.

Lemma all_refs_lookup (h : heap) (a : loc) (o : obj) (l : loc) :
  h !! a = Some o -> l ∈ obj_refs o -> l ∈ all_refs h.
Proof.
  revert a. induction h as [|o' h IH]; intros [|a] Ha Hl; try discriminate;
    unfold all_refs; simpl; apply elem_of_app.
  - left. simpl in Ha. congruence.
  - right. eapply IH; eauto.
Qed.

Lemma all_refs_unique (h : heap) (a b : loc) (oa ob : obj) (l : loc) :
  NoDup (all_refs h) ->
  h !! a = Some oa -> h !! b = Some ob ->
  l ∈ obj_refs oa -> l ∈ obj_refs ob -> a = b.
Proof.
  revert a b. induction h as [|o h IH]; intros a b Hnd Ha Hb Hla Hlb;
    [discriminate |].
  change (all_refs (o :: h)) with (obj_refs o ++ all_refs h) in Hnd.
  apply NoDup_app in Hnd as (_ & Hdis & Hnd).
  destruct a as [|a], b as [|b]; simpl in Ha, Hb.
  - reflexivity.
  - exfalso. apply (Hdis l); [congruence |]. eapply all_refs_lookup; eauto.
  - exfalso. apply (Hdis l); [congruence |]. eapply all_refs_lookup; eauto.
  - f_equal. eapply IH; eauto.
Qed.

Lemma all_refs_obj_NoDup (h : heap) (a : loc) (o : obj) :
  NoDup (all_refs h) -> h !! a = Some o -> NoDup (obj_refs o).
Proof.
  revert a. induction h as [|o' h IH]; intros a Hnd Ha; [discriminate |].
  change (all_refs (o' :: h)) with (obj_refs o' ++ all_refs h) in Hnd.
  apply NoDup_app in Hnd as (Ho & _ & Hnd).
  destruct a as [|a]; simpl in Ha; [congruence | eauto].
Qed.

Lemma dget_elem (k : string) (d : dict) (v : val) :
  dget k d = Some v -> v ∈ map snd d.
Proof.
  induction d as [|[k' v'] d IH]; simpl; [discriminate |].
  destruct (decide (k = k')); intros H.
  - inversion H. constructor.
  - constructor. auto.
Qed.

Lemma dget_ref (k : string) (d : dict) (l : loc) :
  dget k d = Some (VRef l) -> l ∈ refs (map snd d).
Proof. intros H. now apply elem_refs, (dget_elem k). Qed.

Lemma dget_refs_ne (k k' : string) (d : dict) (l l' : loc) :
  NoDup (refs (map snd d)) ->
  dget k d = Some (VRef l) -> dget k' d = Some (VRef l') ->
  k <> k' -> l <> l'.
Proof.
  induction d as [|[k0 v0] d IH]; intros Hnd Hk Hk' Hne; [discriminate |].
  simpl in Hk, Hk'.
  change (map snd ((k0, v0) :: d)) with (v0 :: map snd d) in Hnd.
  rewrite refs_cons in Hnd.
  apply NoDup_app in Hnd as (_ & Hdis & Hnd).
  destruct (decide (k = k0)) as [-> |], (decide (k' = k0)) as [-> |];
    try congruence.
  - inversion Hk; subst v0. intros <-.
    apply (Hdis l); [constructor |]. now apply (dget_ref k').
  - inversion Hk'; subst v0. intros ->.
    apply (Hdis l'); [constructor |]. now apply (dget_ref k).
  - now apply IH.
Qed.

(** ** [json.load] returns a tree *)

Lemma all_refs_snoc (h : heap) (o : obj) :
  all_refs (h ++ [o]) = all_refs h ++ obj_refs o.
Proof.
  rewrite all_refs_app. unfold all_refs at 2. simpl. now rewrite app_nil_r.
Qed.

Lemma fresh_alloc (X F : list loc) (h ext : heap) (o : obj) :
  obj_refs o = X ->
  NoDup (X ++ F ++ all_refs ext) ->
  Forall (fun l => (l < List.length (h ++ ext))%nat) (X ++ F ++ all_refs ext) ->
  NoDup (refs [VRef (List.length (h ++ ext))] ++ F ++ all_refs (ext ++ [o])) /\
  Forall (fun l => (l < List.length (h ++ (ext ++ [o])))%nat)
    (refs [VRef (List.length (h ++ ext))] ++ F ++ all_refs (ext ++ [o])).
Proof.
  intros <- Hnd Hlt. rewrite all_refs_snoc.
  change (refs [VRef (List.length (h ++ ext))])
    with [List.length (h ++ ext)].
  rewrite Forall_forall in Hlt.
  split.
  - simpl. apply NoDup_cons. split.
    + intros Hin. specialize (Hlt (List.length (h ++ ext))).
      rewrite !elem_of_app in Hlt, Hin. apply Nat.lt_irrefl in Hlt; tauto.
    + revert Hnd. rewrite !NoDup_app. setoid_rewrite elem_of_app.
      naive_solver.
  - rewrite Forall_forall. intros l Hin.
    rewrite !length_app. simpl. rewrite !length_app in Hlt.
    simpl in Hin.
    apply elem_of_cons in Hin as [-> | Hin]; [rewrite !length_app; lia |].
    specialize (Hlt l). rewrite !elem_of_app in Hlt, Hin.
    assert ((l < List.length h + List.length ext)%nat) by tauto. lia.
Qed.

Lemma fresh_scalar (v : val) :
  refs [v] = [] -> fresh_load (fun v => refs [v]) (ret v).
Proof.
  intros Hv h F Hnd Hlt. exists v, []. unfold ret.
  rewrite app_nil_r, Hv. simpl. rewrite app_nil_r. auto.
Qed.

Lemma load_all_fresh (js : list json) :
  Forall (fun j => fresh_load (fun v => refs [v]) (json_load j)) js ->
  fresh_load refs (load_all json_load js).
Proof.
  induction 1 as [|j js Hj _ IH]; intros h F Hnd Hlt.
  - exists [], []. simpl. unfold ret. rewrite !app_nil_r. auto.
  - destruct (Hj h F Hnd Hlt) as (v & e1 & Ev & Hnd1 & Hlt1).
    destruct (IH (h ++ e1) _ Hnd1 Hlt1) as (vs & e2 & Evs & Hnd2 & Hlt2).
    exists (v :: vs), (e1 ++ e2). cbn [load_all]. unfold bind at 1. rewrite Ev.
    unfold bind at 1. rewrite Evs. unfold ret. rewrite app_assoc.
    split; [reflexivity |].
    rewrite refs_cons, all_refs_app. split.
    + revert Hnd2. rewrite !NoDup_app. repeat setoid_rewrite elem_of_app.
      naive_solver.
    + revert Hlt2. rewrite !Forall_forall.
      repeat setoid_rewrite elem_of_app. naive_solver.
Qed.

Lemma refs_dset_elem (k : string) (v : val) (d : dict) (l : loc) :
  l ∈ refs (map snd (dset k v d)) -> l ∈ refs [v] \/ l ∈ refs (map snd d).
Proof.
  rewrite !elem_refs, list_elem_of_singleton.
  induction d as [|[k0 v0] d IH]; simpl.
  - rewrite list_elem_of_singleton. tauto.
  - destruct (decide (k = k0)); simpl; rewrite !elem_of_cons; tauto.
Qed.

Lemma refs_dset_NoDup (k : string) (v : val) (d : dict) :
  NoDup (refs (map snd d)) ->
  (forall l, l ∈ refs [v] -> l ∉ refs (map snd d)) ->
  NoDup (refs (map snd (dset k v d))).
Proof.
  induction d as [|[k0 v0] d IH]; intros Hnd Hdis.
  - simpl. destruct v; simpl; repeat constructor. apply not_elem_of_nil.
  - change (map snd ((k0, v0) :: d)) with (v0 :: map snd d) in *.
    rewrite refs_cons in Hnd.
    rewrite (refs_cons v0 (map snd d)) in Hdis.
    apply NoDup_app in Hnd as (Hv0 & Hd0 & Hnd).
    simpl. destruct (decide (k = k0)).
    + change (map snd ((k, v) :: d)) with (v :: map snd d).
      rewrite refs_cons. apply NoDup_app. repeat split; auto.
      * destruct v; simpl; repeat constructor. apply not_elem_of_nil.
      * intros l Hl Hl'. apply (Hdis l Hl), elem_of_app. now right.
    + change (map snd ((k0, v0) :: dset k v d))
        with (v0 :: map snd (dset k v d)).
      rewrite refs_cons. apply NoDup_app. repeat split; auto.
      * intros l Hl Hl'. apply refs_dset_elem in Hl' as [Hl' | Hl'].
        -- apply (Hdis l Hl'), elem_of_app. now left.
        -- now apply (Hd0 l).
      * apply IH; auto. intros l Hl Hl'.
        apply (Hdis l Hl), elem_of_app. now right.
Qed.

Lemma load_pairs_fresh (kvs : list (string * json)) :
  Forall (fun kv => fresh_load (fun v => refs [v]) (json_load (snd kv))) kvs ->
  forall (d : dict) (h : heap) (F : list loc),
    NoDup (refs (map snd d) ++ F) ->
    Forall (fun l => (l < List.length h)%nat) (refs (map snd d) ++ F) ->
    exists d' ext,
      load_pairs json_load kvs d h = Ok (d', h ++ ext) /\
      NoDup (refs (map snd d') ++ F ++ all_refs ext) /\
      Forall (fun l => (l < List.length (h ++ ext))%nat)
        (refs (map snd d') ++ F ++ all_refs ext).
Proof.
  induction 1 as [|[k j] kvs Hj _ IH]; intros d h F Hnd Hlt.
  - exists d, []. simpl. unfold ret. rewrite !app_nil_r. auto.
  - cbn [snd] in Hj.
    destruct (Hj h _ Hnd Hlt) as (v & e1 & Ev & Hnd1 & Hlt1).
    destruct (IH (dset k v d) (h ++ e1) (F ++ all_refs e1))
      as (d' & e2 & Ed & Hnd2 & Hlt2).
    + revert Hnd1. rewrite !NoDup_app. repeat setoid_rewrite elem_of_app.
      intros (Hv & Hdis & (Hd & HdF & HF) & HdisE & HE).
      repeat split; auto.
      * apply refs_dset_NoDup; auto. intros l Hl Hl'. apply (Hdis l Hl). auto.
      * intros l Hl Hl'. apply refs_dset_elem in Hl as [Hl | Hl].
        -- apply (Hdis l Hl). tauto.
        -- destruct Hl' as [Hl' | Hl']; [now apply (HdF l) |].
           apply (HdisE l); auto.
    + revert Hlt1. rewrite !Forall_forall.
      repeat setoid_rewrite elem_of_app. intros Hall l [Hl | [Hl | Hl]]; auto.
      apply refs_dset_elem in Hl as [Hl | Hl]; auto.
    + exists d', (e1 ++ e2). cbn [load_pairs]. unfold bind at 1. rewrite Ev.
      rewrite Ed, app_assoc. split; [reflexivity |].
      rewrite all_refs_app. rewrite <- !app_assoc in *. auto.
Qed.

Lemma json_load_fresh (j : json) :
  fresh_load (fun v => refs [v]) (json_load j).
Proof.
  induction j as [| b | n | s | js IH | kvs IH] using json_ind_nested;
    try (apply fresh_scalar; reflexivity).
  - intros h F Hnd Hlt.
    destruct (load_all_fresh js IH h F Hnd Hlt) as (vs & ext & E & Hnd1 & Hlt1).
    exists (VRef (List.length (h ++ ext))), (ext ++ [OList vs]).
    cbn [json_load]. unfold bind, alloc. rewrite E.
    split; [now rewrite <- app_assoc |].
    eapply fresh_alloc; [reflexivity | assumption | assumption].
  - intros h F Hnd Hlt.
    destruct (load_pairs_fresh kvs IH [] h F) as (d & ext & E & Hnd1 & Hlt1);
      [exact Hnd | exact Hlt |].
    exists (VRef (List.length (h ++ ext))), (ext ++ [ODict d]).
    cbn [json_load]. unfold bind, alloc. rewrite E.
    split; [now rewrite <- app_assoc |].
    eapply fresh_alloc; [reflexivity | assumption | assumption].
Qed.

(** [json.load] always returns, and what it returns is a tree. *)
Lemma json_load_tree (doc : json) :
  exists raw h, json_load doc [] = Ok (raw, h) /\ tree h raw.
Proof.
  destruct (json_load_fresh doc [] []) as (v & ext & E & Hnd & Hlt);
    [constructor | constructor |].
  exists v, ext. split; [exact E |]. split; assumption.
Qed.

(** ** Runs that return *)

Lemma bind_Ok {A B} (c : M A) (k : A -> M B) (h h' : heap) (b : B) :
  bind c k h = Ok (b, h') ->
  exists a h1, c h = Ok (a, h1) /\ k a h1 = Ok (b, h').
Proof.
  unfold bind. destruct (c h) as [[a h1] | e]; [eauto | discriminate].
Qed.

Lemma getitem_Ok (o : val) (k : string) (h h' : heap) (v : val) :
  getitem o k h = Ok (v, h') ->
  exists l d, o = VRef l /\ h !! l = Some (ODict d) /\ dget k d = Some v /\
              h' = h.
Proof.
  unfold getitem, deref. destruct o; try discriminate.
  destruct (h !! l) as [[d | vs] |] eqn:Hl; try discriminate.
  destruct (dget k d) eqn:Hk; [| discriminate].
  intros H; inversion H; subst. eauto 6.
Qed.

Lemma setitem_Ok (o : val) (k : string) (v : val) (h h' : heap) (u : unit) :
  setitem o k v h = Ok (u, h') ->
  exists l d, o = VRef l /\ h !! l = Some (ODict d) /\
              h' = <[l := ODict (dset k v d)]> h.
Proof.
  unfold setitem, deref. destruct o; try discriminate.
  destruct (h !! l) as [[d | vs] |] eqn:Hl; try discriminate.
  intros H; inversion H; subst. eauto.
Qed.

Lemma iter_heap (o : val) (h h' : heap) (vs : list val) :
  iter o h = Ok (vs, h') -> h' = h.
Proof.
  unfold iter. destruct o; try discriminate; try congruence.
  destruct (h !! l) as [[] |]; congruence.
Qed.

Lemma only_refl (l : loc) (h : heap) : only l h h.
Proof. split; auto. Qed.

Lemma only_insert (l : loc) (o : obj) (h : heap) : only l h (<[l := o]> h).
Proof.
  split; [apply length_insert |].
  intros l' Hne. apply list_lookup_insert_ne. congruence.
Qed.

Lemma only_trans (l : loc) (h1 h2 h3 : heap) :
  only l h1 h2 -> only l h2 h3 -> only l h1 h3.
Proof.
  intros [L1 F1] [L2 F2]. split; [congruence |].
  intros l' Hne. rewrite F2, F1; auto.
Qed.

Lemma parse_figure_Ok (palette screen figure_dict : val) (h h' : heap)
    (s : shape) :
  FileParser._parse_figure palette screen figure_dict h = Ok (s, h') ->
  exists l, figure_dict = VRef l /\ parsed_from h h' figure_dict s /\ only l h h'.
Proof.
  intros H. pose proof H as H0.
  unfold FileParser._parse_figure in H0.
  apply bind_Ok in H0 as (t & h1 & Hpop & _).
  unfold pop, deref in Hpop. destruct figure_dict; try discriminate.
  destruct (h !! l) as [[d | vs] |] eqn:Hl; try discriminate.
  destruct (dget "type" d) as [t' |] eqn:Ht; [| discriminate].
  rewrite (parse_figure_eq palette screen l d t' h Hl Ht) in H.
  destruct (getitem screen "fg_color" _) as [[fg ?] |]; [| discriminate].
  destruct (FileParser.resolve palette _ _) as [[color ?] |]; [| discriminate].
  destruct (FileParser.figure_constructor t') as [c |] eqn:Hc;
    [| discriminate].
  destruct (construct c _) as [s' |] eqn:Hs; [| discriminate].
  inversion H; subst s' h'; clear H.
  assert (Hcol : color = shape_color s).
  { apply construct_color in Hs. rewrite dget_dset_eq in Hs. congruence. }
  subst color. exists l. split; [reflexivity |]. split.
  - exists l, d, t', c. repeat split; auto.
    apply list_lookup_insert_eq. eapply lookup_lt_Some; eauto.
  - apply only_insert.
Qed.

Lemma parsed_from_base (h0 h h' : heap) (entry : val) (s : shape) :
  (forall l, entry = VRef l -> h0 !! l = h !! l) ->
  parsed_from h h' entry s -> parsed_from h0 h' entry s.
Proof.
  intros Hbase (l & d & t & c & E & H1 & H2 & H3 & H4 & H5).
  exists l, d, t, c. repeat split; auto. rewrite Hbase; auto.
Qed.

Lemma parse_figures_Ok (palette screen : val) (entries : list val) :
  forall (h0 h h' : heap) (shapes : list shape),
    mapM (FileParser._parse_figure palette screen) entries h = Ok (shapes, h') ->
    NoDup (refs entries) ->
    (forall l, l ∈ refs entries -> h0 !! l = h !! l) ->
    List.length h' = List.length h /\
    (forall l, l ∉ refs entries -> h' !! l = h !! l) /\
    Forall2 (parsed_from h0 h') entries shapes.
Proof.
  induction entries as [|entry entries IH]; intros h0 h h' shapes H Hnd Hbase.
  - inversion H; subst. repeat split; auto.
  - cbn [mapM] in H.
    apply bind_Ok in H as (s & h1 & Hs & H).
    apply bind_Ok in H as (ss & h2 & Hss & H).
    inversion H; subst shapes h2; clear H.
    apply parse_figure_Ok in Hs as (l & -> & Hfrom & [Hlen Hfr]).
    rewrite refs_cons in Hnd, Hbase.
    apply NoDup_app in Hnd as (_ & Hdis & Hnd).
    assert (Hl : l ∉ refs entries) by (apply Hdis; constructor).
    destruct (IH h0 h1 h' ss Hss Hnd) as (Hlen' & Hfr' & Hall).
    { intros l' Hl'. rewrite Hfr by (intros ->; contradiction).
      apply Hbase, elem_of_app. now right. }
    split; [congruence |]. split.
    + intros l' Hl'. rewrite refs_cons in Hl'.
      apply not_elem_of_app in Hl' as [Hne Hl'].
      rewrite Hfr' by assumption. apply Hfr. intros ->. apply Hne. constructor.
    + constructor; [| exact Hall].
      destruct Hfrom as (l0 & d & t & c & E & H1 & H2 & H3 & H4 & H5).
      inversion E; subst l0.
      exists l, d, t, c. repeat split; auto.
      * rewrite Hbase; [assumption |]. apply elem_of_app. left. constructor.
      * rewrite Hfr'; auto.
Qed.

(** ** The whole parse *)

Lemma tree_root (h : heap) (r : loc) :
  tree h (VRef r) ->
  (r ∉ all_refs h) /\ NoDup (all_refs h) /\ (r < List.length h)%nat /\
  forall l, l ∈ all_refs h -> (l < List.length h)%nat.
Proof.
  intros [Hnd Hlt]. change (refs [VRef r]) with [r] in *. simpl in *.
  apply NoDup_cons in Hnd as [Hr Hnd].
  apply Forall_cons in Hlt as [Hr' Hlt]. rewrite Forall_forall in Hlt. auto.
Qed.

Lemma refs_chars (s : string) : refs (chars s) = [].
Proof. induction s; simpl; auto. Qed.

Lemma refs_strs (ks : list string) : refs (map VStr ks) = [].
Proof. induction ks; simpl; auto. Qed.

(** What a [for] loop takes from a value refers to what the value's
    object refers to, if anything. *)
Lemma iter_refs (o : val) (h h' : heap) (vs : list val) :
  iter o h = Ok (vs, h') ->
  refs vs = [] \/ exists l, o = VRef l /\ h !! l = Some (OList vs).
Proof.
  unfold iter. destruct o; try discriminate.
  - intros H; inversion H. left. apply refs_chars.
  - intros H; inversion H. now left.
  - destruct (h !! l) as [[d | ws] |] eqn:Hl; try discriminate;
      intros H; inversion H; subst.
    + left. apply refs_strs.
    + right. eauto.
Qed.

Lemma iter_same (o : val) (h h' : heap) (vs : list val) :
  (forall l, o = VRef l -> h' !! l = h !! l) ->
  iter o h = Ok (vs, h) -> iter o h' = Ok (vs, h').
Proof.
  unfold iter. destruct o; try discriminate; try congruence.
  intros Hl. rewrite (Hl l eq_refl).
  destruct (h !! l) as [[] |]; congruence.
Qed.

Lemma resolve_same (lp : loc) (token v : val) (h h' : heap) :
  h' !! lp = h !! lp ->
  FileParser.resolve (VRef lp) token h = Ok (v, h) ->
  FileParser.resolve (VRef lp) token h' = Ok (v, h').
Proof.
  intros Heq. unfold FileParser.resolve, bind, getattr_get, lift, deref.
  rewrite Heq.
  destruct (h !! lp) as [[pd | ?] |] eqn:Hp; try discriminate.
  destruct (FileParser._parse_color token); try discriminate.
  destruct (hashed token) as [[k |] |]; simpl; rewrite ?Heq, ?Hp;
    try discriminate; congruence.
Qed.

Lemma palette_loop_only (lp : loc) (palette_items : list (string * val)) :
  forall h h' u,
    forM_ palette_items (fun '(name, value) =>
      color <- lift (FileParser._parse_color value) ;;
      setitem (VRef lp) name color) h = Ok (u, h') ->
    only lp h h'.
Proof.
  induction palette_items as [|[name value] its IH]; intros h h' u H.
  - inversion H. apply only_refl.
  - cbn [forM_] in H. apply bind_Ok in H as (u1 & h1 & H1 & H).
    apply bind_Ok in H1 as (color & h0 & Hc & Hset).
    unfold lift in Hc.
    destruct (FileParser._parse_color value); inversion Hc; subst.
    apply setitem_Ok in Hset as (l & d & E & _ & ->). inversion E; subst l.
    eapply only_trans; [apply only_insert | eauto].
Qed.

Lemma init_Ok (raw : val) (h h' : heap) (fp : FileParser.self) :
  tree h raw ->
  FileParser.__init__ raw h = Ok (fp, h') ->
  parsed h raw fp h'.
Proof.
  intros Htree H. unfold FileParser.__init__ in H.
  (* raw_dict.get *)
  apply bind_Ok in H as (get & h0 & Hget & H).
  unfold getattr_get, deref in Hget. destruct raw as [| | | | |r]; try discriminate.
  destruct (h !! r) as [[top | ?] |] eqn:Hr; try discriminate.
  inversion Hget; subst get h0; clear Hget.
  destruct (tree_root h r Htree) as (Hroot & Hnd & Hrlt & Hclosed).
  (* {} and the palette *)
  apply bind_Ok in H as (empty & h1 & Hal & H).
  inversion Hal; subst empty h1; clear Hal.
  apply bind_Ok in H as (palette & h1 & Hpal & H).
  unfold hashed in Hpal. rewrite lookup_app_l, Hr in Hpal by assumption.
  inversion Hpal; subst h1; clear Hpal.
  set (h1 := h ++ [ODict []]) in *.
  assert (Hold : forall l, (l < List.length h)%nat -> h1 !! l = h !! l)
    by (intros l Hl; apply lookup_app_l; assumption).
  apply bind_Ok in H as (palette_items & h1' & Hits & H).
  unfold items, deref in Hits. destruct palette as [| | | | |lp]; try discriminate.
  destruct (h1 !! lp) as [[pd | ?] |] eqn:Hlp; try discriminate.
  inversion Hits; subst palette_items h1'; clear Hits.
  assert (Hlp' : VRef lp = default (VRef (List.length h)) (dget "Palette" top)).
  { rewrite <- H1. now destruct (dget "Palette" top). }
  clear H1.
  assert (Hpal : lp = List.length h \/ dget "Palette" top = Some (VRef lp)).
  { destruct (dget "Palette" top); simpl in Hlp'; inversion Hlp'; auto. }
  apply bind_Ok in H as (u & h2 & Hloop & H).
  apply palette_loop_only in Hloop as [Hlen2 Hfr2].
  (* Screen *)
  assert (Hrlp : r <> lp).
  { destruct Hpal as [-> | Hp]; [lia |]. intros <-.
    apply Hroot. eapply all_refs_lookup; [exact Hr |]. now apply (dget_ref "Palette"). }
  apply bind_Ok in H as (screen & h2' & Hscr & H).
  apply getitem_Ok in Hscr as (r' & top' & E & Hr2 & Hscreen & ->).
  inversion E; subst r'; clear E.
  rewrite Hfr2, Hold, Hr in Hr2 by assumption. inversion Hr2; subst top'; clear Hr2.
  apply bind_Ok in H as (bg_token & h2' & Hbg & H).
  apply getitem_Ok in Hbg as (ls & sd & -> & Hls2 & Hbgt & ->).
  assert (Hls_in : ls ∈ all_refs h).
  { eapply all_refs_lookup; [exact Hr |]. now apply (dget_ref "Screen"). }
  assert (Hlslp : ls <> lp).
  { destruct Hpal as [-> | Hp]; [apply Hclosed in Hls_in; lia |].
    eapply (dget_refs_ne "Screen" "Palette" top);
      [apply (all_refs_obj_NoDup h r (ODict top)); assumption
      | eassumption | eassumption | discriminate]. }
  assert (Hrls : r <> ls) by (intros ->; contradiction).
  assert (Hls : h !! ls = Some (ODict sd)).
  { rewrite <- Hold, <- Hfr2; auto. }
  apply bind_Ok in H as (bg & h2' & Hres_bg & H).
  pose proof (resolve_heap _ _ _ _ _ Hres_bg) as ->.
  apply bind_Ok in H as (u1 & h3 & Hset & H).
  apply setitem_Ok in Hset as (l & d & E & Hd & ->). inversion E; subst l; clear E.
  rewrite Hls2 in Hd. inversion Hd; subst d; clear Hd.
  set (h3 := <[ls := ODict (dset "bg_color" bg sd)]> h2) in *.
  assert (Hls3 : h3 !! ls = Some (ODict (dset "bg_color" bg sd))).
  { apply list_lookup_insert_eq. eapply lookup_lt_Some; eauto. }
  apply bind_Ok in H as (fg_token & h3' & Hfg & H).
  apply getitem_Ok in Hfg as (l & d & E & Hd & Hfgt & ->).
  inversion E; subst l; clear E.
  rewrite Hls3 in Hd. inversion Hd; subst d; clear Hd.
  rewrite dget_dset_ne in Hfgt by discriminate.
  apply bind_Ok in H as (fg & h3' & Hres_fg & H).
  pose proof (resolve_heap _ _ _ _ _ Hres_fg) as ->.
  apply bind_Ok in H as (u2 & h4 & Hset & H).
  apply setitem_Ok in Hset as (l & d & E & Hd & ->). inversion E; subst l; clear E.
  rewrite Hls3 in Hd. inversion Hd; subst d; clear Hd.
  unfold h3 in H. rewrite list_insert_insert_eq in H.
  set (sd' := dset "fg_color" fg (dset "bg_color" bg sd)) in *.
  set (h4 := <[ls := ODict sd']> h2) in *.
  assert (Hls4 : h4 !! ls = Some (ODict sd')).
  { apply list_lookup_insert_eq. eapply lookup_lt_Some; eauto. }
  assert (Hfr4 : forall l, l <> ls -> l <> lp -> (l < List.length h)%nat ->
                           h4 !! l = h !! l).
  { intros l Hl1 Hl2 Hl3. unfold h4.
    rewrite list_lookup_insert_ne, Hfr2, Hold by auto. reflexivity. }
  (* Figures *)
  apply bind_Ok in H as (raw_figures & h4' & Hfigs & H).
  apply getitem_Ok in Hfigs as (l & d & E & Hd & Hfigures & ->).
  inversion E; subst l; clear E.
  rewrite Hfr4, Hr in Hd by auto. inversion Hd; subst d; clear Hd.
  apply bind_Ok in H as (entries & h4' & Hiter & H).
  pose proof (iter_heap _ _ _ _ Hiter) as ->.
  assert (Hlf : forall lf, raw_figures = VRef lf ->
                  lf ∈ all_refs h /\ lf <> ls /\ lf <> lp /\ lf <> r).
  { intros lf ->.
    assert (Hin : lf ∈ all_refs h).
    { eapply all_refs_lookup; [exact Hr |]. now apply (dget_ref "Figures"). }
    pose proof (all_refs_obj_NoDup h r (ODict top) Hnd Hr) as Hndtop.
    repeat split; auto.
    - eapply (dget_refs_ne "Figures" "Screen" top);
        [exact Hndtop | eassumption | eassumption | discriminate].
    - destruct Hpal as [-> | Hp]; [apply Hclosed in Hin; lia |].
      eapply (dget_refs_ne "Figures" "Palette" top);
        [exact Hndtop | eassumption | eassumption | discriminate].
    - intros ->. contradiction. }
  assert (Hiter0 : iter raw_figures h = Ok (entries, h)).
  { apply (iter_same raw_figures h4 h); [| exact Hiter].
    intros lf E. destruct (Hlf lf E) as (Hin & ? & ? & ?).
    symmetry. apply Hfr4; auto. }
  assert (Hent : NoDup (refs entries) /\
                 forall l, l ∈ refs entries ->
                   l <> ls /\ l <> lp /\ (l < List.length h)%nat).
  { destruct (iter_refs _ _ _ _ Hiter0) as [-> | (lf & E & Hlfo)].
    - split; [constructor |]. intros l Hl. now apply elem_of_nil in Hl.
    - destruct (Hlf lf E) as (Hin & ? & ? & Hlfr).
      split; [apply (all_refs_obj_NoDup h lf (OList entries)); assumption |].
      intros l Hl.
      assert (Hl_in : l ∈ all_refs h)
        by (eapply all_refs_lookup; [exact Hlfo | exact Hl]).
      repeat split; auto.
      + intros ->. apply Hlfr.
        eapply (all_refs_unique h lf r); eauto. now apply (dget_ref "Screen").
      + destruct Hpal as [-> | Hp]; [apply Hclosed in Hl_in; lia |].
        intros ->. apply Hlfr.
        eapply (all_refs_unique h lf r); eauto. now apply (dget_ref "Palette"). }
  destruct Hent as [Hnd_e Hent].
  apply bind_Ok in H as (figures & h5 & Hmap & H).
  inversion H; subst fp h5; clear H.
  destruct (parse_figures_Ok _ _ entries h h4 h' figures Hmap Hnd_e)
    as (Hlen5 & Hfr5 & Hall).
  { intros l Hl. destruct (Hent l Hl) as (? & ? & ?).
    symmetry. apply Hfr4; auto. }
  assert (Hls_e : ls ∉ refs entries).
  { intros Hl. destruct (Hent ls Hl) as (? & _). congruence. }
  assert (Hlp_e : lp ∉ refs entries).
  { intros Hl. destruct (Hent lp Hl) as (_ & ? & _). congruence. }
  assert (Hlp5 : h' !! lp = h2 !! lp).
  { rewrite Hfr5 by assumption. unfold h4.
    apply list_lookup_insert_ne. congruence. }
  exists r, top, lp, ls, sd, bg_token, fg_token, bg, fg, raw_figures, entries.
  cbn [FileParser.color_palette FileParser.screen_parameters FileParser.figures].
  repeat split; auto.
  - apply (resolve_same lp _ _ h2); auto.
  - apply (resolve_same lp _ _ h3); auto. rewrite Hlp5. unfold h3.
    symmetry. apply list_lookup_insert_ne. congruence.
  - rewrite Hfr5 by assumption. exact Hls4.
Qed.

(** ** Keys of loaded dictionaries *)

Lemma keys_dset_NoDup (k : string) (v : val) (d : dict) :
  NoDup (keys d) -> NoDup (keys (dset k v d)).
Proof.
  induction d as [|[k0 v0] d IH]; simpl; intros Hnd.
  - repeat constructor. apply not_elem_of_nil.
  - apply NoDup_cons in Hnd as [Hk0 Hnd].
    destruct (decide (k = k0)) as [-> |]; simpl; apply NoDup_cons.
    + auto.
    + split; [| auto]. intros Hin. apply keys_dset in Hin as [-> | Hin]; auto.
Qed.

Lemma dget_ddel_eq (k : string) (d : dict) :
  NoDup (keys d) -> dget k (ddel k d) = None.
Proof.
  induction d as [|[k0 v0] d IH]; simpl; intros Hnd; [reflexivity |].
  apply NoDup_cons in Hnd as [Hk0 Hnd].
  destruct (decide (k = k0)) as [-> |]; simpl.
  - now apply dget_None.
  - destruct (decide (k = k0)); [contradiction | auto].
Qed.

Lemma well_keyed_snoc (h : heap) (o : obj) :
  well_keyed h ->
  (forall d, o = ODict d -> NoDup (keys d)) ->
  well_keyed (h ++ [o]).
Proof.
  intros Hh Ho l d Hl. apply lookup_snoc_Some in Hl as [[_ Hl] | [_ E]]; eauto.
Qed.

Lemma load_all_keys (js : list json) :
  Forall (fun j => forall h v h',
            json_load j h = Ok (v, h') -> well_keyed h -> well_keyed h') js ->
  forall h vs h',
    load_all json_load js h = Ok (vs, h') -> well_keyed h -> well_keyed h'.
Proof.
  induction 1 as [|j js Hj _ IH]; intros h vs h' H Hh.
  - inversion H; subst. assumption.
  - cbn [load_all] in H.
    apply bind_Ok in H as (v & h1 & Hv & H).
    apply bind_Ok in H as (ws & h2 & Hws & H).
    inversion H; subst. eauto.
Qed.

Lemma load_pairs_keys (kvs : list (string * json)) :
  Forall (fun kv => forall h v h',
            json_load (snd kv) h = Ok (v, h') -> well_keyed h -> well_keyed h')
    kvs ->
  forall d h d' h',
    load_pairs json_load kvs d h = Ok (d', h') ->
    well_keyed h -> NoDup (keys d) ->
    well_keyed h' /\ NoDup (keys d').
Proof.
  induction 1 as [|[k j] kvs Hj _ IH]; intros d h d' h' H Hh Hd.
  - inversion H; subst. auto.
  - cbn [load_pairs] in H.
    apply bind_Ok in H as (v & h1 & Hv & H).
    eapply IH; [exact H | eapply Hj; eauto | now apply keys_dset_NoDup].
Qed.

Lemma json_load_keys (j : json) :
  forall h v h', json_load j h = Ok (v, h') -> well_keyed h -> well_keyed h'.
Proof.
  induction j as [| b | n | s | js IH | kvs IH] using json_ind_nested;
    intros h v h' H Hh; try (inversion H; subst; assumption).
  - cbn [json_load] in H. apply bind_Ok in H as (vs & h1 & Hvs & H).
    inversion H; subst. apply well_keyed_snoc; [| intros d E; discriminate E].
    eapply load_all_keys; eauto.
  - cbn [json_load] in H. apply bind_Ok in H as (d & h1 & Hd & H).
    inversion H; subst.
    destruct (load_pairs_keys kvs IH [] h d h1 Hd Hh) as [Hh1 Hnd];
      [constructor |].
    apply well_keyed_snoc; [assumption |]. intros d0 E.
    inversion E; subst d0; exact Hnd.
Qed.

(** ** The palette loop *)

Lemma dset_middle (k : string) (v c : val) (pre post : dict) :
  k ∉ keys pre -> dset k c (pre ++ (k, v) :: post) = pre ++ (k, c) :: post.
Proof.
  induction pre as [|[k0 v0] pre IH]; simpl; intros Hk.
  - now destruct (decide (k = k)).
  - apply not_elem_of_cons in Hk as [Hne Hk].
    destruct (decide (k = k0)); [contradiction |]. now rewrite IH.
Qed.

(** The loop over the items of the palette, on a palette whose names
    [pre] are done and whose items [its] are still to do. *)
Lemma palette_loop_eq (lp : loc) (its : dict) :
  forall (pre : dict) (h : heap),
    h !! lp = Some (ODict (pre ++ its)) ->
    NoDup (keys (pre ++ its)) ->
    forM_ its (fun '(name, value) =>
      color <- lift (FileParser._parse_color value) ;;
      setitem (VRef lp) name color) h
    = match parse_values its with
      | Ok cs => Ok (tt, <[lp := ODict (pre ++ cs)]> h)
      | Raise e => Raise e
      end.
Proof.
  induction its as [|[name value] its IH]; intros pre h Hl Hnd.
  - simpl. unfold ret. now rewrite list_insert_id.
  - cbn [forM_ parse_values]. unfold bind at 1. unfold bind at 1, lift.
    destruct (FileParser._parse_color value) as [color | e]; [| reflexivity].
    cbn [rbind]. unfold setitem, deref. rewrite Hl.
    assert (Hname : name ∉ keys pre).
    { unfold keys in Hnd. rewrite map_app in Hnd.
      apply NoDup_app in Hnd as (_ & Hdis & _). intros Hin.
      apply (Hdis name Hin). constructor. }
    rewrite (dset_middle name value color pre its Hname).
    rewrite (IH (pre ++ [(name, color)])).
    + destruct (parse_values its) as [cs |]; [| reflexivity].
      now rewrite list_insert_insert_eq, <- app_assoc.
    + rewrite <- app_assoc. apply list_lookup_insert_eq.
      eapply lookup_lt_Some; eauto.
    + rewrite <- app_assoc. unfold keys in *.
      now rewrite map_app in *.
Qed.

Lemma parse_values_Ok (pd pd' : dict) :
  parse_values pd = Ok pd' <->
  Forall2 (fun kv kc => fst kc = fst kv /\
                        FileParser._parse_color (snd kv) = Ok (snd kc)) pd pd'.
Proof.
  revert pd'. induction pd as [|[k v] pd IH]; intros pd'; cbn [parse_values].
  - split; [intros H; inversion H; constructor | intros H; now inversion H].
  - split.
    + destruct (FileParser._parse_color v) as [c |] eqn:Hc; [| discriminate].
      cbn [rbind]. destruct (parse_values pd) as [cs |]; [| discriminate].
      intros H; inversion H; subst. constructor; [auto | now apply IH].
    + intros H. inversion H as [| kv [k' c] pd0 cs [Hk Hc] Hall]; subst.
      simpl in Hk, Hc. subst k'. rewrite Hc. cbn [rbind].
      apply IH in Hall. now rewrite Hall.
Qed.

Lemma parse_values_Raise (pd : dict) (e : exn) :
  parse_values pd = Raise e <->
  exists pre k v post,
    pd = pre ++ (k, v) :: post /\
    Forall (fun kv => exists c, FileParser._parse_color (snd kv) = Ok c) pre /\
    FileParser._parse_color v = Raise e.
Proof.
  induction pd as [|[k v] pd IH]; cbn [parse_values].
  - split; [discriminate |]. intros (pre & k & v & post & E & _).
    now destruct pre.
  - destruct (FileParser._parse_color v) as [c |] eqn:Hc; cbn [rbind].
    + assert (Htail : (exists pre k0 v0 post,
                         (k, v) :: pd = pre ++ (k0, v0) :: post /\
                         Forall (fun kv => exists c,
                                   FileParser._parse_color (snd kv) = Ok c) pre /\
                         FileParser._parse_color v0 = Raise e) ->
                      parse_values pd = Raise e).
      { intros (pre & k' & v' & post & E & Hpre & Hv).
        destruct pre as [|kv pre]; simpl in E; inversion E; subst;
          [congruence |].
        apply Forall_cons in Hpre as [_ Hpre]. apply IH. eauto 8. }
      destruct (parse_values pd) as [cs | e0]; cbn [rbind]; split.
      * discriminate.
      * intros H. apply Htail in H. discriminate.
      * intros H. inversion H; subst e0.
        destruct (proj1 IH eq_refl) as (pre & k' & v' & post & -> & Hpre & Hv).
        exists ((k, v) :: pre), k', v', post. repeat split; auto.
        constructor; eauto.
      * intros H. now apply Htail in H.
    + split.
      * intros H; inversion H; subst. exists [], k, v, pd. auto.
      * intros (pre & k' & v' & post & E & Hpre & Hv).
        destruct pre as [|kv pre]; simpl in E; inversion E; subst;
          [congruence |].
        apply Forall_cons in Hpre as [[c Hc'] _]. simpl in Hc'. congruence.
Qed.

(** ** The steps of a parse that returns *)

Lemma bind_under {A B C} (F : result (C * heap) -> result (B * heap))
    (c : M A) (k : A -> M B) (k' : A -> M C) (h : heap) :
  (forall e, F (Raise e) = Raise e) ->
  (forall a h', k a h' = F (k' a h')) ->
  bind c k h = F (bind c k' h).
Proof.
  intros HF Hk. unfold bind.
  destruct (c h) as [[a h'] | e]; [apply Hk | now rewrite HF].
Qed.

(** [__init__] is [before_figures], then the list comprehension. *)
Lemma init_figures (raw : val) (h : heap) :
  FileParser.__init__ raw h =
    match before_figures raw h with
    | Ok (p, s, es, h4) =>
        match mapM (FileParser._parse_figure p s) es h4 with
        | Ok (figures, h5) =>
            Ok ({| FileParser.color_palette := p;
                   FileParser.screen_parameters := s;
                   FileParser.figures := figures |}, h5)
        | Raise e => Raise e
        end
    | Raise e => Raise e
    end.
Proof.
  unfold FileParser.__init__, before_figures.
  repeat (apply (bind_under
                   (fun res =>
                      match res with
                      | Ok (p, s, es, h4) =>
                          match mapM (FileParser._parse_figure p s) es h4 with
                          | Ok (figures, h5) =>
                              Ok ({| FileParser.color_palette := p;
                                     FileParser.screen_parameters := s;
                                     FileParser.figures := figures |}, h5)
                          | Raise e => Raise e
                          end
                      | Raise e => Raise e
                      end)); [reflexivity | intros ? ?]).
  reflexivity.
Qed.

(** What [before_figures] has done when it returns. *)
Lemma before_figures_steps (raw : val) (h h4 : heap) (p s : val)
    (es : list val) :
  before_figures raw h = Ok (p, s, es, h4) ->
  exists r top lp pd ls bg_token bg fg_token fg raw_figures h2 h3,
    raw = VRef r /\ h !! r = Some (ODict top) /\
    p = VRef lp /\ s = VRef ls /\
    VRef lp = default (VRef (List.length h)) (dget "Palette" top) /\
    (h ++ [ODict []]) !! lp = Some (ODict pd) /\
    forM_ pd (fun '(name, value) =>
      color <- lift (FileParser._parse_color value) ;;
      setitem (VRef lp) name color) (h ++ [ODict []]) = Ok (tt, h2) /\
    getitem (VRef r) "Screen" h2 = Ok (VRef ls, h2) /\
    getitem (VRef ls) "bg_color" h2 = Ok (bg_token, h2) /\
    FileParser.resolve (VRef lp) bg_token h2 = Ok (bg, h2) /\
    setitem (VRef ls) "bg_color" bg h2 = Ok (tt, h3) /\
    getitem (VRef ls) "fg_color" h3 = Ok (fg_token, h3) /\
    FileParser.resolve (VRef lp) fg_token h3 = Ok (fg, h3) /\
    setitem (VRef ls) "fg_color" fg h3 = Ok (tt, h4) /\
    getitem (VRef r) "Figures" h4 = Ok (raw_figures, h4) /\
    iter raw_figures h4 = Ok (es, h4).
Proof.
  intros H. unfold before_figures in H.
  apply bind_Ok in H as (get & h0 & Hget & H).
  unfold getattr_get, deref in Hget.
  destruct raw as [| | | | | r]; try discriminate.
  destruct (h !! r) as [[top | ?] |] eqn:Hr; try discriminate.
  inversion Hget; subst get h0; clear Hget.
  apply bind_Ok in H as (empty & h1 & Hal & H).
  inversion Hal; subst empty h1; clear Hal.
  apply bind_Ok in H as (palette & h1 & Hpal & H).
  unfold hashed in Hpal.
  rewrite lookup_app_l, Hr in Hpal by (eapply lookup_lt_Some; eauto).
  inversion Hpal; subst h1; clear Hpal.
  apply bind_Ok in H as (pd & h1 & Hits & H).
  unfold items, deref in Hits.
  destruct palette as [| | | | | lp]; try discriminate.
  destruct ((h ++ [ODict []]) !! lp) as [[pd0 | ?] |] eqn:Hlp; try discriminate.
  inversion Hits; subst pd0 h1; clear Hits.
  assert (Hlp' : VRef lp = default (VRef (List.length h)) (dget "Palette" top)).
  { rewrite <- H1. now destruct (dget "Palette" top). }
  clear H1.
  apply bind_Ok in H as ([] & h2 & Hloop & H).
  apply bind_Ok in H as (screen & h2' & Hscr & H).
  pose proof Hscr as Hscr0.
  apply getitem_Ok in Hscr0 as (_ & _ & _ & _ & _ & ->).
  apply bind_Ok in H as (bg_token & h2' & Hbg & H).
  pose proof Hbg as Hbg0.
  apply getitem_Ok in Hbg0 as (ls & _ & -> & _ & _ & ->).
  apply bind_Ok in H as (bg & h2' & Hrbg & H).
  pose proof (resolve_heap _ _ _ _ _ Hrbg) as ->.
  apply bind_Ok in H as ([] & h3 & Hset1 & H).
  apply bind_Ok in H as (fg_token & h3' & Hfg & H).
  pose proof Hfg as Hfg0.
  apply getitem_Ok in Hfg0 as (_ & _ & _ & _ & _ & ->).
  apply bind_Ok in H as (fg & h3' & Hrfg & H).
  pose proof (resolve_heap _ _ _ _ _ Hrfg) as ->.
  apply bind_Ok in H as ([] & h4' & Hset2 & H).
  apply bind_Ok in H as (raw_figures & h4'' & Hfigs & H).
  pose proof Hfigs as Hfigs0.
  apply getitem_Ok in Hfigs0 as (_ & _ & _ & _ & _ & ->).
  apply bind_Ok in H as (entries & h4'' & Hiter & H).
  pose proof (iter_heap _ _ _ _ Hiter) as ->.
  inversion H; subst p s es h4'; clear H.
  exists r, top, lp, pd, ls, bg_token, bg, fg_token, fg, raw_figures, h2, h3.
  repeat split; assumption.
Qed.

(** The heaps a parse that returns goes through: [h2] after the loop
    over the palette, [h3] and [h4] after the two colours of the screen
    are set, [h'] after the figures. *)
Lemma init_steps (raw : val) (h h' : heap) (fp : FileParser.self) :
  FileParser.__init__ raw h = Ok (fp, h') ->
  exists r top lp pd ls bg_token bg fg_token fg raw_figures entries h2 h3 h4,
    raw = VRef r /\ h !! r = Some (ODict top) /\
    FileParser.color_palette fp = VRef lp /\
    FileParser.screen_parameters fp = VRef ls /\
    VRef lp = default (VRef (List.length h)) (dget "Palette" top) /\
    (h ++ [ODict []]) !! lp = Some (ODict pd) /\
    forM_ pd (fun '(name, value) =>
      color <- lift (FileParser._parse_color value) ;;
      setitem (VRef lp) name color) (h ++ [ODict []]) = Ok (tt, h2) /\
    getitem (VRef r) "Screen" h2 = Ok (VRef ls, h2) /\
    getitem (VRef ls) "bg_color" h2 = Ok (bg_token, h2) /\
    FileParser.resolve (VRef lp) bg_token h2 = Ok (bg, h2) /\
    setitem (VRef ls) "bg_color" bg h2 = Ok (tt, h3) /\
    getitem (VRef ls) "fg_color" h3 = Ok (fg_token, h3) /\
    FileParser.resolve (VRef lp) fg_token h3 = Ok (fg, h3) /\
    setitem (VRef ls) "fg_color" fg h3 = Ok (tt, h4) /\
    getitem (VRef r) "Figures" h4 = Ok (raw_figures, h4) /\
    iter raw_figures h4 = Ok (entries, h4) /\
    mapM (FileParser._parse_figure (VRef lp) (VRef ls)) entries h4
    = Ok (FileParser.figures fp, h').
Proof.
  intros H. rewrite init_figures in H.
  destruct (before_figures raw h) as [[[[p s] es] h4] |] eqn:Hbf;
    [| discriminate].
  destruct (mapM _ es h4) as [[figures h5] |] eqn:Hmap; [| discriminate].
  inversion H; subst fp h'; clear H.
  destruct (before_figures_steps _ _ _ _ _ _ Hbf)
    as (r & top & lp & pd & ls & bg_token & bg & fg_token & fg & raw_figures
        & h2 & h3 & -> & Hr & -> & -> & Hrest).
  exists r, top, lp, pd, ls, bg_token, bg, fg_token, fg, raw_figures, es,
    h2, h3, h4.
  cbn [FileParser.color_palette FileParser.screen_parameters FileParser.figures].
  repeat split; solve [assumption | apply Hrest].
Qed.

(** The sections of a loaded document are apart: the palette, the
    screen and the entries of the figure list are objects of their own. *)
Lemma tree_sections (h : heap) (r lp ls : loc) (top : dict)
    (raw_figures : val) (entries : list val) :
  tree h (VRef r) ->
  h !! r = Some (ODict top) ->
  VRef lp = default (VRef (List.length h)) (dget "Palette" top) ->
  dget "Screen" top = Some (VRef ls) ->
  dget "Figures" top = Some raw_figures ->
  iter raw_figures h = Ok (entries, h) ->
  (r < List.length h)%nat /\ (ls < List.length h)%nat /\
  r <> lp /\ r <> ls /\ ls <> lp /\
  (lp = List.length h \/
   dget "Palette" top = Some (VRef lp) /\ (lp < List.length h)%nat) /\
  (forall lf, raw_figures = VRef lf ->
     lf <> ls /\ lf <> lp /\ lf <> r /\ (lf < List.length h)%nat) /\
  NoDup (refs entries) /\
  forall l, l ∈ refs entries ->
    l <> ls /\ l <> lp /\ l <> r /\ (l < List.length h)%nat.
Proof.
  intros Htree Hr Hlp Hscreen Hfigures Hiter.
  destruct (tree_root h r Htree) as (Hroot & Hnd & Hrlt & Hclosed).
  pose proof (all_refs_obj_NoDup h r (ODict top) Hnd Hr) as Hndtop.
  assert (Hin : forall k l, dget k top = Some (VRef l) -> l ∈ all_refs h).
  { intros k l Hk. eapply all_refs_lookup; [exact Hr |]. now apply (dget_ref k). }
  assert (Hpal : lp = List.length h \/
                 dget "Palette" top = Some (VRef lp) /\ (lp < List.length h)%nat).
  { destruct (dget "Palette" top) as [v |] eqn:Hp; simpl in Hlp;
      inversion Hlp; subst; [right | left; reflexivity].
    split; [reflexivity |]. apply Hclosed, (Hin "Palette"), Hp. }
  assert (Hls_in : ls ∈ all_refs h) by (apply (Hin "Screen"), Hscreen).
  assert (Hne : forall k l, k <> "Palette" -> dget k top = Some (VRef l) -> l <> lp).
  { intros k l Hk Hl. destruct Hpal as [-> | [Hp _]].
    - apply Hin, Hclosed in Hl. lia.
    - eapply (dget_refs_ne k "Palette" top); eauto. }
  assert (Hrlp : r <> lp).
  { destruct Hpal as [-> | [Hp _]]; [lia |]. intros <-.
    apply Hroot, (Hin "Palette"), Hp. }
  assert (Hrls : r <> ls) by (intros ->; contradiction).
  assert (Hlslp : ls <> lp) by (apply (Hne "Screen"); [discriminate | assumption]).
  assert (Hlf : forall lf, raw_figures = VRef lf ->
                  lf <> ls /\ lf <> lp /\ lf <> r /\ (lf < List.length h)%nat).
  { intros lf ->. pose proof (Hin "Figures" lf Hfigures) as Hlf.
    repeat split; auto.
    - eapply (dget_refs_ne "Figures" "Screen" top); eauto; discriminate.
    - apply (Hne "Figures"); [discriminate | assumption].
    - intros ->. contradiction. }
  split; [assumption |]. split; [auto |]. split; [assumption |].
  split; [assumption |]. split; [assumption |]. split; [assumption |].
  split; [assumption |].
  destruct (iter_refs _ _ _ _ Hiter) as [-> | (lf & E & Hlfo)].
  - split; [constructor |]. intros l Hl. now apply elem_of_nil in Hl.
  - destruct (Hlf lf E) as (Hlfs & Hlfp & Hlfr & Hlflt). subst raw_figures.
    split; [apply (all_refs_obj_NoDup h lf (OList entries)); assumption |].
    intros l Hl.
    assert (Hl_in : l ∈ all_refs h)
      by (eapply all_refs_lookup; [exact Hlfo | exact Hl]).
    assert (Hfrom : forall k, dget k top = Some (VRef l) -> False).
    { intros k Hk. apply Hlfr.
      eapply (all_refs_unique h lf r); eauto. now apply (dget_ref k). }
    repeat split; auto.
    + intros ->. now apply (Hfrom "Screen").
    + destruct Hpal as [-> | [Hp _]]; [apply Hclosed in Hl_in; lia |].
      intros ->. now apply (Hfrom "Palette").
    + intros ->. contradiction.
Qed.

Lemma getitem_same (o : val) (k : string) (h h' : heap) (v : val) :
  (forall l, o = VRef l -> h' !! l = h !! l) ->
  getitem o k h = Ok (v, h) -> getitem o k h' = Ok (v, h').
Proof.
  unfold getitem, deref. destruct o; try discriminate.
  intros Hl. rewrite (Hl l eq_refl).
  destruct (h !! l) as [[d |] |]; try discriminate.
  destruct (dget k d); congruence.
Qed.

(** The colour of each shape is what the resolver makes of the entry's
    ["color"], or of the screen's ["fg_color"] when the entry has none. *)
Lemma parse_figures_resolved (lp ls : loc) (fg : val) (entries : list val) :
  forall (h0 h h' : heap) (shapes : list shape),
    mapM (FileParser._parse_figure (VRef lp) (VRef ls)) entries h
    = Ok (shapes, h') ->
    NoDup (refs entries) -> lp ∉ refs entries -> ls ∉ refs entries ->
    (forall l, l ∈ refs entries -> h0 !! l = h !! l) ->
    getitem (VRef ls) "fg_color" h = Ok (fg, h) ->
    Forall2
      (fun entry s =>
         exists l d,
           entry = VRef l /\ h0 !! l = Some (ODict d) /\
           FileParser.resolve (VRef lp)
             (default fg (dget "color" (ddel "type" d))) h
           = Ok (shape_color s, h))
      entries shapes.
Proof.
  induction entries as [|entry entries IH];
    intros h0 h h' shapes H Hnd Hlp Hls Hbase Hfg.
  - inversion H; subst. constructor.
  - cbn [mapM] in H.
    apply bind_Ok in H as (s & h1 & Hs & H).
    apply bind_Ok in H as (ss & h2 & Hss & H).
    inversion H; subst shapes h2; clear H.
    pose proof Hs as Hs0.
    apply parse_figure_Ok in Hs0 as (l & -> & Hfrom & [Hlen Hfr]).
    rewrite refs_cons in Hnd, Hlp, Hls, Hbase.
    change (refs [VRef l]) with [l] in *.
    apply NoDup_app in Hnd as (_ & Hdis & Hnd).
    apply not_elem_of_app in Hlp as [Hlpl Hlp].
    apply not_elem_of_app in Hls as [Hlsl Hls].
    assert (Hll : l ∉ refs entries) by (apply Hdis; constructor).
    assert (Hlpne : lp <> l) by (intros ->; apply Hlpl; constructor).
    assert (Hlsne : ls <> l) by (intros ->; apply Hlsl; constructor).
    destruct Hfrom as (l0 & d & t & c & E & Hd & Ht & _ & _ & _).
    inversion E; subst l0; clear E.
    constructor.
    + exists l, d. split; [reflexivity |]. split.
      { rewrite Hbase; [assumption |]. apply elem_of_app. left. constructor. }
      rewrite (parse_figure_eq (VRef lp) (VRef ls) l d t h Hd Ht) in Hs.
      set (hd := <[l := ODict (ddel "type" d)]> h) in *.
      assert (Hfg' : getitem (VRef ls) "fg_color" hd = Ok (fg, hd)).
      { apply (getitem_same _ _ h); [| assumption].
        intros l0 E. inversion E; subst l0.
        apply list_lookup_insert_ne. congruence. }
      rewrite Hfg' in Hs.
      destruct (FileParser.resolve (VRef lp) _ hd) as [[color hd'] |] eqn:Hres;
        [| discriminate].
      pose proof (resolve_heap _ _ _ _ _ Hres) as ->.
      destruct (FileParser.figure_constructor t) as [c' |]; [| discriminate].
      destruct (construct c' _) as [s' |] eqn:Hc; [| discriminate].
      inversion Hs; subst s'. apply construct_color in Hc.
      rewrite dget_dset_eq in Hc. inversion Hc; subst color.
      apply (resolve_same lp _ _ hd); [| assumption].
      symmetry. apply list_lookup_insert_ne. congruence.
    + assert (Hlp1 : h1 !! lp = h !! lp) by (apply Hfr; congruence).
      eapply Forall2_impl.
      * apply (IH h0 h1 h' ss Hss Hnd Hlp Hls).
        -- intros l' Hl'. rewrite Hfr by (intros ->; contradiction).
           apply Hbase, elem_of_app. now right.
        -- apply (getitem_same _ _ h); [| assumption].
           intros l0 E. inversion E; subst l0. apply Hfr. congruence.
      * intros entry s' (l' & d' & -> & Hd' & Hres). exists l', d'.
        split; [reflexivity |]. split; [assumption |].
        apply (resolve_same lp _ _ h1); [symmetry |]; assumption.
Qed.

(** A parse that returns, on what [json.load] returned: the palette it
    has parsed, the colours it has resolved and where it has put them. *)
Lemma init_run (raw : val) (h h' : heap) (fp : FileParser.self) :
  tree h raw -> well_keyed h ->
  FileParser.__init__ raw h = Ok (fp, h') ->
  exists r top lp ls pd pd' sd bg fg raw_figures entries,
    raw = VRef r /\ h !! r = Some (ODict top) /\
    FileParser.color_palette fp = VRef lp /\
    FileParser.screen_parameters fp = VRef ls /\
    (lp = List.length h /\ dget "Palette" top = None /\ pd = [] \/
     dget "Palette" top = Some (VRef lp) /\ h !! lp = Some (ODict pd)) /\
    parse_values pd = Ok pd' /\
    h' !! lp = Some (ODict pd') /\
    dget "Screen" top = Some (VRef ls) /\ h !! ls = Some (ODict sd) /\
    (exists bg_token, dget "bg_color" sd = Some bg_token /\
       FileParser.resolve (VRef lp) bg_token h' = Ok (bg, h')) /\
    (exists fg_token, dget "fg_color" sd = Some fg_token /\
       FileParser.resolve (VRef lp) fg_token h' = Ok (fg, h')) /\
    h' !! ls = Some (ODict (dset "fg_color" fg (dset "bg_color" bg sd))) /\
    dget "Figures" top = Some raw_figures /\
    iter raw_figures h = Ok (entries, h) /\
    Forall2
      (fun entry s =>
         exists l d,
           entry = VRef l /\ h !! l = Some (ODict d) /\
           FileParser.resolve (VRef lp)
             (default fg (dget "color" (ddel "type" d))) h'
           = Ok (shape_color s, h'))
      entries (FileParser.figures fp) /\
    Forall2 (parsed_from h h') entries (FileParser.figures fp).
Proof.
  intros Htree Hkeys Hinit.
  destruct (init_Ok raw h h' fp Htree Hinit)
    as (r & top & lp & ls & sd & bg_token & fg_token & bg & fg & raw_figures
        & entries & -> & Hr & Hcp & Hlp & Hscreen & Hsp & Hls & Hbgt & Hfgt
        & Hrbg & Hrfg & Hls' & Hfigs & Hiter & Hparsed).
  destruct (tree_sections h r lp ls top raw_figures entries
              Htree Hr Hlp Hscreen Hfigs Hiter)
    as (Hrlt & Hlslt & Hrlp & Hrls & Hlslp & Hpal & Hlf & Hnd & Hent).
  destruct (init_steps _ _ _ _ Hinit)
    as (r0 & top0 & lp0 & pd & ls0 & bgt0 & bg0 & fgt0 & fg0 & rf0 & es0
        & h2 & h3 & h4 & E & Hr0 & Hcp0 & Hsp0 & _ & Hpd & Hloop & _ & _ & _
        & Hset1 & _ & _ & Hset2 & Hfigs0 & Hiter0 & Hmap).
  inversion E; subst r0; clear E.
  rewrite Hr in Hr0. inversion Hr0; subst top0; clear Hr0.
  rewrite Hcp in Hcp0. inversion Hcp0; subst lp0; clear Hcp0.
  rewrite Hsp in Hsp0. inversion Hsp0; subst ls0; clear Hsp0.
  set (h1 := h ++ [ODict []]) in *.
  assert (Hold : forall l, (l < List.length h)%nat -> h1 !! l = h !! l)
    by (intros l Hl; apply lookup_app_l; assumption).
  assert (Hlp1 : (lp < List.length h1)%nat) by (eapply lookup_lt_Some; eauto).
  assert (Hpal' : lp = List.length h /\ dget "Palette" top = None /\ pd = [] \/
                  dget "Palette" top = Some (VRef lp) /\ h !! lp = Some (ODict pd)).
  { destruct (dget "Palette" top) as [v |] eqn:Hp; simpl in Hlp.
    - right. inversion Hlp; subst v. split; [reflexivity |].
      destruct Hpal as [-> | [_ Hlt]].
      + destruct (tree_root h r Htree) as (_ & _ & _ & Hclosed).
        assert (Hin : List.length h ∈ all_refs h)
          by (eapply all_refs_lookup; [exact Hr |]; now apply (dget_ref "Palette")).
        apply Hclosed in Hin. lia.
      + now rewrite <- Hold.
    - left. inversion Hlp; subst lp. repeat split.
      unfold h1 in Hpd. rewrite lookup_app_r, Nat.sub_diag in Hpd by lia.
      now inversion Hpd. }
  assert (Hndk : NoDup (keys pd)).
  { destruct Hpal' as [(_ & _ & ->) | [_ Hlpd]]; [constructor | eauto]. }
  rewrite (palette_loop_eq lp pd [] h1 Hpd Hndk) in Hloop.
  destruct (parse_values pd) as [pd' |] eqn:Hpv; [| discriminate].
  inversion Hloop; subst h2; clear Hloop. cbn [app] in *.
  apply setitem_Ok in Hset1 as (l & d1 & E & _ & ->). inversion E; subst l; clear E.
  apply setitem_Ok in Hset2 as (l & d2 & E & _ & ->). inversion E; subst l; clear E.
  rewrite list_insert_insert_eq in *.
  set (h4 := <[ls := ODict (dset "fg_color" fg0 d2)]> (<[lp := ODict pd']> h1)) in *.
  assert (Hfr4 : forall l, l <> ls -> l <> lp -> (l < List.length h)%nat ->
                           h4 !! l = h !! l).
  { intros l H1 H2 H3. unfold h4.
    rewrite !list_lookup_insert_ne by congruence. auto. }
  assert (Hlp4 : h4 !! lp = Some (ODict pd')).
  { unfold h4. rewrite list_lookup_insert_ne by congruence.
    now apply list_lookup_insert_eq. }
  assert (Hls4 : h4 !! ls = Some (ODict (dset "fg_color" fg0 d2))).
  { unfold h4. apply list_lookup_insert_eq. rewrite length_insert.
    unfold h1. rewrite length_app. lia. }
  unfold getitem, deref in Hfigs0. rewrite Hfr4, Hr, Hfigs in Hfigs0 by auto.
  inversion Hfigs0; subst rf0; clear Hfigs0.
  assert (Hiter4 : iter raw_figures h4 = Ok (entries, h4)).
  { apply (iter_same raw_figures h h4); [| exact Hiter].
    intros lf E. destruct (Hlf lf E) as (? & ? & ? & ?). now apply Hfr4. }
  rewrite Hiter4 in Hiter0. inversion Hiter0; subst es0; clear Hiter0.
  assert (Hls_e : ls ∉ refs entries).
  { intros Hl. destruct (Hent ls Hl) as (? & _). congruence. }
  assert (Hlp_e : lp ∉ refs entries).
  { intros Hl. destruct (Hent lp Hl) as (_ & ? & _). congruence. }
  assert (Hbase : forall l, l ∈ refs entries -> h !! l = h4 !! l).
  { intros l Hl. destruct (Hent l Hl) as (? & ? & ? & ?).
    symmetry. now apply Hfr4. }
  destruct (parse_figures_Ok _ _ entries h h4 h' _ Hmap Hnd Hbase)
    as (_ & Hfr5 & _).
  assert (Hlp5 : h' !! lp = Some (ODict pd')) by (rewrite Hfr5; assumption).
  assert (Hfg : fg0 = fg).
  { rewrite Hfr5, Hls4 in Hls' by assumption. inversion Hls' as [E].
    apply (f_equal (dget "fg_color")) in E.
    rewrite !dget_dset_eq in E. congruence. }
  subst fg0.
  exists r, top, lp, ls, pd, pd', sd, bg, fg, raw_figures, entries.
  repeat (split; [solve [eauto] |]).
  split; [| exact Hparsed].
  eapply Forall2_impl.
  - apply (parse_figures_resolved lp ls fg entries h h4 h' _ Hmap Hnd Hlp_e Hls_e
             Hbase).
    unfold getitem, deref. now rewrite Hls4, dget_dset_eq.
  - intros entry s (l & d & -> & Hd & Hres). exists l, d.
    split; [reflexivity |]. split; [assumption |].
    apply (resolve_same lp _ _ h4); [congruence | assumption].
Qed.

Lemma loaded (doc : json) (raw : val) (h : heap) :
  json_load doc [] = Ok (raw, h) -> tree h raw /\ well_keyed h.
Proof.
  intros Hload. split.
  - destruct (json_load_tree doc) as (raw0 & h0 & E & Htree).
    rewrite Hload in E. now inversion E; subst.
  - eapply json_load_keys; [exact Hload |]. intros l d Hl. discriminate.
Qed.

(** ** The parser rewrites its input *)

Lemma Forall2_conj {A B} (P Q : A -> B -> Prop) (xs : list A) (ys : list B) :
  Forall2 P xs ys -> Forall2 Q xs ys ->
  Forall2 (fun x y => P x y /\ Q x y) xs ys.
Proof.
  induction 1 as [|x y xs ys HP _ IH]; intros HQ;
    inversion HQ; subst; constructor; auto.
Qed.

(** C10. Parsing works on the objects [json.load] returned: the value of
    ["Screen"] in the input is the parser's [screen_parameters], and after
    the parse it holds the resolved ["bg_color"] and ["fg_color"]; every
    dictionary of the ["Figures"] list has had its ["type"] removed and
    the resolved ["color"] written into it: what the resolver gives for
    the colour the figure had, or for the resolved ["fg_color"] when it
    had none. *)
Theorem parsing_rewrites_input (doc : json) (raw : val) (h h' : heap)
    (fp : FileParser.self) :
  json_load doc [] = Ok (raw, h) ->
  FileParser.__init__ raw h = Ok (fp, h') ->
  rewritten h raw fp h'.
Proof.
  intros Hload Hinit. destruct (loaded doc raw h Hload) as [Htree Hkeys].
  destruct (init_run raw h h' fp Htree Hkeys Hinit)
    as (r & top & lp & ls & pd & pd' & sd & bg & fg & raw_figures & entries
        & -> & Hr & Hcp & Hsp & _ & _ & _ & Hscreen & Hls
        & (bg_token & Hbg & Hrbg) & (fg_token & Hfg & Hrfg)
        & Hls' & Hfigs & Hiter & Hres & Hall).
  exists ls, sd, bg_token, fg_token, bg, fg, raw_figures, entries.
  rewrite Hcp. unfold getitem, deref. rewrite Hr, Hscreen, Hfigs.
  repeat split; auto.
  eapply Forall2_impl; [exact (Forall2_conj _ _ _ _ Hres Hall) |].
  intros entry shape
    [(l0 & d0 & E0 & Hl0 & Hres0) (l & d & t & c & -> & Hl & Ht & _ & _ & Hl')].
  inversion E0; subst l0; clear E0.
  rewrite Hl in Hl0. inversion Hl0; subst d0; clear Hl0.
  rewrite dget_ddel_ne in Hres0 by discriminate.
  exists l, d, (dset "color" (shape_color shape) (ddel "type" d)).
  split; [reflexivity |]. split; [assumption |]. split; [assumption |].
  split; [assumption |].
  split; [reflexivity |]. split; [rewrite Ht; eauto |].
  split; [| apply dget_dset_eq].
  rewrite dget_dset_ne by discriminate. apply dget_ddel_eq. eauto.
Qed.

(** A scene whose background and first figure name a colour of the
    palette: after the parse the dictionaries of the input hold the
    colours themselves. *)
Lemma parsing_rewrites_input_witness :
  exists raw h fp h',
    json_load named_colours [] = Ok (raw, h) /\
    FileParser.__init__ raw h = Ok (fp, h') /\
    rewritten h raw fp h' /\
    h !! 1%nat = Some (ODict [("width", VInt 10); ("height", VInt 10);
                              ("bg_color", VStr "sky");
                              ("fg_color", VStr "#FFFFFF")]) /\
    h' !! 1%nat = Some (ODict [("width", VInt 10); ("height", VInt 10);
                               ("bg_color", VRgb 0 128 255);
                               ("fg_color", VStr "#FFFFFF")]) /\
    h !! 2%nat = Some (ODict [("type", VStr "point"); ("x", VInt 5);
                              ("y", VInt 5); ("color", VStr "sky")]) /\
    h' !! 2%nat = Some (ODict [("x", VInt 5); ("y", VInt 5);
                               ("color", VRgb 0 128 255)]) /\
    h !! 3%nat = Some (ODict [("type", VStr "point"); ("x", VInt 1);
                              ("y", VInt 2)]) /\
    h' !! 3%nat = Some (ODict [("x", VInt 1); ("y", VInt 2);
                               ("color", VStr "#FFFFFF")]).
Proof.
  do 4 eexists. split; [reflexivity |]. split; [reflexivity |].
  split; [apply (parsing_rewrites_input named_colours); reflexivity |].
  repeat split; reflexivity.
Defined.

(** ** Unknown figure types *)


Lemma new_eq (doc : json) (raw : val) (h : heap) :
  json_load doc [] = Ok (raw, h) ->
  FileParser.new doc [] = FileParser.__init__ raw h.
Proof. intros H. unfold FileParser.new, bind. now rewrite H. Qed.

(** ** The parse up to a figure *)






(** ** Colours that go through the resolver twice or too early *)

(** C1 does not hold of the code: the literal parse is an argument of
    [dict.get] and is made before the palette is looked at, so a token
    that is a key of the palette still fails when its text is a tuple
    with other than three numbers. *)
Theorem palette_key_is_parsed_first :
  dget "(1,2)" [("(1,2)", VStr "#FF0000")] = Some (VStr "#FF0000") /\
  FileParser.resolve (VRef 0) (VStr "(1,2)") [ODict [("(1,2)", VStr "#FF0000")]]
  = Raise ValueError /\
  FileParser.new tuple_name_background [] = Raise ValueError /\
  FileParser.new tuple_name_figure [] = Raise ValueError.
Proof. repeat split. Qed.

(** When the literal parse does not raise, the palette wins. *)
Lemma resolve_palette_hit (lp : loc) (pd : dict) (s : string) (c literal : val)
    (h : heap) :
  h !! lp = Some (ODict pd) ->
  dget s pd = Some c ->
  FileParser._parse_color (VStr s) = Ok literal ->
  FileParser.resolve (VRef lp) (VStr s) h = Ok (c, h).
Proof. intros Hp Hs Hl. now rewrite (resolve_str lp pd s h Hp), Hl, Hs. Qed.

(** A figure without a colour gets the already resolved [fg_color] as
    its token: a tuple is not a string. *)
Lemma default_tuple_raises (palette screen : val) (l : loc) (d : dict)
    (t : val) (r g b : Z) (h : heap) :
  let h1 := <[l := ODict (ddel "type" d)]> h in
  h !! l = Some (ODict d) ->
  dget "type" d = Some t ->
  dget "color" d = None ->
  getitem screen "fg_color" h1 = Ok (VRgb r g b, h1) ->
  FileParser._parse_figure palette screen (VRef l) h = Raise AttributeError.
Proof.
  intros h1 Hl Ht Hc Hfg.
  rewrite (parse_figure_eq palette screen l d t h Hl Ht). fold h1.
  rewrite Hfg, dget_ddel_ne, Hc by discriminate. simpl default.
  rewrite resolve_not_str; [reflexivity | discriminate].
Qed.

(** C3 does not hold of the code: the default colour of a figure is the
    resolved [fg_color], and it is resolved once more. A tuple raises
    [AttributeError] there, and a hex string that is a name of the
    palette becomes another colour. *)
Theorem default_colour_is_resolved_again :
  FileParser.new tuple_foreground [] = Raise AttributeError /\
  exists fp h,
    FileParser.new chained_foreground [] = Ok (fp, h) /\
    getitem (FileParser.screen_parameters fp) "fg_color" h
    = Ok (VStr "#00FF00", h) /\
    FileParser.figures fp = [PointObj (VStr "#0000FF") (VInt 5) (VInt 5)].
Proof.
  split; [reflexivity |]. do 2 eexists. split; [reflexivity |].
  split; reflexivity.
Qed.

(** ** The order of drawing *)

Section RenderFacts.

Variable colour : Type.
Variable paint : draw_call -> Z * Z -> option colour.

Lemma render_untouched (calls : list draw_call) (image : Z * Z -> colour)
    (p : Z * Z) :
  (forall k call, calls !! k = Some call -> paint call p = None) ->
  render colour paint image calls p = image p.
Proof.
  revert image. induction calls as [|call calls IH]; intros image Hno;
    [reflexivity |].
  unfold render in *. simpl. rewrite IH.
  - unfold apply_call. now rewrite (Hno 0%nat call eq_refl).
  - intros k call' Hk. apply (Hno (S k) call' Hk).
Qed.

(** The last call that paints a pixel decides its colour. *)
Lemma render_last (calls : list draw_call) (image : Z * Z -> colour)
    (p : Z * Z) (j : nat) (call : draw_call) (c : colour) :
  calls !! j = Some call ->
  paint call p = Some c ->
  (forall k call', (j < k)%nat -> calls !! k = Some call' ->
                   paint call' p = None) ->
  render colour paint image calls p = c.
Proof.
  revert image j. induction calls as [|call0 calls IH]; intros image j Hj Hc Hno;
    [discriminate |].
  destruct j as [|j]; simpl in Hj.
  - inversion Hj; subst call0. unfold render. simpl.
    fold (render colour paint (apply_call colour paint image call) calls).
    rewrite render_untouched.
    + unfold apply_call. now rewrite Hc.
    + intros k call' Hk. apply (Hno (S k) call'); [lia | exact Hk].
  - unfold render. simpl. apply (IH _ j Hj Hc).
    intros k call' Hlt Hk. apply (Hno (S k) call'); [lia | exact Hk].
Qed.

End RenderFacts.

Lemma mapM_iter_heap (vs : list val) :
  forall h h' xs, mapM iter vs h = Ok (xs, h') -> h' = h.
Proof.
  induction vs as [|v vs IH]; intros h h' xs H.
  - now inversion H.
  - cbn [mapM] in H. apply bind_Ok in H as (x & h1 & Hx & H).
    apply bind_Ok in H as (ys & h2 & Hys & H). inversion H; subst.
    apply iter_heap in Hx as ->. eauto.
Qed.

(** Drawing reads the heap and leaves it as it is. *)
Lemma draw_heap (s : shape) (h h' : heap) (call : draw_call) :
  draw s h = Ok (call, h') -> h' = h.
Proof.
  destruct s; simpl.
  - unfold Point.draw, ret. congruence.
  - unfold Circle.draw, lift. destruct (_ <~ _ ;; _)%py; congruence.
  - unfold Rectangle.draw, lift. destruct (_ <~ _ ;; _)%py; congruence.
  - unfold Polygon.draw. intros H.
    apply bind_Ok in H as (pts & h1 & Hp & H).
    apply bind_Ok in H as (xys & h2 & Hx & H). inversion H; subst.
    apply iter_heap in Hp as ->. now apply mapM_iter_heap in Hx.
Qed.

Lemma request_Ok (raises : event -> option exn) (ev : event) (rest : run)
    (trace : list event) :
  request raises ev rest = (trace, Ok tt) ->
  exists trace', trace = ev :: trace' /\ rest = (trace', Ok tt).
Proof.
  unfold request. destruct (raises ev); [discriminate |].
  destruct rest as [trace' r]. simpl. intros H; inversion H; subst. eauto.
Qed.

Lemma draw_figures_Ok (raises : event -> option exn) (figures : list shape)
    (h : heap) (rest : run) :
  forall trace,
    draw_figures raises figures h rest = (trace, Ok tt) ->
    exists calls trace',
      Forall2 (fun s call => draw s h = Ok (call, h)) figures calls /\
      trace = map Surface calls ++ trace' /\ rest = (trace', Ok tt).
Proof.
  induction figures as [|s figures IH]; intros trace H; simpl in H.
  - exists [], trace. split; [constructor | auto].
  - destruct (draw s h) as [[call h1] | e] eqn:Hs; [| discriminate].
    pose proof (draw_heap s h h1 call Hs) as ->.
    apply request_Ok in H as (trace1 & -> & H).
    destruct (IH trace1 H) as (calls & trace' & Hall & -> & Hrest).
    exists (call :: calls), trace'. split; [constructor; assumption | auto].
Qed.

Lemma surface_calls_map (calls : list draw_call) (trace : list event) :
  surface_calls (map Surface calls ++ trace) = calls ++ surface_calls trace.
Proof.
  induction calls as [|call calls IH]; simpl; [reflexivity |].
  unfold surface_calls in *. simpl. now rewrite IH.
Qed.

(** A run of [main] that ends well has drawn every figure of the parser
    once, in the order of [fp.figures]. *)
Lemma main_Ok (raises : event -> option exn) (doc : json)
    (output : option string) (fp : FileParser.self) (h : heap)
    (trace : list event) :
  FileParser.new doc [] = Ok (fp, h) ->
  main raises doc output = (trace, Ok tt) ->
  Forall2 (fun s call => draw s h = Ok (call, h)) (FileParser.figures fp)
    (surface_calls trace).
Proof.
  intros Hnew H. unfold main in H. rewrite Hnew in H.
  destruct (FileParser.kwargs_of _ h) as [[kwargs ?] | e]; [| discriminate].
  unfold ImageManager_new in H.
  destruct (bind_kwargs ImageManager.parameters kwargs)
    as [[|w [|ht [|bg [|fg [|? ?]]]]] | e]; try discriminate.
  apply request_Ok in H as (t1 & -> & H).
  apply request_Ok in H as (t2 & -> & H).
  apply draw_figures_Ok in H as (calls & t3 & Hall & -> & H).
  apply request_Ok in H as (t4 & -> & H).
  assert (Hsave : surface_calls t4 = []).
  { unfold save in H. destruct output as [[|c f] |].
    - inversion H; reflexivity.
    - apply request_Ok in H as (t5 & -> & H). inversion H; reflexivity.
    - inversion H; reflexivity. }
  change (surface_calls (Image_new (w, ht) bg :: ImageDraw_Draw ::
                           map Surface calls ++ Image_show :: t4))
    with (surface_calls (map Surface calls ++ Image_show :: t4)).
  rewrite surface_calls_map.
  change (surface_calls (Image_show :: t4)) with (surface_calls t4).
  rewrite Hsave, app_nil_r. exact Hall.
Qed.

(** C9. The shapes of the parser are, in order, what [_parse_figure]
    makes of the entries of the ["Figures"] list of the input; the
    driver draws them in that order, one call each; and on a surface
    where a call overwrites the pixels it reaches, a pixel ends with the
    colour given by the last call that reaches it. *)
Theorem figures_drawn_in_order (raises : event -> option exn) (doc : json)
    (output : option string) (raw : val) (h h' : heap) (fp : FileParser.self)
    (trace : list event) :
  json_load doc [] = Ok (raw, h) ->
  FileParser.__init__ raw h = Ok (fp, h') ->
  main raises doc output = (trace, Ok tt) ->
  (exists raw_figures entries,
     getitem raw "Figures" h = Ok (raw_figures, h) /\
     iter raw_figures h = Ok (entries, h) /\
     Forall2 (parsed_from h h') entries (FileParser.figures fp)) /\
  Forall2 (fun s call => draw s h' = Ok (call, h')) (FileParser.figures fp)
    (surface_calls trace) /\
  forall (colour : Type) (paint : draw_call -> Z * Z -> option colour)
         (background : Z * Z -> colour) (p : Z * Z) (j : nat)
         (call : draw_call) (c : colour),
    surface_calls trace !! j = Some call ->
    paint call p = Some c ->
    (forall k call', (j < k)%nat -> surface_calls trace !! k = Some call' ->
                     paint call' p = None) ->
    render colour paint background (surface_calls trace) p = c.
Proof.
  intros Hload Hinit Hmain. split; [| split].
  - destruct (json_load_tree doc) as (raw0 & h0 & E & Htree).
    rewrite Hload in E. inversion E; subst raw0 h0; clear E.
    destruct (init_Ok raw h h' fp Htree Hinit)
      as (r & top & lp & ls & sd & bg_token & fg_token & bg & fg & rf
          & es & -> & Hr & _ & _ & _ & _ & _ & _ & _ & _ & _ & _ & Hf
          & Hit & Hall).
    exists rf, es. unfold getitem, deref. rewrite Hr, Hf. auto.
  - apply (main_Ok raises doc output); [| exact Hmain].
    now rewrite (new_eq doc raw h Hload).
  - intros colour paint background p j call c. apply render_last.
Qed.

Lemma figures_drawn_in_order_witness :
  exists trace,
    main (fun _ => None) two_circles None = (trace, Ok tt) /\
    render val box_paint (fun _ => VStr "#000000") (surface_calls trace)
      (5, 5)%Z
    = VStr "#0000FF".
Proof.
  eexists. split; [reflexivity |].
  refine (proj2 (proj2 (figures_drawn_in_order (fun _ => None) two_circles
                          None _ _ _ _ _ eq_refl eq_refl eq_refl))
            val box_paint _ (5, 5)%Z 1%nat _ _ eq_refl eq_refl _).
  intros k call' Hk Hl. destruct k as [|[|k]]; [lia | lia | discriminate Hl].
Defined.

(** * Further properties *)

(** ** The literal parse: what it returns and when it raises *)

Lemma all_digits_app (a b : string) :
  all_digits (a +:+ b) = all_digits a && all_digits b.
Proof.
  induction a as [|c a IH]; [reflexivity |].
  cbn [String.append]. rewrite !all_digits_cons, IH. apply andb_assoc.
Qed.

Lemma no_digit_app (a b : string) :
  no_digit (a +:+ b) = no_digit a && no_digit b.
Proof.
  induction a as [|c a IH]; [reflexivity |].
  cbn [String.append]. rewrite !no_digit_cons, IH. apply andb_assoc.
Qed.

Lemma digit_value_bounds (c : ascii) :
  is_digit c = true -> (0 <= digit_value c <= 9)%Z.
Proof.
  unfold is_digit, digit_value. intros H.
  apply andb_prop in H as [H1 H2].
  apply Nat.leb_le in H1, H2. lia.
Qed.

Lemma int_from_nonneg (s : string) :
  forall acc, all_digits s = true -> (0 <= acc)%Z -> (0 <= int_from acc s)%Z.
Proof.
  induction s as [|c s IH]; intros acc Hs Hacc; [assumption |].
  rewrite all_digits_cons in Hs. apply andb_prop in Hs as [Hc Hs].
  cbn [int_from]. apply IH; [assumption |].
  pose proof (digit_value_bounds c Hc). lia.
Qed.

(** The runs [findall] returns are made of digits. *)
Lemma findall_digits_all (s : string) :
  Forall (fun r => all_digits r = true) (findall_digits s).
Proof.
  destruct (split_exists s) as (sep0 & runs & H0 & Hruns & ->).
  rewrite (findall_split sep0 runs H0 Hruns). clear sep0 H0.
  induction runs as [|[r sep] rest IH]; [constructor |].
  cbn [well_split] in Hruns. destruct Hruns as (_ & Hr & _ & _ & Hrest).
  constructor; auto.
Qed.

Lemma not_str_startswith (v : val) (p : string) :
  (forall s, v <> VStr s) -> startswith v p = Raise AttributeError.
Proof.
  intros Hv. destruct v as [| | | s | |]; try reflexivity. now destruct (Hv s).
Qed.

(** X1. [_parse_color] raises in these cases only: [AttributeError] on a
    value that is not a string (it has no [startswith]), and [ValueError]
    on a string that starts with [(] and does not hold exactly three runs
    of digits, or holds a run of more than 4300 digits. On every other
    string it returns. *)
Theorem parse_color_raises (v : val) (e : exn) :
  FileParser._parse_color v = Raise e <->
  ((forall s, v <> VStr s) /\ e = AttributeError) \/
  (exists s, v = VStr s /\ String.prefix "(" s = true /\
             (List.length (findall_digits s) <> 3%nat \/
              Exists (fun run => (int_max_str_digits < String.length run)%nat)
                (findall_digits s)) /\
             e = ValueError).
Proof.
  split.
  - intros H. destruct v as [| b | n | s | r g b | l];
      try (left; split; [intros s0; discriminate | now inversion H]).
    right. exists s. destruct (String.prefix "(" s) eqn:Hp.
    + rewrite (parse_color_paren s Hp) in H.
      destruct (findall_digits s) as [|r [|g [|b [|? ?]]]];
        try (inversion H; repeat split; auto; left; simpl; lia).
      destruct (int_triple r g b) as [[_ E] | [Hlong E]]; rewrite E in H;
        [discriminate |].
      inversion H. repeat split; auto.
    + unfold FileParser._parse_color in H. cbn [startswith rbind] in H.
      rewrite Hp in H. destruct (String.prefix "#" s); discriminate.
  - intros [[Hv ->] | (s & -> & Hp & Hn & ->)].
    + now apply parse_color_not_str.
    + rewrite (parse_color_paren s Hp).
      destruct (findall_digits s) as [|r [|g [|b [|? ?]]]]; try reflexivity.
      destruct Hn as [Hn | Hlong]; [now destruct Hn |].
      destruct (int_triple r g b) as [[Hshort _] | [_ E]]; [| exact E].
      destruct (short_not_long _ Hshort Hlong).
Qed.

(** X2. What [_parse_color] returns is the token itself when it starts with
    [#], a triple of numbers none of which is negative when it starts
    with [(] (the values of its three runs of digits, none of more than
    4300 digits), and [None] for any other string. *)
Theorem parse_color_result (v c : val) :
  FileParser._parse_color v = Ok c ->
  exists s,
    v = VStr s /\
    ((String.prefix "#" s = true /\ c = VStr s) \/
     (String.prefix "#" s = false /\ String.prefix "(" s = true /\
      exists r g b, findall_digits s = [r; g; b] /\
                    Forall (fun run =>
                              (String.length run <= int_max_str_digits)%nat)
                      [r; g; b] /\
                    c = VRgb (decimal r) (decimal g) (decimal b) /\
                    (0 <= decimal r)%Z /\ (0 <= decimal g)%Z /\
                    (0 <= decimal b)%Z) \/
     (String.prefix "#" s = false /\ String.prefix "(" s = false /\
      c = VNone)).
Proof.
  intros H. destruct v as [| b | n | s | r g b | l]; try discriminate.
  exists s. split; [reflexivity |].
  destruct (String.prefix "(" s) eqn:Hp.
  - right. left. rewrite (parse_color_paren s Hp) in H.
    split; [now apply paren_not_hash |]. split; [reflexivity |].
    pose proof (findall_digits_all s) as Hall.
    destruct (findall_digits s) as [|r [|g [|b [|? ?]]]]; try discriminate.
    destruct (int_triple r g b) as [[Hshort E] | [_ E]]; rewrite E in H;
      [| discriminate].
    inversion H; subst c; clear H.
    apply Forall_cons in Hall as [Hr Hall].
    apply Forall_cons in Hall as [Hg Hall].
    apply Forall_cons in Hall as [Hb _].
    exists r, g, b. unfold decimal.
    repeat split; auto; apply int_from_nonneg; auto; lia.
  - unfold FileParser._parse_color in H. cbn [startswith rbind] in H.
    rewrite Hp in H.
    destruct (String.prefix "#" s); inversion H; auto.
Qed.

Lemma parse_color_result_witness :
  exists s,
    VStr "(-1, 2, 3)" = VStr s /\
    ((String.prefix "#" s = true /\ VRgb 1 2 3 = VStr s) \/
     (String.prefix "#" s = false /\ String.prefix "(" s = true /\
      exists r g b, findall_digits s = [r; g; b] /\
                    Forall (fun run =>
                              (String.length run <= int_max_str_digits)%nat)
                      [r; g; b] /\
                    VRgb 1 2 3 = VRgb (decimal r) (decimal g) (decimal b) /\
                    (0 <= decimal r)%Z /\ (0 <= decimal g)%Z /\
                    (0 <= decimal b)%Z) \/
     (String.prefix "#" s = false /\ String.prefix "(" s = false /\
      VRgb 1 2 3 = VNone)).
Proof. apply (parse_color_result (VStr "(-1, 2, 3)")). reflexivity. Defined.

(** ** Decimal numerals *)

Lemma pretty_N_char_digit (m : N) :
  (m < 10)%N ->
  is_digit (pretty_N_char m) = true /\
  digit_value (pretty_N_char m) = Z.of_N m.
Proof.
  intros Hm.
  assert (m = 0 \/ m = 1 \/ m = 2 \/ m = 3 \/ m = 4 \/ m = 5 \/ m = 6 \/
          m = 7 \/ m = 8 \/ m = 9)%N as H by lia.
  repeat (destruct H as [-> | H]; [split; reflexivity |]).
  subst m. split; reflexivity.
Qed.

Lemma length_append (a b : string) :
  String.length (a +:+ b) = (String.length a + String.length b)%nat.
Proof. induction a as [|c a IH]; simpl; [reflexivity | now rewrite IH]. Qed.

(** The digits [pretty] puts in front of [s] for [x], most significant
    first: what they are worth, and how many they are. *)
Lemma pretty_N_go_digits (x : N) :
  exists r,
    (forall s, pretty_N_go x s = r +:+ s) /\
    all_digits r = true /\
    ((0 < x)%N -> r <> EmptyString) /\
    (forall acc,
       int_from acc r
       = (acc * 10 ^ Z.of_nat (String.length r) + Z.of_N x)%Z) /\
    forall k, (Z.of_N x < 10 ^ Z.of_nat k)%Z -> (String.length r <= k)%nat.
Proof.
  induction (N.lt_wf_0 x) as [x _ IH].
  destruct (N.eq_dec x 0%N) as [-> | Hx].
  - exists EmptyString. repeat split; try reflexivity; [lia | | simpl; lia].
    intros acc. simpl. lia.
  - assert (Hpos : (0 < x)%N) by lia.
    destruct (IH (x / 10)%N) as (r & Hgo & Hr & _ & Hint & Hlen).
    { apply N.div_lt; lia. }
    destruct (pretty_N_char_digit (x mod 10)%N) as [Hd Hv].
    { apply N.mod_lt. lia. }
    exists (r +:+ String (pretty_N_char (x mod 10)%N) EmptyString).
    split; [| split; [| split; [| split]]].
    + intros s. rewrite pretty_N_go_step by assumption.
      now rewrite Hgo, append_assoc.
    + rewrite all_digits_app, Hr, all_digits_cons, Hd. reflexivity.
    + intros _. destruct r; discriminate.
    + intros acc. rewrite int_from_app, Hint. cbn [int_from]. rewrite Hv.
      rewrite length_append. cbn [String.length].
      rewrite Nat.add_1_r, Nat2Z.inj_succ, Z.pow_succ_r by lia.
      pose proof (N.div_mod x 10%N ltac:(lia)) as Hdm.
      rewrite N2Z.inj_div, N2Z.inj_mod. change (Z.of_N 10) with 10%Z.
      pose proof (Z.div_mod (Z.of_N x) 10 ltac:(lia)). lia.
    + intros k Hk. rewrite length_append. cbn [String.length].
      destruct k as [|k]; [simpl in Hk; lia |].
      rewrite Nat2Z.inj_succ, Z.pow_succ_r in Hk by lia.
      assert (String.length r <= k)%nat; [| lia].
      apply Hlen. rewrite N2Z.inj_div. change (Z.of_N 10) with 10%Z.
      apply Z.div_lt_upper_bound; lia.
Qed.

(** [int(str(n))] is [n]: [pretty] writes a natural number the way
    [str] does, with as many digits as the number needs. *)
Lemma int_pretty_N (n : N) :
  pretty n <> EmptyString /\ all_digits (pretty n) = true /\
  decimal (pretty n) = Z.of_N n /\
  forall k, (0 < k)%nat -> (Z.of_N n < 10 ^ Z.of_nat k)%Z ->
            (String.length (pretty n) <= k)%nat.
Proof.
  unfold pretty, pretty_N. destruct (decide (n = 0%N)) as [-> | Hn].
  - repeat split; [discriminate |]. intros k Hk _. simpl. lia.
  - destruct (pretty_N_go_digits n) as (r & Hgo & Hr & Hne & Hint & Hlen).
    rewrite Hgo, append_nil_r. split; [apply Hne; lia |].
    split; [assumption |]. split; [unfold decimal; rewrite Hint; lia |].
    intros k _. apply Hlen.
Qed.

(** [str] of an integer: a minus sign for a negative one, then the
    numeral of its absolute value. *)
Lemma pretty_Z_sign (z : Z) :
  pretty z = (if (z <? 0)%Z then "-" else "") +:+ pretty (Z.abs_N z).
Proof. destruct z; reflexivity. Qed.

(** X3. The text of a tuple of three integers of at most 4300 digits
    each, as [str((r, g, b))] writes it, or with other text without
    digits between the numerals, is read back as the triple of their
    absolute values: the parse looks at the digits only, so a
    non-negative triple comes back as it is, and a minus sign is lost. *)
Theorem parse_color_decimal (r g b : Z) (s1 s2 s3 : string) :
  (Z.abs r < 10 ^ Z.of_nat int_max_str_digits)%Z ->
  (Z.abs g < 10 ^ Z.of_nat int_max_str_digits)%Z ->
  (Z.abs b < 10 ^ Z.of_nat int_max_str_digits)%Z ->
  s1 <> EmptyString -> no_digit s1 = true ->
  s2 <> EmptyString -> no_digit s2 = true ->
  no_digit s3 = true ->
  FileParser._parse_color
    (VStr ("(" +:+ pretty r +:+ s1 +:+ pretty g +:+ s2 +:+ pretty b +:+ s3))
  = Ok (VRgb (Z.abs r) (Z.abs g) (Z.abs b)).
Proof.
  intros Hr Hg Hb Hne1 Hs1 Hne2 Hs2 Hs3.
  assert (Hmax : (0 < int_max_str_digits)%nat)
    by (apply Nat.ltb_lt; reflexivity).
  destruct (int_pretty_N (Z.abs_N r)) as (Hr0 & Hr1 & Hr2 & Hr3).
  destruct (int_pretty_N (Z.abs_N g)) as (Hg0 & Hg1 & Hg2 & Hg3).
  destruct (int_pretty_N (Z.abs_N b)) as (Hb0 & Hb1 & Hb2 & Hb3).
  rewrite N2Z.inj_abs_N in *.
  set (sign := fun z : Z => if (z <? 0)%Z then "-" else "").
  assert (Hsign : forall z, no_digit (sign z) = true)
    by (intros z; unfold sign; destruct (z <? 0)%Z; reflexivity).
  pose (runs := [(pretty (Z.abs_N r), s1 +:+ sign g);
                 (pretty (Z.abs_N g), s2 +:+ sign b);
                 (pretty (Z.abs_N b), s3)]).
  assert (Htok : "(" +:+ pretty r +:+ s1 +:+ pretty g +:+ s2 +:+ pretty b +:+ s3
                 = ("(" +:+ sign r) +:+ join runs).
  { rewrite !pretty_Z_sign. fold (sign r) (sign g) (sign b).
    unfold runs. cbn [join]. rewrite !append_assoc, append_nil_r.
    reflexivity. }
  assert (Hsplit : well_split runs).
  { unfold runs. cbn [well_split]. rewrite !no_digit_app, !Hsign, Hs1, Hs2.
    repeat split; auto; right; intros E;
      [destruct s1 | destruct s2]; simpl in E; congruence. }
  assert (Hpre : String.prefix "(" (("(" +:+ sign r) +:+ join runs) = true)
    by (cbn [String.append]; destruct (sign r +:+ join runs); reflexivity).
  rewrite Htok, (parse_color_paren _ Hpre), findall_split; auto.
  - unfold runs. simpl map. cbv iota.
    rewrite !int_Ok by auto. cbn [rbind]. now rewrite Hr2, Hg2, Hb2.
  - rewrite no_digit_app, Hsign. reflexivity.
Qed.

Lemma parse_color_decimal_witness :
  FileParser._parse_color (VStr "(255, -7, 1000)") = Ok (VRgb 255 7 1000).
Proof.
  apply (parse_color_decimal 255 (-7) 1000 ", " ", " ")");
    solve [reflexivity | discriminate | apply Z.ltb_lt; vm_compute; reflexivity].
Defined.

(** ** What the [draw] methods accept *)

Lemma no_number_None (v : val) : no_number v = true -> as_number v = None.
Proof. destruct v; solve [reflexivity | discriminate]. Qed.

(** X4. [Point.draw] always makes its call. The [draw] of a circle, a
    rectangle or a square makes its call when every attribute it computes
    with is an [int] or a [bool], and raises [TypeError] when, of these
    attributes in the order in which it uses them, the first that is no
    [int] or [bool] is [None], a string, a tuple, a list or a dictionary;
    the colour plays no part. *)
Theorem draw_accepts_numbers (s : shape) (h : heap) :
  (forall color x y,
     s = PointObj color x y -> draw s h = Ok (point (x, y) color, h)) /\
  ((forall color points, s <> PolygonObj color points) ->
   Forall (fun v => is_Some (as_number v)) (arithmetic_fields s) ->
   exists call, draw s h = Ok (call, h)) /\
  (forall pre v post,
     arithmetic_fields s = pre ++ v :: post ->
     Forall (fun v => is_Some (as_number v)) pre ->
     no_number v = true ->
     draw s h = Raise TypeError).
Proof.
  split; [| split].
  - intros color x y ->. reflexivity.
  - intros Hs. destruct s as [c x y | c x y r | cls c x y ht w | c pts];
      cbn [arithmetic_fields draw].
    + intros _. eexists; reflexivity.
    + rewrite !Forall_cons. intros ([nx Hx] & [nr Hr] & [ny Hy] & _).
      unfold Circle.draw, lift, py_sub, py_add. rewrite Hx, Hr, Hy.
      eexists; reflexivity.
    + rewrite !Forall_cons.
      intros ([nw Hw] & [nx Hx] & [nh Hh] & [ny Hy] & _).
      unfold Rectangle.draw, lift, py_sub, py_add, py_floordiv2.
      rewrite Hw, Hx, Hh, Hy. eexists; reflexivity.
    + now destruct (Hs c pts).
  - intros pre v post Hf Hpre Hv. apply no_number_None in Hv.
    destruct s as [c x y | c x y r | cls c x y ht w | c pts];
      cbn [arithmetic_fields draw] in *.
    + destruct pre; discriminate.
    + unfold Circle.draw, lift, py_sub, py_add.
      destruct pre as [|a [|b [|c0 [|? ?]]]]; inversion Hf; subst;
        repeat (apply Forall_cons in Hpre as [[? ->] Hpre]);
        rewrite ?Hv; cbn [rbind as_number]; try reflexivity;
        now destruct (as_number _).
    + unfold Rectangle.draw, lift, py_sub, py_add, py_floordiv2.
      destruct pre as [|a [|b [|c0 [|d0 [|? ?]]]]]; inversion Hf; subst;
        repeat (apply Forall_cons in Hpre as [[? ->] Hpre]);
        rewrite ?Hv; cbn [rbind as_number]; try reflexivity;
        now destruct (as_number _).
    + destruct pre; discriminate.
Qed.

(** A circle whose radius is a text. *)
Lemma draw_accepts_numbers_witness :
  draw (CircleObj VNone (VInt 5) (VInt 5) (VStr "big")) [] = Raise TypeError.
Proof.
  apply (proj2 (proj2 (draw_accepts_numbers
                         (CircleObj VNone (VInt 5) (VInt 5) (VStr "big")) []))
           [VInt 5] (VStr "big") [VInt 5]).
  - reflexivity.
  - apply Forall_cons. split; [eexists; reflexivity | apply Forall_nil_2].
  - reflexivity.
Defined.

Lemma mapM_iter_lists (h : heap) (ps : list val) (xys : list (list val)) :
  Forall2 (fun p xy => exists l, p = VRef l /\ h !! l = Some (OList xy)) ps xys ->
  mapM iter ps h = Ok (xys, h).
Proof.
  induction 1 as [|p xy ps xys (l & -> & Hl) _ IH]; [reflexivity |].
  cbn [mapM]. unfold bind at 1. unfold iter at 1. rewrite Hl.
  unfold bind at 1. now rewrite IH.
Qed.

Lemma mapM_iter_scalar (h : heap) (ps : list val) :
  Exists (fun p => p = VNone \/ is_Some (as_number p)) ps ->
  mapM iter ps h = Raise TypeError.
Proof.
  induction 1 as [p ps Hp | p ps _ IH]; cbn [mapM]; unfold bind at 1.
  - destruct Hp as [-> | [n Hn]]; [reflexivity |].
    destruct p; try discriminate; reflexivity.
  - destruct (iter p h) as [[x h1] | e] eqn:Hp.
    + apply iter_heap in Hp as ->. unfold bind at 1. now rewrite IH.
    + f_equal. unfold iter in Hp. destruct p; try congruence.
      destruct (h !! l) as [[] |]; congruence.
Qed.

(** X5. [Polygon.draw] hands the surface one flat list: the elements of the
    first point, then those of the second, and so on, however many each
    point has; a point that is a number or [None] stops it with
    [TypeError]. *)
Theorem polygon_draw_flattens (color : val) (l : loc) (ps : list val)
    (h : heap) :
  h !! l = Some (OList ps) ->
  (forall xys,
     Forall2 (fun p xy => exists l', p = VRef l' /\ h !! l' = Some (OList xy))
       ps xys ->
     draw (Polygon.__init__ (VRef l) color) h
     = Ok (polygon (concat xys) color, h)) /\
  (Exists (fun p => p = VNone \/ is_Some (as_number p)) ps ->
   draw (Polygon.__init__ (VRef l) color) h = Raise TypeError).
Proof.
  intros Hl. split.
  - intros xys Hall. simpl. unfold Polygon.draw, bind, iter at 1.
    rewrite Hl. now rewrite (mapM_iter_lists h ps xys Hall).
  - intros Hex. simpl. unfold Polygon.draw, bind, iter at 1.
    rewrite Hl. now rewrite (mapM_iter_scalar h ps Hex).
Qed.

(** The triangle [[[0, 0], [4, 0], [2, 3]]]. *)
Lemma polygon_draw_flattens_witness :
  draw (Polygon.__init__ (VRef 3) (VStr "#FFFFFF"))
    [OList [VInt 0; VInt 0]; OList [VInt 4; VInt 0]; OList [VInt 2; VInt 3];
     OList [VRef 0; VRef 1; VRef 2]]
  = Ok (polygon [VInt 0; VInt 0; VInt 4; VInt 0; VInt 2; VInt 3]
          (VStr "#FFFFFF"),
        [OList [VInt 0; VInt 0]; OList [VInt 4; VInt 0];
         OList [VInt 2; VInt 3]; OList [VRef 0; VRef 1; VRef 2]]).
Proof.
  refine (proj1 (polygon_draw_flattens (VStr "#FFFFFF") 3
                   [VRef 0; VRef 1; VRef 2]
                   [OList [VInt 0; VInt 0]; OList [VInt 4; VInt 0];
                    OList [VInt 2; VInt 3]; OList [VRef 0; VRef 1; VRef 2]]
                   eq_refl)
            [[VInt 0; VInt 0]; [VInt 4; VInt 0]; [VInt 2; VInt 3]] _).
  repeat constructor; eexists; split; reflexivity.
Defined.

(** ** Runs of the driver *)

Lemma request_cases (raises : event -> option exn) (ev : event) (rest : run) :
  (exists e, raises ev = Some e /\ request raises ev rest = ([ev], Raise e)) \/
  (raises ev = None /\ request raises ev rest = (ev :: fst rest, snd rest)).
Proof. unfold request. destruct (raises ev); eauto. Qed.

Lemma save_cases (raises : event -> option exn) (output : option string) :
  (save raises output = (save_requests output, Ok tt) /\
   Forall (fun ev => raises ev = None) (save_requests output)) \/
  (exists e, save raises output = (save_requests output, Raise e) /\
             Exists (fun ev => raises ev = Some e) (save_requests output)).
Proof.
  destruct output as [[|c f] |]; simpl; try (left; split; [reflexivity | constructor]).
  unfold request. destruct (raises (Image_save (String c f))) as [e |] eqn:He.
  - right. exists e. split; [reflexivity | now constructor].
  - left. split; [reflexivity | now repeat constructor].
Qed.

(** How the loop over the figures can go: every figure is drawn and the
    run goes on, or the loop ends the run, at a figure whose [draw]
    raises or at a call the library refuses. *)
Lemma draw_figures_cases (raises : event -> option exn) (figures : list shape)
    (h : heap) (rest : run) :
  (exists calls,
     Forall2 (fun s call => draw s h = Ok (call, h)) figures calls /\
     Forall (fun call => raises (Surface call) = None) calls /\
     draw_figures raises figures h rest
     = (map Surface calls ++ fst rest, snd rest)) \/
  (exists calls e,
     Forall2 (fun s call => draw s h = Ok (call, h))
       (take (List.length calls) figures) calls /\
     (List.length calls <= List.length figures)%nat /\
     draw_figures raises figures h rest = (map Surface calls, Raise e) /\
     ((Forall (fun call => raises (Surface call) = None) calls /\
       exists s, figures !! List.length calls = Some s /\ draw s h = Raise e) \/
      exists call, last calls = Some call /\ raises (Surface call) = Some e)).
Proof.
  induction figures as [|s figures IH]; simpl.
  - left. exists []. destruct rest. repeat split; constructor.
  - destruct (draw s h) as [[call h1] | e] eqn:Hs.
    + pose proof (draw_heap s h h1 call Hs) as ->.
      destruct (request_cases raises (Surface call)
                  (draw_figures raises figures h rest)) as [(e & He & ->) | [He ->]].
      * right. exists [call], e. simpl. rewrite take_0.
        repeat split; [repeat constructor; assumption | lia |].
        right. exists call. auto.
      * destruct IH as [(calls & Hall & Hno & ->) | (calls & e & Hall & Hlen & -> & Hend)].
        -- left. exists (call :: calls). simpl.
           repeat split; constructor; assumption.
        -- right. exists (call :: calls), e. simpl.
           repeat split; [constructor; assumption | lia |].
           destruct Hend as [[Hno Hs'] | (call' & Hlast & He')].
           ++ left. split; [constructor; assumption | exact Hs'].
           ++ right. exists call'. split; [| assumption].
              destruct calls; [discriminate | exact Hlast].
    + right. exists [], e. simpl.
      repeat split; [constructor | lia |]. left. split; [constructor | eauto].
Qed.

Lemma bind_kwargs_canvas (kwargs : dict) (args : list val) :
  bind_kwargs ImageManager.parameters kwargs = Ok args ->
  exists width height bg_color,
    dget "width" kwargs = Some width /\ dget "height" kwargs = Some height /\
    dget "bg_color" kwargs = Some bg_color /\
    args = [width; height; bg_color; default VNone (dget "fg_color" kwargs)].
Proof.
  unfold bind_kwargs. destruct (forallb _ _); [| discriminate]. simpl.
  destruct (dget "width" kwargs) as [w |]; [| discriminate].
  destruct (dget "height" kwargs) as [ht |]; [| discriminate].
  destruct (dget "bg_color" kwargs) as [bg |]; [| discriminate].
  destruct (dget "fg_color" kwargs) as [fg |]; simpl;
    intros H; inversion H; eauto 7.
Qed.

(** X6. A run that ends well has asked for the canvas with the ["width"],
    ["height"] and ["bg_color"] the parser left in the screen
    parameters, then for the drawing surface, then for one call for each
    figure, in the order of the figures, then for the image to be shown,
    and last, when there is a non-empty [--output], for the image to be
    saved under that name; and none of these requests was refused. *)
Theorem successful_run (raises : event -> option exn) (doc : json)
    (output : option string) (fp : FileParser.self) (h : heap)
    (trace : list event) :
  FileParser.new doc [] = Ok (fp, h) ->
  main raises doc output = (trace, Ok tt) ->
  exists width height bg_color calls,
    getitem (FileParser.screen_parameters fp) "width" h = Ok (width, h) /\
    getitem (FileParser.screen_parameters fp) "height" h = Ok (height, h) /\
    getitem (FileParser.screen_parameters fp) "bg_color" h = Ok (bg_color, h) /\
    Forall2 (fun s call => draw s h = Ok (call, h)) (FileParser.figures fp)
      calls /\
    trace = script width height bg_color calls output /\
    Forall (fun ev => raises ev = None) trace.
Proof.
  intros Hnew H. unfold main in H. rewrite Hnew in H.
  unfold FileParser.kwargs_of in H. unfold getitem.
  destruct (deref (FileParser.screen_parameters fp) h) as [[kwargs | ?] |];
    try discriminate.
  unfold ImageManager_new in H.
  destruct (bind_kwargs ImageManager.parameters kwargs) as [args | e] eqn:Hb;
    [| discriminate].
  destruct (bind_kwargs_canvas kwargs args Hb) as (w & ht & bg & Hw & Hh & Hbg & ->).
  rewrite Hw, Hh, Hbg. exists w, ht, bg.
  destruct (request_cases raises (Image_new (w, ht) bg)
              (request raises ImageDraw_Draw
                 (draw_figures raises (FileParser.figures fp) h
                    (request raises Image_show (save raises output)))))
    as [(e & _ & E) | [Hn1 E]]; rewrite E in H; clear E; [discriminate |].
  destruct (request_cases raises ImageDraw_Draw
              (draw_figures raises (FileParser.figures fp) h
                 (request raises Image_show (save raises output))))
    as [(e & _ & E) | [Hn2 E]]; rewrite E in H; clear E; [discriminate |].
  destruct (draw_figures_cases raises (FileParser.figures fp) h
              (request raises Image_show (save raises output)))
    as [(calls & Hall & Hno & E) | (calls & e & _ & _ & E & _)];
    rewrite E in H; clear E; [| discriminate].
  destruct (request_cases raises Image_show (save raises output))
    as [(e & _ & E) | [Hn3 E]]; rewrite E in H; clear E; [discriminate |].
  destruct (save_cases raises output) as [[E Hn4] | (e & E & _)];
    rewrite E in H; clear E; [| discriminate].
  simpl in H. inversion H; subst trace; clear H.
  exists calls. repeat split; auto. unfold script.
  repeat (constructor; [assumption |]).
  apply Forall_app. split.
  - apply Forall_map. exact Hno.
  - constructor; assumption.
Qed.

(** The scene of two circles, saved as [out.png]. *)
Lemma successful_run_witness :
  exists width height bg_color calls,
    main (fun _ => None) two_circles (Some "out.png")
    = (script width height bg_color calls (Some "out.png"), Ok tt) /\
    List.length calls = 2%nat.
Proof.
  destruct (successful_run (fun _ => None) two_circles (Some "out.png")
              _ _ _ eq_refl eq_refl)
    as (w & ht & bg & calls & _ & _ & _ & Hall & Htrace & _).
  exists w, ht, bg, calls. split.
  - now rewrite <- Htrace.
  - apply Forall2_length in Hall. now rewrite <- Hall.
Defined.

Lemma save_not_surface (f : string) (calls : list draw_call) :
  Image_save f ∉ map Surface calls.
Proof.
  induction calls as [|call calls IH]; simpl.
  - apply not_elem_of_nil.
  - apply not_elem_of_cons. split; [discriminate | exact IH].
Qed.

Lemma show_not_surface (calls : list draw_call) :
  Image_show ∉ map Surface calls.
Proof.
  induction calls as [|call calls IH]; simpl.
  - apply not_elem_of_nil.
  - apply not_elem_of_cons. split; [discriminate | exact IH].
Qed.

Lemma save_requests_elem (f : string) (output : option string) :
  Image_save f ∈ save_requests output -> output = Some f /\ f <> EmptyString.
Proof.
  destruct output as [[|c g] |]; simpl; intros H;
    try (now apply elem_of_nil in H).
  apply list_elem_of_singleton in H. inversion H. split; [reflexivity | discriminate].
Qed.

(** X7. The image is saved last, if at all: a run that has asked for the
    image to be saved under a name was given that name as [--output],
    and before that it has made the canvas, drawn every figure, and shown
    the image; only the saving itself can still fail. *)
Theorem image_saved_last (raises : event -> option exn) (doc : json)
    (output : option string) (trace : list event) (r : result unit)
    (f : string) :
  main raises doc output = (trace, r) ->
  Image_save f ∈ trace ->
  output = Some f /\ f <> EmptyString /\
  (r = Ok tt \/ exists e, r = Raise e /\ raises (Image_save f) = Some e) /\
  exists fp h width height bg_color calls,
    FileParser.new doc [] = Ok (fp, h) /\
    Forall2 (fun s call => draw s h = Ok (call, h)) (FileParser.figures fp)
      calls /\
    trace = script width height bg_color calls output.
Proof.
  intros H Hin. unfold main in H.
  destruct (FileParser.new doc []) as [[fp h] | e0] eqn:Hnew;
    [| inversion H; subst; now apply elem_of_nil in Hin].
  destruct (FileParser.kwargs_of _ h) as [[kwargs ?] | e0];
    [| inversion H; subst; now apply elem_of_nil in Hin].
  unfold ImageManager_new in H.
  destruct (bind_kwargs ImageManager.parameters kwargs) as [args | e0] eqn:Hb;
    [| inversion H; subst; now apply elem_of_nil in Hin].
  destruct (bind_kwargs_canvas kwargs args Hb) as (w & ht & bg & _ & _ & _ & ->).
  destruct (request_cases raises (Image_new (w, ht) bg)
              (request raises ImageDraw_Draw
                 (draw_figures raises (FileParser.figures fp) h
                    (request raises Image_show (save raises output)))))
    as [(e & _ & E) | [_ E]]; rewrite E in H; clear E.
  { inversion H; subst. apply list_elem_of_singleton in Hin. discriminate. }
  destruct (request_cases raises ImageDraw_Draw
              (draw_figures raises (FileParser.figures fp) h
                 (request raises Image_show (save raises output))))
    as [(e & _ & E) | [_ E]]; rewrite E in H; clear E.
  { inversion H; subst. apply elem_of_cons in Hin as [Hin | Hin];
      [discriminate | apply list_elem_of_singleton in Hin; discriminate]. }
  destruct (draw_figures_cases raises (FileParser.figures fp) h
              (request raises Image_show (save raises output)))
    as [(calls & Hall & _ & E) | (calls & e & _ & _ & E & _)];
    rewrite E in H; clear E.
  2:{ inversion H; subst.
      apply elem_of_cons in Hin as [Hin | Hin]; [discriminate |].
      apply elem_of_cons in Hin as [Hin | Hin]; [discriminate |].
      now apply save_not_surface in Hin. }
  destruct (request_cases raises Image_show (save raises output))
    as [(e & _ & E) | [_ E]]; rewrite E in H; clear E.
  { inversion H; subst.
    apply elem_of_cons in Hin as [Hin | Hin]; [discriminate |].
    apply elem_of_cons in Hin as [Hin | Hin]; [discriminate |].
    apply elem_of_app in Hin as [Hin | Hin]; [now apply save_not_surface in Hin |].
    apply list_elem_of_singleton in Hin. discriminate. }
  assert (Hsave : fst (save raises output) = save_requests output)
    by (destruct (save_cases raises output) as [[-> _] | (e & -> & _)];
        reflexivity).
  simpl in H. rewrite Hsave in H. inversion H; subst trace; clear H.
  apply elem_of_cons in Hin as [Hin | Hin]; [discriminate |].
  apply elem_of_cons in Hin as [Hin | Hin]; [discriminate |].
  apply elem_of_app in Hin as [Hin | Hin]; [now apply save_not_surface in Hin |].
  apply elem_of_cons in Hin as [Hin | Hin]; [discriminate |].
  destruct (save_requests_elem f output Hin) as [-> Hne].
  split; [reflexivity |]. split; [assumption |]. split.
  - destruct f as [|c f]; [congruence |]. simpl. unfold request.
    destruct (raises (Image_save (String c f))) as [e |]; simpl; eauto.
  - exists fp, h, w, ht, bg, calls. auto.
Qed.

Lemma image_saved_last_witness :
  exists trace r,
    main (fun _ => None) two_circles (Some "out.png") = (trace, r) /\
    r = Ok tt /\ last trace = Some (Image_save "out.png").
Proof.
  eexists. eexists. split; [reflexivity |].
  destruct (image_saved_last (fun _ => None) two_circles (Some "out.png")
              _ _ "out.png" eq_refl)
    as (_ & _ & Hr & _).
  - repeat constructor.
  - split; [| reflexivity]. destruct Hr as [Hr | (e & _ & He)];
      [exact Hr | discriminate He].
Defined.

(** X8. When the parse has gone through and the library refuses nothing, a
    run can still end with an exception: [TypeError], raised before the
    canvas is asked for, when the screen parameters are not the
    parameters of [ImageManager], or what the [draw] of a figure raises,
    after the figures before it were drawn. In either case the image is
    neither shown nor saved. *)
Theorem run_fails_before_showing (raises : event -> option exn) (doc : json)
    (output : option string) (fp : FileParser.self) (h : heap)
    (trace : list event) (e : exn) :
  FileParser.new doc [] = Ok (fp, h) ->
  main raises doc output = (trace, Raise e) ->
  Forall (fun ev => raises ev = None) trace ->
  (Image_show ∉ trace) /\ (forall f, Image_save f ∉ trace) /\
  (trace = [] /\ e = TypeError \/
   exists width height bg_color calls s,
     trace = Image_new (width, height) bg_color :: ImageDraw_Draw ::
             map Surface calls /\
     Forall2 (fun s call => draw s h = Ok (call, h))
       (take (List.length calls) (FileParser.figures fp)) calls /\
     FileParser.figures fp !! List.length calls = Some s /\
     draw s h = Raise e).
Proof.
  intros Hnew H Hquiet. unfold main in H. rewrite Hnew in H.
  assert (Hnil : forall e0, ([] : list event, Raise e0 : result unit) = (trace, Raise e) ->
                 e0 = TypeError ->
                 (Image_show ∉ trace) /\
                 (forall f, Image_save f ∉ trace) /\ trace = [] /\
                 e = TypeError).
  { intros e0 E ->. inversion E; subst.
    split; [apply not_elem_of_nil |].
    split; [intros f; apply not_elem_of_nil | split; reflexivity]. }
  unfold FileParser.kwargs_of in H.
  destruct (deref (FileParser.screen_parameters fp) h) as [[kwargs | ?] |];
    try (destruct (Hnil _ H eq_refl) as (? & ? & ? & ?); now auto).
  unfold ImageManager_new in H.
  destruct (bind_kwargs ImageManager.parameters kwargs) as [args | e0] eqn:Hb.
  2:{ assert (e0 = TypeError) as ->.
      { unfold bind_kwargs in Hb. destruct (forallb _ _); [| congruence].
        simpl in Hb.
        repeat (match type of Hb with
                | context [dget ?q kwargs] => destruct (dget q kwargs); simpl in Hb
                end); congruence. }
      destruct (Hnil _ H eq_refl) as (? & ? & ? & ?); now auto. }
  destruct (bind_kwargs_canvas kwargs args Hb) as (w & ht & bg & _ & _ & _ & ->).
  destruct (request_cases raises (Image_new (w, ht) bg)
              (request raises ImageDraw_Draw
                 (draw_figures raises (FileParser.figures fp) h
                    (request raises Image_show (save raises output)))))
    as [(e1 & He1 & E) | [_ E]]; rewrite E in H; clear E.
  { inversion H; subst. apply Forall_cons in Hquiet as [Hq _]. congruence. }
  destruct (request_cases raises ImageDraw_Draw
              (draw_figures raises (FileParser.figures fp) h
                 (request raises Image_show (save raises output))))
    as [(e1 & He1 & E) | [_ E]]; rewrite E in H; clear E.
  { inversion H; subst. apply Forall_cons in Hquiet as [_ Hq].
    apply Forall_cons in Hq as [Hq _]. congruence. }
  destruct (draw_figures_cases raises (FileParser.figures fp) h
              (request raises Image_show (save raises output)))
    as [(calls & Hall & _ & E) | (calls & e1 & Hall & _ & E & Hend)];
    rewrite E in H; clear E.
  - exfalso.
    destruct (request_cases raises Image_show (save raises output))
      as [(e1 & He1 & E) | [_ E]]; rewrite E in H; clear E;
      simpl in H; inversion H; subst; clear H;
      apply Forall_cons in Hquiet as [_ Hq];
      apply Forall_cons in Hq as [_ Hq];
      apply Forall_app in Hq as [_ Hq].
    + apply Forall_cons in Hq as [Hq _]. congruence.
    + apply Forall_cons in Hq as [_ Hq].
      destruct (save_cases raises output) as [[E _] | (e1 & E & Hex)];
        rewrite E in *; simpl in *; [congruence |].
      apply Exists_exists in Hex as (ev & Hin & Hev).
      rewrite Forall_forall in Hq. apply Hq in Hin. congruence.
  - simpl in H. inversion H; subst trace e1; clear H.
    apply Forall_cons in Hquiet as [_ Hq]. apply Forall_cons in Hq as [_ Hq].
    destruct Hend as [[_ (s & Hs & Hraise)] | (call & Hlast & He)].
    + split; [| split].
      * intros Hin.
        apply elem_of_cons in Hin as [Hin | Hin]; [discriminate |].
        apply elem_of_cons in Hin as [Hin | Hin]; [discriminate |].
        now apply show_not_surface in Hin.
      * intros f Hin.
        apply elem_of_cons in Hin as [Hin | Hin]; [discriminate |].
        apply elem_of_cons in Hin as [Hin | Hin]; [discriminate |].
        now apply save_not_surface in Hin.
      * right. exists w, ht, bg, calls, s. auto.
    + exfalso. rewrite Forall_forall in Hq.
      assert (Hin : Surface call ∈ map Surface calls).
      { apply list_elem_of_In, in_map, list_elem_of_In.
        apply last_Some in Hlast as [l' ->]. apply elem_of_app. right. constructor. }
      apply Hq in Hin. congruence.
Qed.

Lemma run_fails_before_showing_witness :
  exists trace,
    main (fun _ => None) text_radius (Some "out.png") = (trace, Raise TypeError) /\
    List.length trace = 3%nat /\ Image_show ∉ trace.
Proof.
  eexists. split; [reflexivity |]. split; [reflexivity |].
  refine (proj1 (run_fails_before_showing (fun _ => None) text_radius
                   (Some "out.png") _ _ _ TypeError eq_refl eq_refl _)).
  repeat constructor.
Defined.

(** X9. The screen parameters are the keyword arguments of [ImageManager]:
    when the ["Screen"] object of the input has no ["width"] or no
    ["height"], or has a key that is none of [width], [height],
    [bg_color] and [fg_color], a parse that goes through is followed by
    [TypeError], and nothing is asked of the imaging library. *)
Theorem screen_must_fit_canvas (doc : json) (raw : val) (h h' : heap)
    (fp : FileParser.self) (ls : loc) (sd : dict) :
  json_load doc [] = Ok (raw, h) ->
  FileParser.__init__ raw h = Ok (fp, h') ->
  getitem raw "Screen" h = Ok (VRef ls, h) ->
  h !! ls = Some (ODict sd) ->
  dget "width" sd = None \/ dget "height" sd = None \/
  (exists k, k ∈ keys sd /\ k ∉ ["width"; "height"; "bg_color"; "fg_color"]) ->
  forall raises output, main raises doc output = ([], Raise TypeError).
Proof.
  intros Hload Hinit Hscreen Hls Hbad raises output.
  destruct (json_load_tree doc) as (raw0 & h0 & E & Htree).
  rewrite Hload in E. inversion E; subst raw0 h0; clear E.
  destruct (init_Ok raw h h' fp Htree Hinit)
    as (r & top & lp & ls' & sd' & bg_token & fg_token & bg & fg & rf
        & es & -> & Hr & _ & _ & Hs & Hsp & Hls0 & _ & _ & _ & _ & Hls'
        & _ & _ & _).
  unfold getitem, deref in Hscreen. rewrite Hr, Hs in Hscreen.
  inversion Hscreen; subst ls'; clear Hscreen.
  rewrite Hls in Hls0. inversion Hls0; subst sd'; clear Hls0.
  unfold main. rewrite (new_eq doc (VRef r) h Hload), Hinit.
  unfold FileParser.kwargs_of, deref. rewrite Hsp, Hls'.
  unfold ImageManager_new.
  set (kwargs := dset "fg_color" fg (dset "bg_color" bg sd)).
  assert (Hb : bind_kwargs ImageManager.parameters kwargs = Raise TypeError);
    [| now rewrite Hb].
  destruct Hbad as [Hw | [Hh | (k & Hk & Hno)]].
  - unfold bind_kwargs. destruct (forallb _ _); [| reflexivity].
    simpl. unfold kwargs.
    rewrite !dget_dset_ne, Hw by discriminate. reflexivity.
  - unfold bind_kwargs. destruct (forallb _ _); [| reflexivity].
    simpl. unfold kwargs.
    rewrite !(dget_dset_ne "height"), Hh by discriminate.
    now destruct (dget "width" _).
  - apply (bind_kwargs_unexpected _ kwargs k); [| exact Hno].
    unfold kwargs. rewrite !keys_dset. auto.
Qed.

Lemma screen_must_fit_canvas_witness :
  main (fun _ => None) titled_screen (Some "out.png") = ([], Raise TypeError).
Proof.
  refine (screen_must_fit_canvas titled_screen _ _ _ _ 0%nat
            [("width", VInt 10); ("height", VInt 10); ("title", VStr "scene");
             ("bg_color", VStr "#000000"); ("fg_color", VStr "#FFFFFF")]
            eq_refl eq_refl eq_refl eq_refl _ (fun _ => None) (Some "out.png")).
  right. right. exists "title". split.
  - simpl. repeat constructor.
  - repeat (apply not_elem_of_cons; split; [discriminate |]).
    apply not_elem_of_nil.
Defined.

(** ** Documents that are not an object *)

Lemma load_all_returns (js : list json) (h : heap) :
  exists vs ext, load_all json_load js h = Ok (vs, h ++ ext).
Proof.
  assert (Hall : Forall (fun j => fresh_load (fun v => refs [v]) (json_load j)) js)
    by (apply Forall_forall; intros j _; apply json_load_fresh).
  revert h. induction Hall as [|j js Hj _ IH]; intros h.
  - exists [], []. simpl. unfold ret. now rewrite app_nil_r.
  - destruct (Hj h [] (NoDup_nil_2) (Forall_nil_2 _)) as (v & e1 & Ev & _).
    destruct (IH (h ++ e1)) as (vs & e2 & Evs).
    exists (v :: vs), (e1 ++ e2). cbn [load_all]. unfold bind at 1. rewrite Ev.
    unfold bind at 1. rewrite Evs. unfold ret. now rewrite app_assoc.
Qed.

(** X10. The file must hold a JSON object: on an array, a string, a number,
    [true], [false] or [null] the parser raises [AttributeError] at its
    first step, the look-up of ["Palette"], and the driver ends with it
    before the imaging library is asked for anything. *)
Theorem document_must_be_object (doc : json) :
  (forall kvs, doc <> JObj kvs) ->
  FileParser.new doc [] = Raise AttributeError /\
  forall raises output, main raises doc output = ([], Raise AttributeError).
Proof.
  intros Hdoc.
  assert (Hnew : FileParser.new doc [] = Raise AttributeError).
  { destruct doc as [| b | n | s | js | kvs]; try reflexivity.
    - destruct (load_all_returns js []) as (vs & ext & E).
      unfold FileParser.new, bind at 1. cbn [json_load]. unfold bind at 1.
      rewrite E. unfold alloc. unfold FileParser.__init__, bind at 1.
      unfold getattr_get, deref.
      rewrite lookup_app_r by lia. rewrite Nat.sub_diag. reflexivity.
    - now destruct (Hdoc kvs). }
  split; [exact Hnew |]. intros raises output. unfold main. now rewrite Hnew.
Qed.

Lemma document_must_be_object_witness :
  FileParser.new (JArr [JObj [("type", JStr "point")]]) []
  = Raise AttributeError.
Proof.
  apply (document_must_be_object (JArr [JObj [("type", JStr "point")]])).
  intros kvs. discriminate.
Defined.

(** ** The colours of a parsed scene *)

Lemma parse_color_is_colour (v c : val) :
  FileParser._parse_color v = Ok c -> is_colour c = true.
Proof.
  destruct v as [| | | s | |]; try discriminate.
  destruct (String.prefix "(" s) eqn:Hp.
  - rewrite (parse_color_paren s Hp).
    pose proof (findall_digits_all s) as Hall.
    destruct (findall_digits s) as [|r [|g [|b [|? ?]]]]; try discriminate.
    destruct (int_triple r g b) as [[_ ->] | [_ ->]]; [| discriminate].
    intros H; inversion H; subst c; clear H.
    apply Forall_cons in Hall as [Hr Hall].
    apply Forall_cons in Hall as [Hg Hall].
    apply Forall_cons in Hall as [Hb _].
    unfold is_colour, decimal.
    rewrite !andb_true_iff, !Z.leb_le.
    repeat split; apply int_from_nonneg; auto; lia.
  - unfold FileParser._parse_color. cbn [startswith rbind]. rewrite Hp.
    destruct (String.prefix "#" s) eqn:Hh; intros H; now inversion H.
Qed.

Lemma parse_values_colours (pd pd' : dict) :
  parse_values pd = Ok pd' ->
  forall k c, dget k pd' = Some c -> is_colour c = true.
Proof.
  intros H. apply parse_values_Ok in H.
  induction H as [|[k0 v] [k1 c0] pd pd' [_ Hc] _ IH]; intros k c; simpl;
    [discriminate |].
  destruct (decide (k = k1)); [| apply IH].
  intros E; inversion E; subst. now apply (parse_color_is_colour v).
Qed.

(** What the resolver returns on a palette of colours is a colour, and
    its token was a string. *)
Lemma resolve_is_colour (lp : loc) (pd' : dict) (token c : val) (h : heap) :
  h !! lp = Some (ODict pd') ->
  (forall k c, dget k pd' = Some c -> is_colour c = true) ->
  FileParser.resolve (VRef lp) token h = Ok (c, h) ->
  exists s, token = VStr s /\ c = default c (dget s pd') /\
            (dget s pd' = None -> FileParser._parse_color token = Ok c) /\
            is_colour c = true.
Proof.
  intros Hlp Hpal Hres.
  destruct token as [| | | s | |];
    try (rewrite resolve_not_str in Hres by discriminate; discriminate).
  exists s. split; [reflexivity |].
  rewrite (resolve_str lp pd' s h Hlp) in Hres.
  destruct (FileParser._parse_color (VStr s)) as [literal |] eqn:Hlit;
    [| discriminate].
  inversion Hres; subst c; clear Hres.
  destruct (dget s pd') as [c |] eqn:Hs; simpl.
  - repeat split; [discriminate | eauto].
  - repeat split. now apply (parse_color_is_colour (VStr s)).
Qed.

(** X11. The palette of the parser is the ["Palette"]
    object of the input itself when there is one, a new empty dictionary
    otherwise; after the parse it holds the same names in the same order,
    each with what [_parse_color] makes of its value. *)
Theorem palette_is_parsed (doc : json) (raw : val) (h h' : heap)
    (fp : FileParser.self) :
  json_load doc [] = Ok (raw, h) ->
  FileParser.__init__ raw h = Ok (fp, h') ->
  exists lp pd pd',
    FileParser.color_palette fp = VRef lp /\
    (getitem raw "Palette" h = Ok (VRef lp, h) /\ h !! lp = Some (ODict pd) \/
     getitem raw "Palette" h = Raise (KeyError (VStr "Palette")) /\
     h !! lp = None /\ pd = []) /\
    h' !! lp = Some (ODict pd') /\
    Forall2 (fun kv kc => fst kc = fst kv /\
                          FileParser._parse_color (snd kv) = Ok (snd kc)) pd pd'.
Proof.
  intros Hload Hinit. destruct (loaded doc raw h Hload) as [Htree Hkeys].
  destruct (init_run raw h h' fp Htree Hkeys Hinit)
    as (r & top & lp & ls & pd & pd' & sd & bg & fg & rf & es & -> & Hr & Hcp
        & _ & Hpal & Hpv & Hlp' & _).
  exists lp, pd, pd'. split; [assumption |]. split; [| split].
  - unfold getitem, deref. rewrite Hr.
    destruct Hpal as [(-> & Hp & ->) | [Hp Hlp]]; rewrite Hp; [right | left; auto].
    repeat split. apply lookup_ge_None. lia.
  - assumption.
  - now apply parse_values_Ok.
Qed.

(** X12. After a parse, every colour the parser has stored has one of
    three forms: the ["bg_color"] and the ["fg_color"] of the screen
    parameters, every value of the palette and the colour of every shape
    is a string that starts with [#], a triple of numbers that are not
    negative, or [None]. *)
Theorem colours_are_resolved (doc : json) (raw : val) (h h' : heap)
    (fp : FileParser.self) :
  json_load doc [] = Ok (raw, h) ->
  FileParser.__init__ raw h = Ok (fp, h') ->
  (exists bg fg,
     getitem (FileParser.screen_parameters fp) "bg_color" h' = Ok (bg, h') /\
     getitem (FileParser.screen_parameters fp) "fg_color" h' = Ok (fg, h') /\
     is_colour bg = true /\ is_colour fg = true) /\
  (forall name c,
     getitem (FileParser.color_palette fp) name h' = Ok (c, h') ->
     is_colour c = true) /\
  Forall (fun s => is_colour (shape_color s) = true) (FileParser.figures fp).
Proof.
  intros Hload Hinit. destruct (loaded doc raw h Hload) as [Htree Hkeys].
  destruct (init_run raw h h' fp Htree Hkeys Hinit)
    as (r & top & lp & ls & pd & pd' & sd & bg & fg & rf & es & -> & Hr & Hcp
        & Hsp & _ & Hpv & Hlp' & _ & _ & (bgt & _ & Hbg) & (fgt & _ & Hfg)
        & Hls' & _ & _ & Hall & _).
  pose proof (parse_values_colours pd pd' Hpv) as Hpal.
  split; [| split].
  - exists bg, fg. rewrite Hsp. unfold getitem, deref. rewrite Hls'.
    rewrite dget_dset_eq, dget_dset_ne, dget_dset_eq by discriminate.
    repeat split.
    + now destruct (resolve_is_colour lp pd' bgt bg h' Hlp' Hpal Hbg)
        as (_ & _ & _ & _ & ?).
    + now destruct (resolve_is_colour lp pd' fgt fg h' Hlp' Hpal Hfg)
        as (_ & _ & _ & _ & ?).
  - intros name c. rewrite Hcp. unfold getitem, deref. rewrite Hlp'.
    destruct (dget name pd') as [c' |] eqn:Hn; [| discriminate].
    intros E; inversion E; subst. eauto.
  - eapply Forall2_Forall_r; [exact Hall |].
    apply Forall_forall. intros entry _ s (l & d & _ & _ & Hres).
    now destruct (resolve_is_colour lp pd' _ _ h' Hlp' Hpal Hres)
      as (_ & _ & _ & _ & ?).
Qed.

Lemma colours_are_resolved_witness :
  Forall (fun s => is_colour (shape_color s) = true)
    [CircleObj (VStr "#FF0000") (VInt 5) (VInt 5) (VInt 3);
     CircleObj (VStr "#0000FF") (VInt 6) (VInt 6) (VInt 3)].
Proof.
  exact (proj2 (proj2 (colours_are_resolved two_circles _ _ _ _
                         eq_refl eq_refl))).
Defined.

(** A palette of two names, the second of which looks like a colour. *)
Lemma palette_is_parsed_witness :
  exists fp h' lp pd',
    FileParser.new chained_foreground [] = Ok (fp, h') /\
    FileParser.color_palette fp = VRef lp /\
    h' !! lp = Some (ODict pd') /\
    Forall2 (fun kv kc => fst kc = fst kv /\
                          FileParser._parse_color (snd kv) = Ok (snd kc))
      [("green", VStr "#00FF00"); ("#00FF00", VStr "#0000FF")] pd'.
Proof.
  destruct (palette_is_parsed chained_foreground _ _ _ _ eq_refl eq_refl)
    as (lp & pd & pd' & Hcp & Hpal & Hlp & Hall).
  do 2 eexists. exists lp, pd'. split; [reflexivity |].
  split; [exact Hcp |]. split; [exact Hlp |].
  simpl in Hcp. inversion Hcp; subst lp.
  destruct Hpal as [[_ E] | [E _]]; [| discriminate E].
  inversion E; subst pd. exact Hall.
Defined.

(** X13. A figure that gives no colour is parsed
    only when the resolved ["fg_color"] of the screen is a string that
    starts with [#]: the shape then gets what the resolver makes of that
    string, which is the value the palette has for it when it is a name
    of the palette, and the string itself otherwise. *)
Theorem default_colour_needs_hex (doc : json) (raw raw_figures : val)
    (h h' : heap) (fp : FileParser.self) (entries : list val) (i : nat)
    (l : loc) (d : dict) (s : shape) :
  json_load doc [] = Ok (raw, h) ->
  FileParser.__init__ raw h = Ok (fp, h') ->
  getitem raw "Figures" h = Ok (raw_figures, h) ->
  iter raw_figures h = Ok (entries, h) ->
  entries !! i = Some (VRef l) ->
  h !! l = Some (ODict d) ->
  dget "color" d = None ->
  FileParser.figures fp !! i = Some s ->
  exists hex,
    getitem (FileParser.screen_parameters fp) "fg_color" h'
    = Ok (VStr hex, h') /\
    String.prefix "#" hex = true /\
    FileParser.resolve (FileParser.color_palette fp) (VStr hex) h'
    = Ok (shape_color s, h') /\
    forall lp pd',
      FileParser.color_palette fp = VRef lp -> h' !! lp = Some (ODict pd') ->
      shape_color s = default (VStr hex) (dget hex pd').
Proof.
  intros Hload Hinit Hfigs Hiter Hi Hd Hcol Hs.
  destruct (loaded doc raw h Hload) as [Htree Hkeys].
  destruct (init_run raw h h' fp Htree Hkeys Hinit)
    as (r & top & lp & ls & pd & pd' & sd & bg & fg & rf & es & -> & Hr & Hcp
        & Hsp & _ & Hpv & Hlp' & _ & _ & _ & (fgt & _ & Hfg)
        & Hls' & Hf & Hit & Hall & _).
  unfold getitem, deref in Hfigs. rewrite Hr, Hf in Hfigs.
  inversion Hfigs; subst rf; clear Hfigs.
  rewrite Hiter in Hit. inversion Hit; subst es; clear Hit.
  pose proof (parse_values_colours pd pd' Hpv) as Hpal.
  destruct (Forall2_lookup_lr _ _ _ _ _ _ Hall Hi Hs)
    as (l0 & d0 & E & Hd0 & Hres).
  inversion E; subst l0; clear E.
  rewrite Hd in Hd0. inversion Hd0; subst d0; clear Hd0.
  rewrite dget_ddel_ne, Hcol in Hres by discriminate. simpl in Hres.
  destruct (resolve_is_colour lp pd' fgt fg h' Hlp' Hpal Hfg)
    as (_ & _ & _ & _ & Hcfg).
  destruct (resolve_is_colour lp pd' fg _ h' Hlp' Hpal Hres)
    as (hex & -> & _ & _ & _).
  exists hex. rewrite Hsp, Hcp. split; [| split; [| split]].
  - unfold getitem, deref. now rewrite Hls', dget_dset_eq.
  - exact Hcfg.
  - exact Hres.
  - intros lp0 pd0 E Hlp0. inversion E; subst lp0.
    rewrite Hlp' in Hlp0. inversion Hlp0; subst pd0.
    rewrite (resolve_str lp pd' hex h' Hlp') in Hres.
    destruct (FileParser._parse_color (VStr hex)) as [lit |] eqn:Hlit;
      [| discriminate].
    unfold FileParser._parse_color in Hlit. simpl in Hlit.
    simpl in Hcfg. rewrite Hcfg in Hlit. inversion Hlit; subst lit.
    now inversion Hres.
Qed.

(** The point of the minimal scene gets the foreground [#FFFFFF]. *)
Lemma default_colour_needs_hex_witness :
  exists hex fp h',
    FileParser.new minimal_scene [] = Ok (fp, h') /\
    getitem (FileParser.screen_parameters fp) "fg_color" h'
    = Ok (VStr hex, h') /\
    String.prefix "#" hex = true /\
    FileParser.resolve (FileParser.color_palette fp) (VStr hex) h'
    = Ok (VStr "#FFFFFF", h').
Proof.
  destruct (default_colour_needs_hex minimal_scene _ _ _ _ _ _ 0%nat 1%nat
              [("type", VStr "point"); ("x", VInt 5); ("y", VInt 5)]
              (PointObj (VStr "#FFFFFF") (VInt 5) (VInt 5))
              eq_refl eq_refl eq_refl eq_refl eq_refl eq_refl eq_refl eq_refl)
    as (hex & Hfg & Hhex & Hres & _).
  exists hex. eexists. eexists. split; [reflexivity |]. auto.
Defined.

(** ** Scenes the parser refuses *)

(** [__init__] up to the loop over the palette: the palette is the
    ["Palette"] of the document, or the new empty dictionary. *)
Lemma init_eq (r : loc) (top : dict) (h : heap) :
  h !! r = Some (ODict top) ->
  let h1 := h ++ [ODict []] in
  let color_palette := default (VRef (List.length h)) (dget "Palette" top) in
  FileParser.__init__ (VRef r) h =
    match deref color_palette h1 with
    | Some (ODict pd) =>
        (forM_ pd (fun '(name, value) =>
           color <- lift (FileParser._parse_color value) ;;
           setitem color_palette name color) ;;;
         after_palette (VRef r) color_palette) h1
    | _ => Raise AttributeError
    end.
Proof.
  intros Hr h1 color_palette.
  assert (Hr1 : h1 !! r = Some (ODict top)).
  { unfold h1. rewrite lookup_app_l; [assumption |]. eapply lookup_lt_Some; eauto. }
  unfold FileParser.__init__. unfold bind at 1, getattr_get, deref. rewrite Hr.
  unfold bind at 1, alloc. fold h1.
  unfold bind at 1. cbn [hashed]. rewrite Hr1.
  replace (match dget "Palette" top with
           | Some v => v
           | None => VRef (List.length h)
           end) with color_palette
    by (unfold color_palette; now destruct (dget "Palette" top)).
  clearbody color_palette. unfold bind at 1, items, deref.
  destruct color_palette as [| | | | | l]; try reflexivity.
  destruct (h1 !! l) as [[pd | ?] |]; reflexivity.
Qed.

Lemma parse_values_total (pd : dict) :
  Forall (fun kv => exists c, FileParser._parse_color (snd kv) = Ok c) pd ->
  exists pd', parse_values pd = Ok pd'.
Proof.
  intros Hall. destruct (parse_values pd) as [pd' | e] eqn:H; [eauto |].
  apply parse_values_Raise in H as (pre & k & v & post & -> & _ & Hv).
  apply Forall_app in Hall as [_ Hall].
  apply Forall_cons in Hall as [[c Hc] _]. simpl in Hc. congruence.
Qed.

(** The parse of a loaded document, from the loop over the palette on. *)
Lemma init_palette (doc : json) (r lp : loc) (top pd : dict) (h : heap) :
  json_load doc [] = Ok (VRef r, h) ->
  h !! r = Some (ODict top) ->
  dget "Palette" top = Some (VRef lp) /\ h !! lp = Some (ODict pd) \/
  dget "Palette" top = None /\ lp = List.length h /\ pd = [] ->
  FileParser.new doc [] =
    match parse_values pd with
    | Ok pd' =>
        after_palette (VRef r) (VRef lp) (<[lp := ODict pd']> (h ++ [ODict []]))
    | Raise e => Raise e
    end.
Proof.
  intros Hload Hr Hpal. destruct (loaded doc _ h Hload) as [Htree Hkeys].
  rewrite (new_eq doc _ h Hload), (init_eq r top h Hr).
  assert (Hlp : default (VRef (List.length h)) (dget "Palette" top) = VRef lp).
  { destruct Hpal as [[-> _] | (-> & -> & _)]; reflexivity. }
  rewrite Hlp.
  assert (H1 : (h ++ [ODict []]) !! lp = Some (ODict ([] ++ pd))).
  { destruct Hpal as [[_ Hpd] | (_ & -> & ->)].
    - rewrite lookup_app_l; [assumption |]. eapply lookup_lt_Some; eauto.
    - now rewrite lookup_app_r, Nat.sub_diag by lia. }
  assert (Hnd : NoDup (keys ([] ++ pd))).
  { destruct Hpal as [[_ Hpd] | (_ & _ & ->)]; [eauto | constructor]. }
  unfold deref. rewrite H1. cbn [app]. unfold bind at 1.
  rewrite (palette_loop_eq lp pd [] _ H1 Hnd).
  now destruct (parse_values pd).
Qed.

(** X14. The palette must be an object whose values are colour literals:
    with a ["Palette"] that is no object the parser raises
    [AttributeError]; otherwise the first value, in the order of the
    palette, on which [_parse_color] raises ends the parse with that
    exception, whether or not the name is ever used. *)
Theorem palette_must_parse (doc : json) (raw palette : val) (h : heap) :
  json_load doc [] = Ok (raw, h) ->
  getitem raw "Palette" h = Ok (palette, h) ->
  ((forall lp pd, palette = VRef lp -> h !! lp <> Some (ODict pd)) ->
   FileParser.new doc [] = Raise AttributeError) /\
  (forall lp pre name value post e,
     palette = VRef lp ->
     h !! lp = Some (ODict (pre ++ (name, value) :: post)) ->
     Forall (fun kv => exists c, FileParser._parse_color (snd kv) = Ok c) pre ->
     FileParser._parse_color value = Raise e ->
     FileParser.new doc [] = Raise e).
Proof.
  intros Hload Hget.
  apply getitem_Ok in Hget as (r & top & -> & Hr & Hp & _).
  split.
  - intros Hno. rewrite (new_eq doc _ h Hload), (init_eq r top h Hr), Hp.
    simpl default. unfold deref. destruct palette as [| | | | | lp]; try reflexivity.
    destruct (le_lt_dec (List.length h) lp) as [Hge | Hlt].
    + destruct (tree_root h r (proj1 (loaded doc _ h Hload))) as (_ & _ & _ & Hclosed).
      assert (Hin : lp ∈ all_refs h)
        by (eapply all_refs_lookup; [exact Hr |]; now apply (dget_ref "Palette")).
      apply Hclosed in Hin. lia.
    + rewrite lookup_app_l by assumption.
      destruct (h !! lp) as [[pd |] |] eqn:Hlp; try reflexivity.
      now destruct (Hno lp pd).
  - intros lp pre name value post e -> Hlp Hpre Hv.
    rewrite (init_palette doc r lp top (pre ++ (name, value) :: post) h Hload Hr)
      by (left; split; assumption).
    assert (H : parse_values (pre ++ (name, value) :: post) = Raise e)
      by (apply parse_values_Raise; eauto 8).
    now rewrite H.
Qed.

Lemma palette_must_parse_witness :
  FileParser.new short_tuple_palette [] = Raise ValueError.
Proof.
  refine (proj2 (palette_must_parse short_tuple_palette _ (VRef 0) _
                   eq_refl eq_refl)
            0%nat [("red", VStr "#FF0000")] "blue" (VStr "(0, 0)")
            [("green", VInt 3)] ValueError eq_refl eq_refl _ eq_refl).
  repeat constructor. eexists. reflexivity.
Defined.

Lemma getitem_frame (o : val) (k : string) (h h' : heap) :
  (forall l, o = VRef l -> h' !! l = h !! l) ->
  getitem o k h' = match getitem o k h with
                   | Ok (v, _) => Ok (v, h')
                   | Raise e => Raise e
                   end.
Proof.
  unfold getitem, deref. destruct o; try reflexivity.
  intros Hl. rewrite (Hl l eq_refl).
  destruct (h !! l) as [[d |] |]; try reflexivity.
  now destruct (dget k d).
Qed.

(** X15. With a palette that parses, or none, the next thing the parser
    needs is the screen: a document without ["Screen"] raises
    [KeyError('Screen')], and one whose ["Screen"] cannot be asked for
    its ["bg_color"] (it is no object, or has no such key) raises what
    that look-up raises. *)
Theorem screen_is_required (doc : json) (raw : val) (h : heap) :
  json_load doc [] = Ok (raw, h) ->
  (forall palette,
     getitem raw "Palette" h = Ok (palette, h) ->
     exists lp pd,
       palette = VRef lp /\ h !! lp = Some (ODict pd) /\
       Forall (fun kv => exists c, FileParser._parse_color (snd kv) = Ok c) pd) ->
  (getitem raw "Screen" h = Raise (KeyError (VStr "Screen")) ->
   FileParser.new doc [] = Raise (KeyError (VStr "Screen"))) /\
  (forall screen e,
     getitem raw "Screen" h = Ok (screen, h) ->
     getitem screen "bg_color" h = Raise e ->
     FileParser.new doc [] = Raise e).
Proof.
  intros Hload Hpal.
  assert (Hrun : forall r top,
            raw = VRef r -> h !! r = Some (ODict top) ->
            exists lp pd',
              r <> lp /\
              (forall k l, k <> "Palette" -> dget k top = Some (VRef l) ->
                           l <> lp /\ (l < List.length h)%nat) /\
              FileParser.new doc []
              = after_palette (VRef r) (VRef lp)
                  (<[lp := ODict pd']> (h ++ [ODict []]))).
  { intros r top -> Hr.
    destruct (tree_root h r (proj1 (loaded doc _ h Hload)))
      as (Hroot & Hnd & Hrlt & Hclosed).
    assert (Hin : forall k l, dget k top = Some (VRef l) -> l ∈ all_refs h).
    { intros k l Hk. eapply all_refs_lookup; [exact Hr |]. now apply (dget_ref k). }
    destruct (dget "Palette" top) as [palette |] eqn:Hp.
    - destruct (Hpal palette) as (lp & pd & -> & Hlp & Hall).
      { unfold getitem, deref. now rewrite Hr, Hp. }
      destruct (parse_values_total pd Hall) as [pd' Hpd].
      exists lp, pd'. split; [| split].
      + intros <-. apply Hroot, (Hin "Palette"), Hp.
      + intros k l Hk Hl. split; [| apply Hclosed, (Hin k), Hl].
        eapply (dget_refs_ne k "Palette" top); eauto.
        apply (all_refs_obj_NoDup h r (ODict top)); assumption.
      + rewrite (init_palette doc r lp top pd h Hload Hr)
          by (left; split; assumption).
        now rewrite Hpd.
    - exists (List.length h), []. split; [lia |]. split.
      + intros k l _ Hl. apply Hin, Hclosed in Hl. lia.
      + now rewrite (init_palette doc r (List.length h) top [] h Hload Hr)
          by (right; repeat split; assumption). }
  split.
  - intros Hs. unfold getitem, deref in Hs.
    destruct raw as [| | | | | r]; try discriminate.
    destruct (h !! r) as [[top |] |] eqn:Hr; try discriminate.
    destruct (dget "Screen" top) eqn:Hscreen; [discriminate |].
    destruct (Hrun r top eq_refl Hr) as (lp & pd' & Hrlp & _ & ->).
    unfold after_palette, bind at 1, getitem, deref.
    rewrite list_lookup_insert_ne by congruence.
    rewrite lookup_app_l by (eapply lookup_lt_Some; eauto).
    now rewrite Hr, Hscreen.
  - intros screen e Hs Hbg.
    apply getitem_Ok in Hs as (r & top & -> & Hr & Hscreen & _).
    destruct (Hrun r top eq_refl Hr) as (lp & pd' & Hrlp & Hne & ->).
    unfold after_palette, bind at 1. unfold getitem at 1, deref.
    rewrite list_lookup_insert_ne by congruence.
    rewrite lookup_app_l by (eapply lookup_lt_Some; eauto).
    rewrite Hr, Hscreen. unfold bind at 1.
    rewrite (getitem_frame screen "bg_color" h), Hbg; [reflexivity |].
    intros l ->. destruct (Hne "Screen" l) as [Hl Hlt]; [discriminate | assumption |].
    rewrite list_lookup_insert_ne by congruence. now apply lookup_app_l.
Qed.

Lemma screen_is_required_witness :
  FileParser.new no_screen [] = Raise (KeyError (VStr "Screen")).
Proof.
  refine (proj1 (screen_is_required no_screen _ _ eq_refl _) eq_refl).
  intros palette E. inversion E; subst palette.
  exists 0%nat, [("red", VStr "#FF0000")].
  split; [reflexivity |]. split; [reflexivity |].
  repeat constructor. eexists. reflexivity.
Defined.

(** ** Figures that are built *)

Lemma construct_attributes (c : constructor) (kwargs : dict) (s : shape) :
  construct c kwargs = Ok s ->
  class_of s = c /\
  forall a p, (a, p) ∈ assignments c -> dget a (attributes s) = dget p kwargs.
Proof.
  unfold construct, bind_kwargs.
  destruct (forallb _ (keys kwargs)); [| discriminate].
  destruct c; simpl;
    repeat (match goal with
            | |- context [dget ?q kwargs] =>
                destruct (dget q kwargs) eqn:?; simpl
            end); intros H; inversion H; subst s; clear H;
    (split; [reflexivity |]); intros a p Hin;
    repeat (apply elem_of_cons in Hin as [E | Hin];
            [inversion E; subst a p; simpl; congruence |]);
    now apply elem_of_nil in Hin.
Qed.

Lemma keys_ddel (k k' : string) (d : dict) :
  NoDup (keys d) -> k ∈ keys (ddel k' d) -> k <> k' /\ k ∈ keys d.
Proof.
  intros Hnd Hk. destruct (decide (k = k')) as [-> | Hne].
  - exfalso. revert Hk. apply dget_None. now apply dget_ddel_eq.
  - split; [assumption |]. now apply (keys_ddel_ne k k' d).
Qed.

(** X16. A figure whose fields are its ["type"],
    the geometry parameters of its class, each once, and perhaps a
    ["color"] is built whatever the values of the geometry fields are:
    it is an instance of the class the type names, and every attribute
    holds the value of the field it is taken from, unchanged and
    unchecked, the [height] and the [width] of a square both its
    ["size"]. *)
Theorem figure_is_built_from_its_fields (palette screen : val) (l : loc)
    (d : dict) (t fg_color color : val) (c : constructor) (h : heap) :
  let h1 := <[l := ODict (ddel "type" d)]> h in
  h !! l = Some (ODict d) ->
  NoDup (keys d) ->
  dget "type" d = Some t ->
  FileParser.figure_constructor t = Ok c ->
  getitem screen "fg_color" h1 = Ok (fg_color, h1) ->
  FileParser.resolve palette (default fg_color (dget "color" (ddel "type" d))) h1
  = Ok (color, h1) ->
  (forall p, p ∈ geometry c -> is_Some (dget p d)) ->
  (forall k, k ∈ keys d -> k ∈ "type" :: "color" :: geometry c) ->
  exists s,
    FileParser._parse_figure palette screen (VRef l) h
    = Ok (s, <[l := ODict (dset "color" color (ddel "type" d))]> h) /\
    class_of s = c /\ shape_color s = color /\
    forall a p, (a, p) ∈ assignments c -> p <> "color" ->
                dget a (attributes s) = dget p d.
Proof.
  intros h1 Hl Hnd Ht Hc Hfg Hres Hgeo Hkeys.
  set (kwargs := dset "color" color (ddel "type" d)).
  assert (Hpar : forall p, p ∈ parameters c -> p <> "color" ->
                           p <> "type" /\ dget p kwargs = dget p d).
  { intros p Hp Hne.
    assert (p <> "type") by (intros ->; now apply (geometry_no_type c)).
    split; [assumption |]. unfold kwargs.
    now rewrite dget_dset_ne, dget_ddel_ne. }
  destruct (construct_ok c kwargs) as [s Hs].
  { intros k Hk. apply keys_dset in Hk as [-> | Hk].
    - apply geometry_parameters. now left.
    - apply (keys_ddel k "type" d Hnd) in Hk as [Hne Hk].
      apply Hkeys in Hk. apply elem_of_cons in Hk as [-> | Hk]; [congruence |].
      apply elem_of_cons in Hk as [-> | Hk]; apply geometry_parameters; auto. }
  { intros p Hp. destruct (decide (p = "color")) as [-> | Hne].
    - unfold kwargs. rewrite dget_dset_eq. eauto.
    - destruct (Hpar p Hp Hne) as [_ ->]. apply Hgeo.
      apply geometry_parameters in Hp as [-> | Hp]; [congruence | exact Hp]. }
  exists s. rewrite (parse_figure_eq palette screen l d t h Hl Ht). fold h1.
  rewrite Hfg, Hres, Hc. fold kwargs. rewrite Hs.
  destruct (construct_attributes c kwargs s Hs) as [Hcls Hattr].
  split; [reflexivity |]. split; [assumption |]. split.
  - apply construct_color in Hs. unfold kwargs in Hs.
    rewrite dget_dset_eq in Hs. congruence.
  - intros a p Hin Hne. rewrite (Hattr a p Hin).
    apply Hpar; [| assumption].
    destruct c; simpl in Hin;
      repeat (apply elem_of_cons in Hin as [E | Hin];
              [inversion E; subst a p; simpl; repeat constructor; congruence |]);
      now apply elem_of_nil in Hin.
Qed.

(** A square whose size is a text, its fields in another order. *)
Lemma figure_is_built_from_its_fields_witness :
  exists s h',
    FileParser._parse_figure (VRef 0) (VRef 1) (VRef 2)
      [ODict [];
       ODict [("fg_color", VStr "#FFFFFF")];
       ODict [("size", VStr "big"); ("y", VInt 2); ("type", VStr "square");
              ("x", VInt 1)]]
    = Ok (s, h') /\
    class_of s = CSquare /\
    dget "height" (attributes s) = Some (VStr "big") /\
    dget "width" (attributes s) = Some (VStr "big").
Proof.
  destruct (figure_is_built_from_its_fields (VRef 0) (VRef 1) 2
              [("size", VStr "big"); ("y", VInt 2); ("type", VStr "square");
               ("x", VInt 1)]
              (VStr "square") (VStr "#FFFFFF") (VStr "#FFFFFF") CSquare
              [ODict [];
               ODict [("fg_color", VStr "#FFFFFF")];
               ODict [("size", VStr "big"); ("y", VInt 2);
                      ("type", VStr "square"); ("x", VInt 1)]])
    as (s & Hs & Hcls & _ & Hattr);
    try reflexivity.
  - simpl. repeat (apply NoDup_cons; split;
                   [repeat (apply not_elem_of_cons; split; [discriminate |]);
                    apply not_elem_of_nil |]).
    apply NoDup_nil_2.
  - intros p Hp. unfold geometry in Hp. simpl in Hp. elem_cases Hp;
      simpl; eauto.
  - intros k Hk. simpl in Hk. elem_cases Hk; unfold geometry; simpl;
      repeat constructor.
  - exists s. eexists. split; [exact Hs |]. split; [exact Hcls |].
    split; [apply (Hattr "height" "size") | apply (Hattr "width" "size")];
      try discriminate; simpl; repeat constructor.
Defined.
